(** * CvBuilderBasedOnJob: the extractor, the JSON repair step, the schema
      normaliser and the keyword scorer, embedded from [app.py] and
      [resume_helpers.py].

    Conventions of the embedding.
    - A Python [str] is a [string]; a character is a code point below 256.
    - A Python [int] is a [Z]; a Python [float] is an IEEE binary64 value,
      a [spec_float] of the Standard Library at precision 53.
    - A Python [dict] is an association list in insertion order.
    - A call that can raise returns a [result].
    - [json.loads] is the library's: its model returns an [option], with
      [None] for a text whose result the embedding does not hold (a
      string with a code point above 255, a nesting at the edge of what
      the interpreter's stack allows). *)

From Stdlib Require Import ZArith List String Ascii Bool Lia Permutation Sorted.
From Stdlib Require Import SpecFloat DecimalString.
Import ListNotations.

Local Open Scope string_scope.
Local Open Scope list_scope.
Local Open Scope Z_scope.

Set Implicit Arguments.
Set Warnings "-register-all".

(* ================================================================== *)
(** ** Exceptions *)

Inductive exn : Type :=
| ValueError
| TypeError
| OverflowError
| ZeroDivisionError
| KeyError
| RecursionError
| ParseFailure.   (* the bare [Exception] raised by [parse_llm_response] *)

Inductive result (A : Type) : Type :=
| Ok (a : A)
| Raise (e : exn).

Arguments Ok {A} a.
Arguments Raise {A} e.

Definition bind {A B} (r : result A) (k : A -> result B) : result B :=
  match r with
  | Ok a => k a
  | Raise e => Raise e
  end.

Notation "x <- c ;; k" := (bind c (fun x => k))
  (at level 61, c at next level, right associativity).

Fixpoint mapM {A B} (f : A -> result B) (l : list A) : result (list B) :=
  match l with
  | [] => Ok []
  | a :: l' => b <- f a ;; bs <- mapM f l' ;; Ok (b :: bs)
  end.

(* ================================================================== *)
(** ** Characters and strings *)

Definition code (c : ascii) : Z := Z.of_N (N_of_ascii c).

Definition chr (z : Z) : ascii := ascii_of_N (Z.to_N z).

Definition in_range (lo hi : Z) (c : ascii) : bool :=
  (lo <=? code c) && (code c <=? hi).

(** [str.isspace] on the code points below 256; the same set is [\s] of
    the [re] module on [str] patterns, and what [split()] and [strip()]
    remove. *)
Definition is_space (c : ascii) : bool :=
  in_range 9 13 c || in_range 28 32 c || (code c =? 133) || (code c =? 160).

Definition is_digit (c : ascii) : bool := in_range 48 57 c.

Definition is_lower_az (c : ascii) : bool := in_range 97 122 c.

(** [str.lower] on one code point below 256. *)
Definition lower_char (c : ascii) : ascii :=
  if in_range 65 90 c || (in_range 192 222 c && negb (code c =? 215))
  then chr (code c + 32) else c.

Fixpoint str_map (f : ascii -> ascii) (s : string) : string :=
  match s with
  | EmptyString => EmptyString
  | String c s' => String (f c) (str_map f s')
  end.

Definition lower (s : string) : string := str_map lower_char s.

Fixpoint str_forallb (p : ascii -> bool) (s : string) : bool :=
  match s with
  | EmptyString => true
  | String c s' => p c && str_forallb p s'
  end.

Fixpoint lstrip (s : string) : string :=
  match s with
  | EmptyString => EmptyString
  | String c s' => if is_space c then lstrip s' else s
  end.

Fixpoint rstrip (s : string) : string :=
  match s with
  | EmptyString => EmptyString
  | String c s' =>
      match rstrip s' with
      | EmptyString => if is_space c then EmptyString else String c EmptyString
      | r => String c r
      end
  end.

(** [s.strip()] *)
Definition strip (s : string) : string := rstrip (lstrip s).

(** [sep.join(l)] *)
Fixpoint join (sep : string) (l : list string) : string :=
  match l with
  | [] => ""
  | [s] => s
  | s :: l' => (s ++ sep ++ join sep l')%string
  end.

(** [s.split()]: the maximal runs of non-space characters.  [cur] is the
    run being read, reversed. *)
Definition rev_string (l : list ascii) : string :=
  fold_left (fun acc c => String c acc) l EmptyString.

Fixpoint split_ws_aux (cur : list ascii) (s : string) : list string :=
  match s with
  | EmptyString =>
      match cur with
      | [] => []
      | _ => [rev_string cur]
      end
  | String c s' =>
      if is_space c then
        match cur with
        | [] => split_ws_aux [] s'
        | _ => rev_string cur :: split_ws_aux [] s'
        end
      else split_ws_aux (c :: cur) s'
  end.

Definition split_ws (s : string) : list string := split_ws_aux [] s.

Definition len (s : string) : Z := Z.of_nat (String.length s).

(* ================================================================== *)
(** ** Dictionaries in insertion order *)

Section Dict.
Variable V : Type.

Definition dict := list (string * V).

(** [d.get(k)] *)
Fixpoint dict_get (d : dict) (k : string) : option V :=
  match d with
  | [] => None
  | (k', v) :: d' => if String.eqb k k' then Some v else dict_get d' k
  end.

(** [k in d] *)
Definition dict_mem (d : dict) (k : string) : bool :=
  match dict_get d k with
  | Some _ => true
  | None => false
  end.

(** [d.get(k, dflt)] *)
Definition dict_get_default (d : dict) (k : string) (dflt : V) : V :=
  match dict_get d k with
  | Some v => v
  | None => dflt
  end.

(** [d[k] = v]: an existing key keeps its place, a new key goes last. *)
Fixpoint dict_set (d : dict) (k : string) (v : V) : dict :=
  match d with
  | [] => [(k, v)]
  | (k', v') :: d' =>
      if String.eqb k k' then (k', v) :: d' else (k', v') :: dict_set d' k v
  end.

(** [d.setdefault(k, v)] *)
Definition dict_setdefault (d : dict) (k : string) (v : V) : dict :=
  match dict_get d k with
  | Some _ => d
  | None => dict_set d k v
  end.
End Dict.

(* ================================================================== *)
(** ** Floats: IEEE binary64 *)

Definition prec : Z := 53.
Definition emax : Z := 1024.

Definition float := spec_float.

(** An integer as an exact, not yet rounded, binary number. *)
Definition Z2SF (z : Z) : float :=
  match z with
  | Z0 => S754_zero false
  | Zpos p => S754_finite false p 0
  | Zneg p => S754_finite true p 0
  end.

(** [float(z)]: rounded to nearest, ties to even. *)
Definition float_of_int (z : Z) : result float :=
  match binary_normalize prec emax z 0 false with
  | S754_infinity _ => Raise OverflowError
  | f => Ok f
  end.

(** [a / b] on two ints: the correctly rounded quotient. *)
Definition int_truediv (a b : Z) : result float :=
  if b =? 0 then Raise ZeroDivisionError
  else match SFdiv prec emax (Z2SF a) (Z2SF b) with
       | S754_infinity _ => Raise OverflowError
       | f => Ok f
       end.

Definition float_is_zero (f : float) : bool :=
  match f with
  | S754_zero _ => true
  | _ => false
  end.

(** [x / y] on floats. *)
Definition float_div (x y : float) : result float :=
  if float_is_zero y then Raise ZeroDivisionError
  else Ok (SFdiv prec emax x y).

(** [x * y] on floats. *)
Definition float_mul (x y : float) : float := SFmul prec emax x y.

Definition float_lt (x y : float) : bool := SFltb x y.
Definition float_ge (x y : float) : bool := SFleb y x.
Definition float_eq (x y : float) : bool := SFeqb x y.

Definition apply_sign (s : bool) (z : Z) : Z := if s then - z else z.

(** [int(f)]: truncation toward zero. *)
Definition int_of_float (f : float) : result Z :=
  match f with
  | S754_zero _ => Ok 0
  | S754_nan => Raise ValueError
  | S754_infinity _ => Raise OverflowError
  | S754_finite s m e =>
      Ok (apply_sign s (if 0 <=? e then Z.pos m * 2 ^ e
                        else Z.pos m / 2 ^ (- e)))
  end.

(** [round(f)]: the nearest integer, ties to the even one. *)
Definition round_half_even (m k : Z) : Z :=
  let q := m / 2 ^ k in
  let r := m mod 2 ^ k in
  match 2 * r ?= 2 ^ k with
  | Lt => q
  | Gt => q + 1
  | Eq => if Z.even q then q else q + 1
  end.

Definition py_round (f : float) : result Z :=
  match f with
  | S754_zero _ => Ok 0
  | S754_nan => Raise ValueError
  | S754_infinity _ => Raise OverflowError
  | S754_finite s m e =>
      Ok (apply_sign s (if 0 <=? e then Z.pos m * 2 ^ e
                        else round_half_even (Z.pos m) (- e)))
  end.

(** The float of an int literal that is known to fit. *)
Definition float_lit (z : Z) : float := binary_normalize prec emax z 0 false.

(** The float of the decimal literal [n / d]. *)
Definition float_ratio_lit (n d : Z) : float :=
  SFdiv prec emax (Z2SF n) (Z2SF d).

(* ================================================================== *)
(** ** The keyword scorer ([resume_helpers.py], [compute_ats_score]) *)

Definition stop_words : list string :=
  [ "a"; "an"; "the"; "and"; "or"; "but"; "in"; "on"; "at"; "to"; "for"; "with";
    "by"; "of"; "is"; "are"; "was"; "were"; "be"; "been"; "being"; "have"; "has";
    "had"; "do"; "does"; "did"; "can"; "could"; "will"; "would"; "shall"; "should";
    "may"; "might"; "must"; "i"; "you"; "he"; "she"; "it"; "we"; "they"; "that";
    "this"; "these"; "those"; "from"; "as"; "if"; "when"; "where"; "why"; "how";
    "all"; "any"; "both"; "each"; "few"; "more"; "most"; "other"; "some"; "such";
    "no"; "nor"; "not"; "only"; "own"; "same"; "so"; "than"; "too"; "very" ].

Definition str_in (w : string) (l : list string) : bool :=
  existsb (String.eqb w) l.

(** [re.sub(r'[^a-z0-9\s]', ' ', text)] *)
Definition clean_char (c : ascii) : ascii :=
  if is_lower_az c || is_digit c || is_space c then c else " "%char.

Definition count_word (freq : dict Z) (w : string) : dict Z :=
  dict_set freq w (dict_get_default freq w 0 + 1).

(** The list [keywords] of [extract_keywords]. *)
Definition keyword_list (text : string) : list string :=
  let text := lower text in
  let text := str_map clean_char text in
  let words := split_ws text in
  filter (fun w => negb (str_in w stop_words) && (2 <? len w)) words.

Definition extract_keywords (text : string) : dict Z :=
  let keywords := keyword_list text in
  fold_left count_word keywords [].

(** [sorted(items, key=lambda x: x[1], reverse=True)]: a stable sort by
    descending count.  An element is inserted in front of the elements
    that followed it in the input, and moves past those of a strictly
    greater count only. *)
Fixpoint insert_desc (x : string * Z) (l : list (string * Z))
  : list (string * Z) :=
  match l with
  | [] => [x]
  | y :: l' => if snd x <? snd y then y :: insert_desc x l' else x :: l
  end.

Definition sorted_desc (l : list (string * Z)) : list (string * Z) :=
  fold_right insert_desc [] l.

Record report : Type := {
  score : Z;
  matched : list string;
  missing : list string
}.

Record tally : Type := {
  t_score : Z;
  t_total : Z;
  t_matched : list string;
  t_missing : list string
}.

(** The body of the loop over [top_keywords]. *)
Definition tally_step (cv_keywords : dict Z) (t : tally) (kw : string * Z)
  : tally :=
  let '(word, weight) := kw in
  match dict_get cv_keywords word with
  | Some count =>
      {| t_score := t_score t + Z.min count weight;
         t_total := t_total t + weight;
         t_matched := t_matched t ++ [word];
         t_missing := t_missing t |}
  | None =>
      {| t_score := t_score t;
         t_total := t_total t + weight;
         t_matched := t_matched t;
         t_missing := t_missing t ++ [word] |}
  end.

(** [score = 0], [total_weight = 0], [matched = []], [missing = []] *)
Definition tally0 : tally :=
  {| t_score := 0; t_total := 0; t_matched := []; t_missing := [] |}.

Definition compute_ats_score (cv_text job_description : string)
  : result report :=
  let jd_keywords := extract_keywords job_description in
  let cv_keywords := extract_keywords cv_text in
  match jd_keywords with
  | [] => Ok {| score := 0; matched := []; missing := [] |}
  | _ =>
      let sorted_jd := sorted_desc jd_keywords in
      let top_keywords := firstn 20 sorted_jd in
      let t := fold_left (tally_step cv_keywords) top_keywords tally0 in
      final_score <-
        (if 0 <? t_total t then
           q <- int_truediv (t_score t) (t_total t) ;;
           int_of_float (float_mul q (float_lit 100))
         else Ok 0) ;;
      let final_score :=
        if 0 <? final_score then Z.min 100 (final_score + 10)
        else final_score in
      Ok {| score := final_score;
            matched := firstn 10 (t_matched t);
            missing := firstn 10 (t_missing t) |}
  end.

(* ================================================================== *)
(** ** Decoded JSON values and the Python builtins applied to them *)

(** What [json.loads] returns: [None], [bool], [int], [float], [str],
    [list], and [dict] with string keys. *)
Inductive json : Type :=
| JNull
| JBool (b : bool)
| JInt (z : Z)
| JFloat (f : float)
| JStr (s : string)
| JList (l : list json)
| JDict (d : list (string * json)).

(** [str(z)] on an int. *)
Definition string_of_Z (z : Z) : string :=
  NilZero.string_of_int (Z.to_int z).

(** *** [repr] of a float: the shortest decimal string that reads back
    as the same float, as [float_repr_style = 'short'] prints it. *)

(** Is [n / d < 10 ^ j]? *)
Definition ratio_lt_pow10 (n d j : Z) : bool :=
  if 0 <=? j then n <? 10 ^ j * d else n * 10 ^ (- j) <? d.

(** The least [j], searched upward from [j0], with [n / d < 10 ^ j]. *)
Fixpoint pow10_above (fuel : nat) (n d j0 : Z) : Z :=
  match fuel with
  | O => j0
  | S fuel' =>
      if ratio_lt_pow10 n d j0 then j0 else pow10_above fuel' n d (j0 + 1)
  end.

(** The float that the decimal [dg * 10 ^ x] reads as. *)
Definition float_of_decimal (dg x : Z) : float :=
  if 0 <=? x then binary_normalize prec emax (dg * 10 ^ x) 0 false
  else SFdiv prec emax (Z2SF dg) (Z2SF (10 ^ (- x))).

Definition same_finite (f : float) (m : positive) (e : Z) : bool :=
  match f with
  | S754_finite false m' e' => Pos.eqb m m' && (e =? e')
  | _ => false
  end.

(** The digits of [m * 2 ^ e] at [p] significant digits, when one of the
    two neighbouring [p]-digit decimals reads back as [m * 2 ^ e]: the
    nearer of the two is tried first.  [decpt] is the position of the
    decimal point, as [dtoa] reports it. *)
Definition digits_at (m : positive) (e decpt p : Z) : option Z :=
  let n := Z.pos m * 2 ^ Z.max e 0 in
  let d := 2 ^ Z.max (- e) 0 in
  let x := decpt - p in
  let nx := if 0 <=? x then n else n * 10 ^ (- x) in
  let dx := if 0 <=? x then d * 10 ^ x else d in
  let lo := nx / dx in
  let r := nx mod dx in
  let lo_first :=
    match 2 * r ?= dx with
    | Lt => true
    | Gt => false
    | Eq => Z.even lo
    end in
  let c1 := if lo_first then lo else lo + 1 in
  let c2 := if lo_first then lo + 1 else lo in
  if same_finite (float_of_decimal c1 x) m e then Some c1
  else if same_finite (float_of_decimal c2 x) m e then Some c2
  else None.

Fixpoint shortest_from (fuel : nat) (m : positive) (e decpt p : Z) : Z * Z :=
  match fuel with
  | O => (0, p)
  | S fuel' =>
      match digits_at m e decpt p with
      | Some dg => (dg, p)
      | None => shortest_from fuel' m e decpt (p + 1)
      end
  end.

Fixpoint strip_zeros (fuel : nat) (dg : Z) : Z :=
  match fuel with
  | O => dg
  | S fuel' =>
      if (dg mod 10 =? 0) && negb (dg =? 0) then strip_zeros fuel' (dg / 10)
      else dg
  end.

Fixpoint zeros (n : nat) : string :=
  match n with
  | O => ""
  | S n' => String "0" (zeros n')
  end.

Definition pad2 (s : string) : string :=
  if len s <? 2 then ("0" ++ s)%string else s.

(** [format_float_short] for the code ['r']: exponent form when
    [decpt <= -4] or [decpt > 16], and [.0] added to a fixed form that has
    no fraction. *)
Definition format_digits (ds : string) (decpt : Z) : string :=
  let n := len ds in
  if (decpt <=? -4) || (16 <? decpt) then
    let mant :=
      match ds with
      | String c EmptyString => ds
      | String c rest => (String c "." ++ rest)%string
      | EmptyString => ds
      end in
    let ex := decpt - 1 in
    (mant ++ "e" ++ (if (ex <? 0)%Z then "-" else "+")
       ++ pad2 (string_of_Z (Z.abs ex)))%string
  else if decpt <=? 0 then
    ("0." ++ zeros (Z.to_nat (- decpt)) ++ ds)%string
  else if n <=? decpt then
    (ds ++ zeros (Z.to_nat (decpt - n)) ++ ".0")%string
  else
    (substring 0 (Z.to_nat decpt) ds ++ "."
       ++ substring (Z.to_nat decpt) (Z.to_nat (n - decpt)) ds)%string.

Definition float_repr (f : float) : string :=
  match f with
  | S754_nan => "nan"
  | S754_infinity s => if s then "-inf" else "inf"
  | S754_zero s => if s then "-0.0" else "0.0"
  | S754_finite s m e =>
      let n := Z.pos m * 2 ^ Z.max e 0 in
      let d := 2 ^ Z.max (- e) 0 in
      let decpt := pow10_above 700 n d (-330) in
      let '(dg, p) := shortest_from 17 m e decpt 1 in
      (* a candidate rounded up to [10 ^ p] has one more digit *)
      let decpt := if dg =? 10 ^ p then decpt + 1 else decpt in
      let ds := string_of_Z (strip_zeros 20 dg) in
      ((if s then "-" else "") ++ format_digits ds decpt)%string
  end.

(** *** [repr] of a string *)

Definition hex_digit (z : Z) : ascii :=
  if z <? 10 then chr (48 + z) else chr (87 + z).

Definition is_printable (c : ascii) : bool :=
  in_range 32 126 c || (in_range 161 255 c && negb (code c =? 173)).

Definition repr_char (quote c : ascii) : string :=
  if Ascii.eqb c "\"%char then "\\"
  else if Ascii.eqb c quote then String "\" (String quote "")
  else if code c =? 9 then "\t"
  else if code c =? 10 then "\n"
  else if code c =? 13 then "\r"
  else if is_printable c then String c ""
  else String "\" (String "x" (String (hex_digit (code c / 16))
                                 (String (hex_digit (code c mod 16)) ""))).

Fixpoint str_existsb (p : ascii -> bool) (s : string) : bool :=
  match s with
  | EmptyString => false
  | String c s' => p c || str_existsb p s'
  end.

Fixpoint str_concat_map (f : ascii -> string) (s : string) : string :=
  match s with
  | EmptyString => ""
  | String c s' => (f c ++ str_concat_map f s')%string
  end.

Definition squote : ascii := chr 39.
Definition dquote : ascii := chr 34.

Definition str_repr (s : string) : string :=
  let quote :=
    if str_existsb (Ascii.eqb squote) s && negb (str_existsb (Ascii.eqb dquote) s)
    then dquote else squote in
  (String quote (str_concat_map (repr_char quote) s) ++ String quote "")%string.

(** *** [repr], [str], truth value and [int] of a decoded value *)

Fixpoint py_repr (j : json) : string :=
  match j with
  | JNull => "None"
  | JBool b => if b then "True" else "False"
  | JInt z => string_of_Z z
  | JFloat f => float_repr f
  | JStr s => str_repr s
  | JList l => ("[" ++ join ", " (map py_repr l) ++ "]")%string
  | JDict d =>
      ("{" ++ join ", "
         (map (fun kv => let '(k, v) := kv in
                         (str_repr k ++ ": " ++ py_repr v)%string) d)
         ++ "}")%string
  end.

(** [str(j)] *)
Definition py_str (j : json) : string :=
  match j with
  | JStr s => s
  | _ => py_repr j
  end.

(** [bool(j)], the test of [if j] *)
Definition truthy (j : json) : bool :=
  match j with
  | JNull => false
  | JBool b => b
  | JInt z => negb (z =? 0)
  | JFloat f => negb (float_is_zero f)
  | JStr s => negb (String.eqb s "")
  | JList l => match l with [] => false | _ => true end
  | JDict d => match d with [] => false | _ => true end
  end.

(** [int(s)] on a string, base 10: digits, single underscores between
    digits, an optional sign, surrounding white space.  A literal of more
    than 4300 digits is refused, whatever else it holds
    ([sys.int_info.default_max_str_digits]). *)
Fixpoint digits_value (acc : Z) (after_digit : bool) (s : string) : option Z :=
  match s with
  | EmptyString => if after_digit then Some acc else None
  | String c s' =>
      if is_digit c then digits_value (10 * acc + (code c - 48)) true s'
      else if Ascii.eqb c "_"%char && after_digit then
        match s' with
        | EmptyString => None
        | String c' _ => if is_digit c' then digits_value acc false s' else None
        end
      else None
  end.

(** The white space that [int] skips around the literal: below 128 the
    characters of C's [isspace], from 128 on those of [str.isspace]; the
    separators U+001C to U+001F are not among them. *)
Definition is_int_space (c : ascii) : bool :=
  in_range 9 13 c || (code c =? 32) || (code c =? 133) || (code c =? 160).

Fixpoint lstrip_by (p : ascii -> bool) (s : string) : string :=
  match s with
  | EmptyString => EmptyString
  | String c s' => if p c then lstrip_by p s' else s
  end.

Fixpoint rstrip_by (p : ascii -> bool) (s : string) : string :=
  match s with
  | EmptyString => EmptyString
  | String c s' =>
      match rstrip_by p s' with
      | EmptyString => if p c then EmptyString else String c EmptyString
      | r => String c r
      end
  end.

Definition int_max_str_digits : Z := 4300.

Fixpoint count_digits (s : string) : Z :=
  match s with
  | EmptyString => 0
  | String c s' => (if is_digit c then 1 else 0) + count_digits s'
  end.

Definition int_of_string (s : string) : result Z :=
  let s := rstrip_by is_int_space (lstrip_by is_int_space s) in
  let '(neg, body) :=
    match s with
    | String "-" s' => (true, s')
    | String "+" s' => (false, s')
    | _ => (false, s)
    end in
  if int_max_str_digits <? count_digits body then Raise ValueError
  else
    match digits_value 0 false body with
    | Some z => Ok (apply_sign neg z)
    | None => Raise ValueError
    end.

(** [int(j)] *)
Definition py_int (j : json) : result Z :=
  match j with
  | JInt z => Ok z
  | JBool b => Ok (if b then 1 else 0)
  | JFloat f => int_of_float f
  | JStr s => int_of_string s
  | JNull | JList _ | JDict _ => Raise TypeError
  end.

(** [d[k]] *)
Definition dict_getitem (d : dict json) (k : string) : result json :=
  match dict_get d k with
  | Some v => Ok v
  | None => Raise KeyError
  end.

(* ================================================================== *)
(** ** The schema normaliser ([app.py], [normalize_resume_data]) *)

Definition as_dict (j : json) : dict json :=
  match j with
  | JDict d => d
  | _ => []
  end.

Definition as_list (j : json) : list json :=
  match j with
  | JList l => l
  | _ => []
  end.

(** [x = [str(x)] if x else []] for a value that is not a list, followed
    by [[str(i) for i in x]]. *)
Definition str_list (x : json) : list json :=
  let x :=
    match x with
    | JList l => l
    | _ => if truthy x then [JStr (py_str x)] else []
    end in
  map (fun i => JStr (py_str i)) x.

(** [try: lang["percent"] = int(lang["percent"])]
    [except (ValueError, TypeError): lang["percent"] = 50] *)
Definition percent_or_50 (r : result Z) : result Z :=
  match r with
  | Raise ValueError | Raise TypeError => Ok 50
  | _ => r
  end.

Definition normalize_lang (lang : dict json) : result json :=
  let lang := dict_setdefault lang "name" (JStr "Unknown") in
  let lang := dict_setdefault lang "level" (JStr "Basic") in
  let lang := dict_setdefault lang "percent" (JInt 50) in
  p <- percent_or_50 (v <- dict_getitem lang "percent" ;; py_int v) ;;
  Ok (JDict (dict_set lang "percent" (JInt p))).

Fixpoint normalize_langs (langs : list json) : result (list json) :=
  match langs with
  | [] => Ok []
  | JDict lang :: rest =>
      l <- normalize_lang lang ;;
      r <- normalize_langs rest ;;
      Ok (l :: r)
  | JStr lang :: rest =>
      r <- normalize_langs rest ;;
      Ok (JDict [("name", JStr lang); ("level", JStr "Proficient");
                 ("percent", JInt 70)] :: r)
  | _ :: rest => normalize_langs rest
  end.

(** [[{"category": k, "items": (v if isinstance(v, list) else [str(v)])}]
    [ for k, v in skills.items()]] *)
Definition skills_of_dict (skills : dict json) : list json :=
  map (fun kv =>
         let '(k, v) := kv in
         JDict [("category", JStr k);
                ("items", match v with
                          | JList _ => v
                          | _ => JList [JStr (py_str v)]
                          end)])
      skills.

Definition normalize_skill (skill : json) : list json :=
  match skill with
  | JDict d =>
      let items := str_list (dict_get_default d "items" (JList [])) in
      [JDict [("category",
               JStr (py_str (dict_get_default d "category" (JStr "Skills"))));
              ("items", JList items)]]
  | JStr s => [JDict [("category", JStr "Skills"); ("items", JList [skill])]]
  | _ => []
  end.

Definition normalize_job (job : json) : list json :=
  match job with
  | JDict d =>
      let d := dict_setdefault d "title" (JStr "") in
      let d := dict_setdefault d "company" (JStr "") in
      let d := dict_setdefault d "date" (JStr "") in
      let d := dict_setdefault d "location" (JStr "") in
      let bullets := str_list (dict_get_default d "bullets" (JList [])) in
      [JDict (dict_set d "bullets" (JList bullets))]
  | _ => []
  end.

Definition normalize_edu (item : json) : list json :=
  match item with
  | JDict d =>
      let d := dict_setdefault d "degree" (JStr "") in
      let d := dict_setdefault d "school" (JStr "") in
      let d := dict_setdefault d "year" (JStr "") in
      let d := dict_setdefault d "details" (JStr "") in
      let d := dict_setdefault d "in_progress" (JBool false) in
      [JDict d]
  | _ => []
  end.

(** The blocks of the function body, in the order of the source; each
    takes the dictionary [data] as the block before left it. *)

(* Name & Title *)
Definition set_name_title (data : dict json) : dict json :=
  let data := dict_setdefault data "name" (JStr "Candidate") in
  let data := dict_setdefault data "title" (JStr "Professional") in
  dict_setdefault data "summary" (JStr "").

(* Contact *)
Definition set_contact (data : dict json) : dict json :=
  let contact := as_dict (dict_get_default data "contact" (JDict [])) in
  let contact := dict_setdefault contact "email" (JStr "") in
  let contact := dict_setdefault contact "phone" (JStr "") in
  let contact := dict_setdefault contact "location" (JStr "") in
  let contact := dict_setdefault contact "age" (JStr "") in
  dict_set data "contact" (JDict contact).

(* Languages *)
Definition set_languages (data : dict json) : result (dict json) :=
  let langs := as_list (dict_get_default data "languages" (JList [])) in
  normalized_langs <- normalize_langs langs ;;
  Ok (dict_set data "languages" (JList normalized_langs)).

(* Certifications *)
Definition set_certifications (data : dict json) : dict json :=
  let certs := dict_get_default data "certifications" (JList []) in
  dict_set data "certifications" (JList (str_list certs)).

(* Skills *)
Definition set_skills (data : dict json) : dict json :=
  let skills := dict_get_default data "skills" (JList []) in
  let skills :=
    match skills with
    | JList l => l
    | JDict d => skills_of_dict d
    | _ => []
    end in
  dict_set data "skills" (JList (flat_map normalize_skill skills)).

(* Experience *)
Definition set_experience (data : dict json) : dict json :=
  let exp := as_list (dict_get_default data "experience" (JList [])) in
  dict_set data "experience" (JList (flat_map normalize_job exp)).

(* Education *)
Definition set_education (data : dict json) : dict json :=
  let edu := as_list (dict_get_default data "education" (JList [])) in
  dict_set data "education" (JList (flat_map normalize_edu edu)).

(* Interests *)
Definition set_interests (data : dict json) : dict json :=
  let interests := dict_get_default data "interests" (JList []) in
  dict_set data "interests" (JList (str_list interests)).

(* Additional info *)
Definition set_additional_info (data : dict json) : dict json :=
  let extra := dict_get_default data "additional_info" (JList []) in
  dict_set data "additional_info" (JList (str_list extra)).

Definition normalize_resume_data (data : json) : result json :=
  let data := as_dict data in          (* [if not isinstance(data, dict)] *)
  let data := set_name_title data in
  let data := set_contact data in
  data <- set_languages data ;;
  let data := set_certifications data in
  let data := set_skills data in
  let data := set_experience data in
  let data := set_education data in
  let data := set_interests data in
  let data := set_additional_info data in
  Ok (JDict data).

(* ================================================================== *)
(** ** A backtracking matcher for the patterns of [app.py] *)

(** The constructs the three patterns use.  Alternatives are tried in the
    order of the [re] module: a greedy operator takes its operand first, a
    lazy one skips it first. *)
Inductive regex : Type :=
| RChar (c : ascii)            (* a literal character *)
| RSet (p : ascii -> bool)     (* a class; [.] under [re.DOTALL] *)
| RSeq (r1 r2 : regex)
| ROpt (r : regex)             (* [r?] *)
| RStar (r : regex)            (* [r*] *)
| RLazyStar (r : regex)        (* [r*?] *)
| RGroup (r : regex).          (* the capturing group 1 *)

Definition or_else {A} (a b : option A) : option A :=
  match a with
  | Some _ => a
  | None => b
  end.

(** The first [n] characters of [s]. *)
Definition prefix_of (s : string) (n : nat) : string := substring 0 n s.

(** [rmatch r s cap k] matches [r] at the start of [s] and hands the rest
    of the input and group 1 to [k]; when [k] fails the next alternative
    is tried. *)
Fixpoint rmatch {R} (r : regex) (s : string) (cap : option string)
         (k : string -> option string -> option R) {struct r} : option R :=
  match r with
  | RChar c =>
      match s with
      | String c' s' => if Ascii.eqb c c' then k s' cap else None
      | EmptyString => None
      end
  | RSet p =>
      match s with
      | String c' s' => if p c' then k s' cap else None
      | EmptyString => None
      end
  | RSeq r1 r2 => rmatch r1 s cap (fun s' cap' => rmatch r2 s' cap' k)
  | ROpt r' => or_else (rmatch r' s cap k) (k s cap)
  | RStar r' =>
      (fix loop (n : nat) (s : string) (cap : option string) : option R :=
         match n with
         | O => k s cap
         | S n' =>
             or_else
               (rmatch r' s cap
                  (fun s' cap' =>
                     if (String.length s' <? String.length s)%nat
                     then loop n' s' cap' else None))
               (k s cap)
         end) (String.length s) s cap
  | RLazyStar r' =>
      (fix loop (n : nat) (s : string) (cap : option string) : option R :=
         match n with
         | O => k s cap
         | S n' =>
             or_else
               (k s cap)
               (rmatch r' s cap
                  (fun s' cap' =>
                     if (String.length s' <? String.length s)%nat
                     then loop n' s' cap' else None))
         end) (String.length s) s cap
  | RGroup r' =>
      rmatch r' s cap
        (fun s' _ =>
           k s' (Some (prefix_of s (String.length s - String.length s'))))
  end.

Record rmatch_result : Type := {
  group0 : string;           (* [m.group(0)] *)
  group1 : option string;    (* [m.group(1)] *)
  after : string             (* the input after the match *)
}.

(** A match that starts at the first character of [s]. *)
Definition match_here (r : regex) (s : string) : option rmatch_result :=
  rmatch r s None
    (fun s' cap =>
       Some {| group0 := prefix_of s (String.length s - String.length s');
               group1 := cap;
               after := s' |}).

(** [re.search(r, s)]: the match at the leftmost position that has one. *)
Fixpoint re_search (r : regex) (s : string) : option rmatch_result :=
  match match_here r s with
  | Some m => Some m
  | None =>
      match s with
      | EmptyString => None
      | String _ s' => re_search r s'
      end
  end.

(** [re.sub(r, r"\1", s)] for a pattern that matches no empty string: the
    matches are replaced from left to right, each by its group 1. *)
Fixpoint re_sub_group1 (fuel : nat) (r : regex) (s : string) : string :=
  match fuel with
  | O => s
  | S fuel' =>
      match s with
      | EmptyString => EmptyString
      | String c s' =>
          match match_here r s with
          | Some m =>
              if (String.length (after m) <? String.length s)%nat then
                (match group1 m with Some g => g | None => "" end
                 ++ re_sub_group1 fuel' r (after m))%string
              else String c (re_sub_group1 fuel' r s')
          | None => String c (re_sub_group1 fuel' r s')
          end
      end
  end.

Fixpoint RLit (s : string) : regex :=
  match s with
  | EmptyString => ROpt (RSet (fun _ => false))
  | String c EmptyString => RChar c
  | String c s' => RSeq (RChar c) (RLit s')
  end.

Definition nl_char : ascii := chr 10.
Definition nl : string := String nl_char "".

Definition any_char : regex := RSet (fun _ => true).

(** [r"```(?:json)?\s*\n?(.*?)\n?```"] with [re.DOTALL] *)
Definition fence_re : regex :=
  RSeq (RLit "```")
    (RSeq (ROpt (RLit "json"))
       (RSeq (RStar (RSet is_space))
          (RSeq (ROpt (RChar nl_char))
             (RSeq (RGroup (RLazyStar any_char))
                (RSeq (ROpt (RChar nl_char)) (RLit "```")))))).

(** [r"\{.*\}"] with [re.DOTALL] *)
Definition brace_re : regex :=
  RSeq (RChar "{") (RSeq (RStar any_char) (RChar "}")).

(** [r",\s*([}\]])"] *)
Definition comma_re : regex :=
  RSeq (RChar ",")
    (RSeq (RStar (RSet is_space))
       (RGroup (RSet (fun c => Ascii.eqb c "}" || Ascii.eqb c "]")))).

(* ================================================================== *)
(** ** [json.loads] *)

Definition is_json_ws (c : ascii) : bool :=
  (code c =? 32) || (code c =? 9) || (code c =? 10) || (code c =? 13).

Fixpoint skip_ws (s : string) : string :=
  match s with
  | String c s' => if is_json_ws c then skip_ws s' else s
  | EmptyString => s
  end.

Fixpoint strip_prefix (p s : string) : option string :=
  match p, s with
  | EmptyString, _ => Some s
  | String a p', String b s' => if Ascii.eqb a b then strip_prefix p' s' else None
  | String _ _, EmptyString => None
  end.

Definition hex_value (c : ascii) : option Z :=
  if is_digit c then Some (code c - 48)
  else if in_range 97 102 c then Some (code c - 87)
  else if in_range 65 70 c then Some (code c - 55)
  else None.

(** The code point of a [\u] escape with the four hex digits [a b c d]. *)
Definition hex4 (a b c d : ascii) : option Z :=
  match hex_value a, hex_value b, hex_value c, hex_value d with
  | Some x, Some y, Some z, Some w => Some (((x * 16 + y) * 16 + z) * 16 + w)
  | _, _, _, _ => None
  end.

(** What the scanner makes of the start of a text: a value and the text
    after it; no JSON there ([json.JSONDecodeError]); another exception,
    which ends the scan; or a text that this embedding does not follow. *)
Inductive scan (A : Type) : Type :=
| Read (a : A) (rest : string)
| Malformed
| Stopped (e : exn)
| Unread.

Arguments Read {A} a rest.
Arguments Malformed {A}.
Arguments Stopped {A} e.
Arguments Unread {A}.

Definition scan_map {A B} (f : A -> B) (r : scan A) : scan B :=
  match r with
  | Read a rest => Read (f a) rest
  | Malformed => Malformed
  | Stopped e => Stopped e
  | Unread => Unread
  end.

(** The second scan where the first found no JSON. *)
Definition or_scan {A} (a b : scan A) : scan A :=
  match a with
  | Malformed => b
  | _ => a
  end.

(** A character in front of a scanned string.  The flag beside the
    string says that it has a code point above 255, which has no
    character in this embedding: a mark stands in for it. *)
Definition with_char (ch : ascii) (r : string * bool) : string * bool :=
  (String ch (fst r), snd r).

Definition with_wide (r : string * bool) : string * bool :=
  (String "?" (fst r), true).

(** The characters of a string literal after its opening quote, up to
    the closing one ([strict=True]: no raw control character). *)
Fixpoint parse_string (s : string) : scan (string * bool) :=
  match s with
  | EmptyString => Malformed
  | String c s' =>
      if Ascii.eqb c dquote then Read ("", false) s'
      else if code c <? 32 then Malformed
      else if Ascii.eqb c "\" then
        match s' with
        | String e s'' =>
            let simple (ch : ascii) :=
              scan_map (with_char ch) (parse_string s'') in
            if Ascii.eqb e dquote then simple dquote
            else if Ascii.eqb e "\" then simple "\"%char
            else if Ascii.eqb e "/" then simple "/"%char
            else if Ascii.eqb e "b" then simple (chr 8)
            else if Ascii.eqb e "f" then simple (chr 12)
            else if Ascii.eqb e "n" then simple (chr 10)
            else if Ascii.eqb e "r" then simple (chr 13)
            else if Ascii.eqb e "t" then simple (chr 9)
            else if Ascii.eqb e "u" then
              match s'' with
              | String a (String b (String c0 (String d rest))) =>
                  match hex4 a b c0 d with
                  | Some n =>
                      scan_map
                        (if n <? 256 then with_char (chr n) else with_wide)
                        (parse_string rest)
                  | None => Malformed
                  end
              | _ => Malformed
              end
            else Malformed
        | EmptyString => Malformed
        end
      else scan_map (with_char c) (parse_string s')
  end.

(** A run of digits: its value, its length, and the rest. *)
Fixpoint read_digits (acc : Z) (n : Z) (s : string) : Z * Z * string :=
  match s with
  | String c s' =>
      if is_digit c then read_digits (10 * acc + (code c - 48)) (n + 1) s'
      else (acc, n, s)
  | EmptyString => (acc, n, s)
  end.

(** A number: an optional minus, an integer part without a leading zero,
    an optional fraction, an optional exponent.  It is an [int] when it
    has neither fraction nor exponent, and [int] refuses more than 4300
    digits with a [ValueError]; else it is the [float] it reads as. *)
Definition parse_number (s : string) : scan (json * bool) :=
  let '(neg, s1) :=
    match s with
    | String "-" s' => (true, s')
    | _ => (false, s)
    end in
  match s1 with
  | String c _ =>
      if is_digit c then
        let '(ip, il, s2) :=
          if Ascii.eqb c "0" then (0, 1, match s1 with String _ r => r | _ => s1 end)
          else read_digits 0 0 s1 in
        let '(fr, fl, s3, has_frac) :=
          match s2 with
          | String "." (String d _ as r) =>
              if is_digit d then
                let '(v, n, r') := read_digits 0 0 r in (v, n, r', true)
              else (0, 0, s2, false)
          | _ => (0, 0, s2, false)
          end in
        let exp_at (eneg : bool) (r : string) :=
          match r with
          | String d _ =>
              if is_digit d then
                let '(v, _, r') := read_digits 0 0 r in
                Some (apply_sign eneg v, r')
              else None
          | EmptyString => None
          end in
        let ex :=
          match s3 with
          | String e r =>
              if Ascii.eqb e "e" || Ascii.eqb e "E" then
                match r with
                | String "-" r' => exp_at true r'
                | String "+" r' => exp_at false r'
                | _ => exp_at false r
                end
              else None
          | EmptyString => None
          end in
        match has_frac, ex with
        | false, None =>
            if int_max_str_digits <? il then Stopped ValueError
            else Read (JInt (apply_sign neg ip), false) s3
        | _, _ =>
            let '(e10, s4) :=
              match ex with
              | Some (e, r) => (e, r)
              | None => (0, s3)
              end in
            let f := float_of_decimal (ip * 10 ^ fl + fr) (e10 - fl) in
            Read (JFloat (if neg then SFopp f else f), false) s4
        end
      else Malformed
  | EmptyString => Malformed
  end.

Definition literal (p : string) (v : json) (s : string) : scan (json * bool) :=
  match strip_prefix p s with
  | Some rest => Read (v, false) rest
  | None => Malformed
  end.

(** One value at the start of [s], with the flag of its strings.
    [depth] is the number of arrays and objects, one inside the other,
    that may still be entered: entering one more raises
    [RecursionError].  [parse_elements] and [parse_members] read the rest
    of an array and of an object, after the first item has been announced
    by a non-closing character. *)
Fixpoint parse_value (fuel depth : nat) (s : string) : scan (json * bool) :=
  match fuel with
  | O => Unread
  | S fuel' =>
      match s with
      | EmptyString => Malformed
      | String c s' =>
          if Ascii.eqb c dquote then
            scan_map (fun r => (JStr (fst r), snd r)) (parse_string s')
          else if Ascii.eqb c "{" then
            match depth with
            | O => Stopped RecursionError
            | S depth' =>
                match skip_ws s' with
                | String "}" rest => Read (JDict [], false) rest
                | s'' => parse_members fuel' depth' [] false s''
                end
            end
          else if Ascii.eqb c "[" then
            match depth with
            | O => Stopped RecursionError
            | S depth' =>
                match skip_ws s' with
                | String "]" rest => Read (JList [], false) rest
                | s'' => parse_elements fuel' depth' [] false s''
                end
            end
          else
            or_scan (literal "null" JNull s)
           (or_scan (literal "true" (JBool true) s)
           (or_scan (literal "false" (JBool false) s)
           (or_scan (parse_number s)
           (or_scan (literal "NaN" (JFloat S754_nan) s)
           (or_scan (literal "Infinity" (JFloat (S754_infinity false)) s)
                    (literal "-Infinity" (JFloat (S754_infinity true)) s))))))
      end
  end

with parse_elements (fuel depth : nat) (acc : list json) (wide : bool)
                    (s : string) : scan (json * bool) :=
  match fuel with
  | O => Unread
  | S fuel' =>
      match parse_value fuel' depth s with
      | Read (v, w) rest =>
          match skip_ws rest with
          | String "," rest' =>
              parse_elements fuel' depth (acc ++ [v]) (wide || w) (skip_ws rest')
          | String "]" rest' => Read (JList (acc ++ [v]), wide || w) rest'
          | _ => Malformed
          end
      | Malformed => Malformed
      | Stopped e => Stopped e
      | Unread => Unread
      end
  end

with parse_members (fuel depth : nat) (acc : dict json) (wide : bool)
                   (s : string) : scan (json * bool) :=
  match fuel with
  | O => Unread
  | S fuel' =>
      match s with
      | String c s' =>
          if Ascii.eqb c dquote then
            match parse_string s' with
            | Read (key, wk) rest =>
                match skip_ws rest with
                | String ":" rest' =>
                    match parse_value fuel' depth (skip_ws rest') with
                    | Read (v, w) rest'' =>
                        match skip_ws rest'' with
                        | String "," r =>
                            parse_members fuel' depth (dict_set acc key v)
                              (wide || wk || w) (skip_ws r)
                        | String "}" r =>
                            Read (JDict (dict_set acc key v), wide || wk || w) r
                        | _ => Malformed
                        end
                    | Malformed => Malformed
                    | Stopped e => Stopped e
                    | Unread => Unread
                    end
                | _ => Malformed
                end
            | Malformed => Malformed
            | Stopped e => Stopped e
            | Unread => Unread
            end
          else Malformed
      | EmptyString => Malformed
      end
  end.

(** The whole text as one value, with white space around it, when
    [depth] arrays and objects may be entered.  A value with a code
    point above 255 is no value of this embedding: the text is [Unread]. *)
Definition scan_text (depth : nat) (s : string) : scan json :=
  match parse_value (2 * String.length s + 2) depth (skip_ws s) with
  | Read (v, wide) rest =>
      match skip_ws rest with
      | EmptyString => if wide then Unread else Read v ""
      | _ => Malformed
      end
  | Malformed => Malformed
  | Stopped e => Stopped e
  | Unread => Unread
  end.

(** What a call of [json.loads] comes to: a value, the
    [json.JSONDecodeError] that the repair step catches, or another
    exception ([RecursionError], [ValueError]). *)
Inductive loaded : Type :=
| Decoded (v : json)
| JSONDecodeError
| LoadsError (e : exn).

(** [json.loads(s)], as CPython 3.11 and later decode with their default
    settings.  How deep a text may nest depends on the stack of
    the interpreter at the call: it has room for [room] arrays and
    objects, one inside the other, whatever the decoder does among them,
    and it raises [RecursionError] on entering one more than
    [room + slack].  A text whose scan ends between the two is not
    followed, since the report of an error may itself run out of stack
    there; such a text, and one whose value has a code point above 255,
    has no result here ([None]). *)
Definition json_loads (room slack : nat) (s : string) : option loaded :=
  match scan_text (room + slack) s with
  | Stopped RecursionError => Some (LoadsError RecursionError)
  | _ =>
      match scan_text room s with
      | Read v _ => Some (Decoded v)
      | Malformed => Some JSONDecodeError
      | Stopped RecursionError => None
      | Stopped e => Some (LoadsError e)
      | Unread => None
      end
  end.

(* ================================================================== *)
(** ** The JSON repair step ([app.py], [parse_llm_response]) *)

Section Repair.
(** [json.loads]: what it makes of a text, [None] for a text that the
    embedding does not follow.  The order of the attempts does not
    depend on it. *)
Variable loads : string -> option loaded.

(** The four attempts, each on the stripped text: what [json.loads]
    makes of the text that the attempt hands to it.  An attempt whose
    pattern is not found is passed over, as after a decode error. *)
Definition try_direct (text : string) : option loaded := loads text.

Definition try_fence (text : string) : option loaded :=
  match re_search fence_re text with
  | Some json_match =>
      loads (strip (match group1 json_match with Some g => g | None => "" end))
  | None => Some JSONDecodeError
  end.

Definition try_brace (text : string) : option loaded :=
  match re_search brace_re text with
  | Some brace_match => loads (group0 brace_match)
  | None => Some JSONDecodeError
  end.

Definition try_commas (text : string) : option loaded :=
  let cleaned := re_sub_group1 (String.length text) comma_re text in
  loads cleaned.

(** [try: return <attempt>] [except json.JSONDecodeError: pass], then
    the rest of the function: only the decode error is caught. *)
Definition or_next (attempt : option loaded) (rest : option (result json))
  : option (result json) :=
  match attempt with
  | Some (Decoded v) => Some (Ok v)
  | Some JSONDecodeError => rest
  | Some (LoadsError e) => Some (Raise e)
  | None => None
  end.

Definition parse_llm_response_with (response_text : string)
  : option (result json) :=
  let text := strip response_text in
  or_next (try_direct text)
    (or_next (try_fence text)
       (or_next (try_brace text)
          (or_next (try_commas text)
             (Some (Raise ParseFailure))))).
End Repair.

Definition parse_llm_response (room slack : nat)
  : string -> option (result json) :=
  parse_llm_response_with (json_loads room slack).

(* ================================================================== *)
(** ** The column-aware extractor ([app.py], [extract_text_from_pdf]) *)

(** A word of [page.extract_words(...)]. *)
Record word : Type := {
  w_text : string;
  w_x0 : float;
  w_top : float
}.

(** What the loop reads of a page: its width, its words, and the text of
    [page.extract_text()]. *)
Record page : Type := {
  p_width : float;
  p_words : list word;
  p_plain : option string
}.

(** [round(top / 5) * 5] *)
Definition band (top : float) : result Z :=
  q <- float_div top (float_lit 5) ;;
  r <- py_round q ;;
  Ok (r * 5).

(** [<] on the key tuples [(band, x0)]. *)
Definition key_lt (a b : Z * float) : bool :=
  if fst a =? fst b then
    if float_eq (snd a) (snd b) then false else float_lt (snd a) (snd b)
  else fst a <? fst b.

Fixpoint insert_by_key (x : (Z * float) * word) (l : list ((Z * float) * word))
  : list ((Z * float) * word) :=
  match l with
  | [] => [x]
  | y :: l' => if key_lt (fst y) (fst x) then y :: insert_by_key x l' else x :: l
  end.

(** A word with its key, [(round(x["top"] / 5) * 5, x["x0"])]. *)
Definition keyed_word (x : word) : result ((Z * float) * word) :=
  b <- band (w_top x) ;; Ok ((b, w_x0 x), x).

(** [sorted(ws, key=...)]: the keys are computed first, then the words
    are sorted stably. *)
Definition sorted_words (ws : list word) : result (list word) :=
  keyed <- mapM keyed_word ws ;;
  Ok (map snd (fold_right insert_by_key [] keyed)).

Record line_state : Type := {
  lines : list string;
  current_y : option Z;
  current_line : list string
}.

Definition line_step (st : line_state) (w_item : word) : result line_state :=
  y <- band (w_top w_item) ;;
  let st :=
    match current_y st with
    | Some cy =>
        if negb (y =? cy) then
          {| lines := lines st ++ [join " " (current_line st)];
             current_y := current_y st;
             current_line := [] |}
        else st
    | None => st
    end in
  Ok {| lines := lines st;
        current_y := Some y;
        current_line := current_line st ++ [w_text w_item] |}.

Fixpoint fold_result {A B} (f : A -> B -> result A) (l : list B) (a : A)
  : result A :=
  match l with
  | [] => Ok a
  | b :: l' => a' <- f a b ;; fold_result f l' a'
  end.

Definition words_to_text (word_list : list word) : result string :=
  match word_list with
  | [] => Ok ""
  | _ =>
      st <- fold_result line_step word_list
              {| lines := []; current_y := None; current_line := [] |} ;;
      let lines :=
        match current_line st with
        | [] => lines st
        | _ => lines st ++ [join " " (current_line st)]
        end in
      Ok (join nl lines)
  end.

Definition nonempty (s : string) : bool := negb (String.eqb s "").

Definition sidebar_marker : string := "=== SIDEBAR ===" ++ nl.
Definition main_marker : string := "=== MAIN CONTENT ===" ++ nl.

(** One iteration of the loop over the pages: what it appends to
    [all_text], if anything. *)
Definition extract_page (p : page) : result (option string) :=
  match p_words p with
  | [] =>
      match p_plain p with
      | Some text => Ok (if nonempty text then Some text else None)
      | None => Ok None
      end
  | words =>
      let mid := float_mul (p_width p) (float_ratio_lit 35 100) in
      left_words <- sorted_words (filter (fun x => float_lt (w_x0 x) mid) words) ;;
      right_words <- sorted_words (filter (fun x => float_ge (w_x0 x) mid) words) ;;
      left_text <- words_to_text left_words ;;
      right_text <- words_to_text right_words ;;
      let combined := "" in
      let combined :=
        if nonempty (strip left_text)
        then (combined ++ sidebar_marker ++ left_text ++ nl ++ nl)%string
        else combined in
      let combined :=
        if nonempty (strip right_text)
        then (combined ++ main_marker ++ right_text)%string
        else combined in
      Ok (Some combined)
  end.

Fixpoint cat_options {A} (l : list (option A)) : list A :=
  match l with
  | [] => []
  | Some a :: l' => a :: cat_options l'
  | None :: l' => cat_options l'
  end.

(** The document is given by its pages. *)
Definition extract_text_from_pdf (pages : list page) : result string :=
  all_text <- mapM extract_page pages ;;
  Ok (join (nl ++ nl) (cat_options all_text)).

(* ================================================================== *)
(** ** The routes ([app.py], [generate] and [generate_jobkit]) *)

(** *** The input checks of [generate] and [generate_jobkit]

    Both routes start with the same checks of the uploaded file and of the
    job description, and store the upload under a name made of the time
    stamp and of the cleaned file name. [files] maps a field of
    [request.files] to the file name of its upload, [form] is
    [request.form]. *)

(** [s.endswith(suffix)]: some tail of [s] is [suffix]. *)
Fixpoint endswith (s suffix : string) : bool :=
  String.eqb s suffix ||
  match s with
  | EmptyString => false
  | String _ s' => endswith s' suffix
  end.

(** The characters of the class [a-zA-Z0-9_.-]. *)
Definition is_safe_char (c : ascii) : bool :=
  is_lower_az c || in_range 65 90 c || is_digit c
  || (code c =? 95) || (code c =? 46) || (code c =? 45).

Definition safe_char (c : ascii) : ascii :=
  if is_safe_char c then c else "_"%char.

(** [re.sub(r"[^a-zA-Z0-9_.-]", "_", filename)] *)
Definition safe_name (filename : string) : string := str_map safe_char filename.

Inductive checked : Type :=
| Rejected (status : Z) (error : string)
| Accepted (upload_name job_description : string).

Definition check_upload (files form : dict string) (timestamp : Z) : checked :=
  match dict_get files "pdf" with
  | None => Rejected 400 "No PDF file uploaded"
  | Some filename =>
      let job_description :=
        strip (dict_get_default form "job_description" "") in
      if String.eqb filename "" then Rejected 400 "No file selected"
      else if negb (endswith (lower filename) ".pdf")
      then Rejected 400 "File must be a PDF"
      else if negb (nonempty job_description)
      then Rejected 400 "Job description is required"
      else Accepted (string_of_Z timestamp ++ "_" ++ safe_name filename)%string
                    job_description
  end.

(** *** The sections of the unified reply ([generate_jobkit])

    The parsed reply is split into its three sections by [dict.get], and the
    resume section is normalised; a reply that is not an object has no
    [get] (an [AttributeError], which the route reports like any other
    failure). *)

Inductive jobkit : Type :=
| NotAnObject
| Failed (e : exn)
| Sections (resume_data cover_letter_data gap_analysis_data : json).

Definition jobkit_sections (full_data : json) : jobkit :=
  match full_data with
  | JDict d =>
      let resume_data := dict_get_default d "resume" full_data in
      let cover_letter_data := dict_get_default d "cover_letter" (JDict []) in
      let gap_analysis_data := dict_get_default d "gap_analysis" (JDict []) in
      match normalize_resume_data resume_data with
      | Ok resume_data => Sections resume_data cover_letter_data gap_analysis_data
      | Raise e => Failed e
      end
  | _ => NotAnObject
  end.

(* ================================================================== *)
(** ** Notions used in the statements *)

Unset Implicit Arguments.

(** *** Writing inputs *)

(** A text with each single quote read as a double quote, and one with
    each bar read as a line feed. *)
Definition dq (s : string) : string :=
  str_map (fun c => if Ascii.eqb c squote then dquote else c) s.

Definition with_newlines (s : string) : string :=
  str_map (fun c => if Ascii.eqb c "|" then nl_char else c) s.

Fixpoint repeat_str (s : string) (n : nat) : string :=
  match n with
  | O => ""
  | S n' => (s ++ repeat_str s n')%string
  end.

(** A word at integer coordinates, and one whose [x0] is any float. *)
Definition tok (t : string) (x0 top : Z) : word :=
  {| w_text := t; w_x0 := float_lit x0; w_top := float_lit top |}.

Definition word_at (t : string) (x0 : float) (top : Z) : word :=
  {| w_text := t; w_x0 := x0; w_top := float_lit top |}.

(** *** Floats *)

(** A float that is [+0.0] or positive, of magnitude below [2 ^ B]. *)
Definition small_nonneg (B : Z) (f : float) : Prop :=
  match f with
  | S754_zero s => s = false
  | S754_finite s m e => s = false /\ Z.pos (digits2_pos m) + e <= B /\ e <= 971
  | _ => False
  end.

(** *** The scorer *)

Definition positive_counts (freq : dict Z) : Prop :=
  Forall (fun kv => 1 <= snd kv) freq.

(** The order of a ranking: the count does not grow. *)
Definition by_count_desc (a b : string * Z) : Prop := snd b <= snd a.

Definition has_count (n : Z) (kv : string * Z) : bool := snd kv =? n.

(** The keyword of the pair is one of the resume. *)
Definition in_cv (cvk : dict Z) (kv : string * Z) : bool := dict_mem cvk (fst kv).

Definition sum_counts (l : list (string * Z)) : Z :=
  fold_right (fun kv acc => snd kv + acc) 0 l.

(** The words of a list in the order of their first occurrence. *)
Definition first_occurrences (ws : list string) : list string :=
  fold_left (fun acc w => if str_in w acc then acc else acc ++ [w]) ws [].

(** The bonus of the last step of the scorer. *)
Definition boosted (z : Z) : Z := if 0 <? z then Z.min 100 (z + 10) else z.

(** The score as the specification words it: the floor of
    [100 * score / total_weight], then the bonus. *)
Definition spec_final_score (score total_weight : Z) : Z :=
  let final_score :=
    if 0 <? total_weight then 100 * score / total_weight else 0 in
  if 0 <? final_score then Z.min 100 (final_score + 10) else final_score.

(** *** The normaliser *)

Definition is_str (j : json) : bool := match j with JStr _ => true | _ => false end.

Definition is_int (j : json) : bool := match j with JInt _ => true | _ => false end.

Definition is_bool (j : json) : bool := match j with JBool _ => true | _ => false end.

Definition is_percent (j : json) : bool :=
  match j with JInt z => (0 <=? z) && (z <=? 100) | _ => false end.

Definition any_value (j : json) : bool := true.

(** The field [k] of [d] is there and satisfies [p]. *)
Definition field_is (p : json -> bool) (d : dict json) (k : string) : bool :=
  match dict_get d k with
  | Some v => p v
  | None => false
  end.

Definition list_of (p : json -> bool) (j : json) : bool :=
  match j with JList l => forallb p l | _ => false end.

Definition object_with (p : dict json -> bool) (j : json) : bool :=
  match j with JDict d => p d | _ => false end.

(** The Resume Record as section 3 of the specification declares it. *)
Definition is_resume_record : json -> bool :=
  object_with (fun d =>
    field_is is_str d "name" && field_is is_str d "title"
    && field_is is_str d "summary"
    && field_is (object_with (fun c =>
         field_is is_str c "email" && field_is is_str c "phone"
         && field_is is_str c "location" && field_is is_str c "age")) d "contact"
    && field_is (list_of (object_with (fun l =>
         field_is is_str l "name" && field_is is_str l "level"
         && field_is is_percent l "percent"))) d "languages"
    && field_is (list_of is_str) d "certifications"
    && field_is (list_of (object_with (fun s =>
         field_is is_str s "category"
         && field_is (list_of is_str) s "items"))) d "skills"
    && field_is (list_of (object_with (fun j =>
         field_is is_str j "title" && field_is is_str j "company"
         && field_is is_str j "date" && field_is is_str j "location"
         && field_is (list_of is_str) j "bullets"))) d "experience"
    && field_is (list_of (object_with (fun e =>
         field_is is_str e "degree" && field_is is_str e "school"
         && field_is is_str e "year" && field_is is_str e "details"
         && field_is is_bool e "in_progress"))) d "education"
    && field_is (list_of is_str) d "interests"
    && field_is (list_of is_str) d "additional_info").

(** What the normaliser establishes: a field it only defaults is there,
    with whatever value the input gave it; a field it rebuilds has its
    type; a skill group is exactly a category and its items. *)
Definition repaired_lang : json -> bool :=
  object_with (fun l =>
    field_is any_value l "name" && field_is any_value l "level"
    && field_is is_int l "percent").

Definition repaired_skill (j : json) : bool :=
  match j with
  | JDict [(c, JStr _); (i, JList items)] =>
      String.eqb c "category" && String.eqb i "items" && forallb is_str items
  | _ => false
  end.

Definition repaired_job : json -> bool :=
  object_with (fun j =>
    field_is any_value j "title" && field_is any_value j "company"
    && field_is any_value j "date" && field_is any_value j "location"
    && field_is (list_of is_str) j "bullets").

Definition repaired_edu : json -> bool :=
  object_with (fun e =>
    field_is any_value e "degree" && field_is any_value e "school"
    && field_is any_value e "year" && field_is any_value e "details"
    && field_is any_value e "in_progress").

Definition repaired_contact : json -> bool :=
  object_with (fun c =>
    field_is any_value c "email" && field_is any_value c "phone"
    && field_is any_value c "location" && field_is any_value c "age").

Definition is_repaired_record : json -> bool :=
  object_with (fun d =>
    field_is any_value d "name" && field_is any_value d "title"
    && field_is any_value d "summary"
    && field_is repaired_contact d "contact"
    && field_is (list_of repaired_lang) d "languages"
    && field_is (list_of is_str) d "certifications"
    && field_is (list_of repaired_skill) d "skills"
    && field_is (list_of repaired_job) d "experience"
    && field_is (list_of repaired_edu) d "education"
    && field_is (list_of is_str) d "interests"
    && field_is (list_of is_str) d "additional_info").

(** A field that the normaliser only defaults: [out] has, at each key
    of [defaults], the value that [input] has there, of whatever type,
    and the default where [input] has none. *)
Definition defaulted (defaults : list (string * json)) (input out : dict json)
  : Prop :=
  forall k dflt, In (k, dflt) defaults ->
                 dict_get out k = Some (dict_get_default input k dflt).

Definition record_defaults : list (string * json) :=
  [("name", JStr "Candidate"); ("title", JStr "Professional");
   ("summary", JStr "")].

Definition contact_defaults : list (string * json) :=
  [("email", JStr ""); ("phone", JStr ""); ("location", JStr "");
   ("age", JStr "")].

Definition lang_defaults : list (string * json) :=
  [("name", JStr "Unknown"); ("level", JStr "Basic")].

Definition job_defaults : list (string * json) :=
  [("title", JStr ""); ("company", JStr ""); ("date", JStr "");
   ("location", JStr "")].

Definition edu_defaults : list (string * json) :=
  [("degree", JStr ""); ("school", JStr ""); ("year", JStr "");
   ("details", JStr ""); ("in_progress", JBool false)].

(** An entry of the result beside the entry of the input it is made of,
    both objects. *)
Definition entry_defaulted (defaults : list (string * json)) (input out : json)
  : Prop :=
  match input, out with
  | JDict i, JDict o => defaulted defaults i o
  | _, _ => False
  end.

(** A language of the result beside the entry it is made of: an object
    with its fields defaulted, or a name. *)
Definition lang_made_of (input out : json) : Prop :=
  match input with
  | JDict _ => entry_defaulted lang_defaults input out
  | JStr name =>
      out = JDict [("name", JStr name); ("level", JStr "Proficient");
                   ("percent", JInt 70)]
  | _ => False
  end.

Definition is_object (j : json) : bool :=
  match j with JDict _ => true | _ => false end.

Definition is_object_or_str (j : json) : bool :=
  match j with JDict _ | JStr _ => true | _ => false end.

(** The object at the key [k] of [j], and the entries of the list there;
    none when there is no such object or list. *)
Definition object_at (j : json) (k : string) : dict json :=
  as_dict (dict_get_default (as_dict j) k (JDict [])).

Definition entries_at (j : json) (k : string) : list json :=
  as_list (dict_get_default (as_dict j) k (JList [])).

(** *** The repair step *)

(** The first attempt of a list that does not end in a decode error, and
    a decode error when all do. *)
Fixpoint first_decided (l : list (option loaded)) : option loaded :=
  match l with
  | [] => Some JSONDecodeError
  | Some JSONDecodeError :: l' => first_decided l'
  | a :: _ => a
  end.

(** What the repair step makes of the attempt that decides. *)
Definition outcome_of (a : option loaded) : option (result json) :=
  match a with
  | Some (Decoded v) => Some (Ok v)
  | Some JSONDecodeError => Some (Raise ParseFailure)
  | Some (LoadsError e) => Some (Raise e)
  | None => None
  end.

(** A reply that starts with an integer of 4301 digits, and one that
    opens [n] arrays; both go on with an object. *)
Definition long_int_reply : string :=
  (repeat_str "1" 4301 ++ " " ++ dq "{'a': 1}")%string.

Definition deep_reply (n : nat) : string :=
  (repeat_str "[" n ++ dq "{'a': 1}")%string.

(** *** The extractor *)

(** The column boundary of the page, [mid = w * 0.35]. *)
Definition mid_of (p : page) : float :=
  float_mul (p_width p) (float_ratio_lit 35 100).

(** A text with a character that is not white space. *)
Definition has_ink (s : string) : bool :=
  str_existsb (fun c => negb (is_space c)) s.

(** The band of the word is computed, no error raised. *)
Definition band_defined (w : word) : Prop := exists b, band (w_top w) = Ok b.

(** Some line of the state, finished or not, has ink. *)
Definition state_ink (st : line_state) : bool :=
  existsb has_ink (lines st) || existsb has_ink (current_line st).

(** *** The scorer, further *)

Definition is_keyword_char (c : ascii) : bool := is_lower_az c || is_digit c.

(** The number of occurrences of [w] in [ws]. *)
Definition occurrences (ws : list string) (w : string) : Z :=
  Z.of_nat (count_occ string_dec ws w).

(** The sum that the loop of the scorer leaves in [score]. *)
Definition matched_weight (cvk : dict Z) (l : list (string * Z)) : Z :=
  fold_right (fun kv acc =>
                match dict_get cvk (fst kv) with
                | Some count => Z.min count (snd kv) + acc
                | None => acc
                end) 0 l.

(** *** The normaliser, further *)

(** A language entry whose [percent] is an infinite float. *)
Definition inf_percent (lang : json) : bool :=
  match lang with
  | JDict d =>
      match dict_get d "percent" with
      | Some (JFloat (S754_infinity _)) => true
      | _ => false
      end
  | _ => false
  end.

(** The value of [data.get("languages", [])] when it is a list. *)
Definition languages_of (data : json) : list json :=
  as_list (dict_get_default (as_dict data) "languages" (JList [])).

(** The keys of the Resume Record, in the order the normaliser sets them. *)
Definition field_names : list string :=
  ["name"; "title"; "summary"; "contact"; "languages"; "certifications";
   "skills"; "experience"; "education"; "interests"; "additional_info"].

(** The record that the normaliser makes of an empty object. *)
Definition default_record : json :=
  JDict [("name", JStr "Candidate"); ("title", JStr "Professional");
         ("summary", JStr "");
         ("contact", JDict [("email", JStr ""); ("phone", JStr "");
                            ("location", JStr ""); ("age", JStr "")]);
         ("languages", JList []); ("certifications", JList []);
         ("skills", JList []); ("experience", JList []);
         ("education", JList []); ("interests", JList []);
         ("additional_info", JList [])].

(** The skill group made of one pair of a [skills] mapping. *)
Definition skill_group_of (kv : string * json) : json :=
  let '(k, v) := kv in
  JDict [("category", JStr k);
         ("items", JList (map (fun i => JStr (py_str i))
                            match v with
                            | JList l => l
                            | _ => [v]
                            end))].

(** The language entry made of a bare name. *)
Definition language_of_name (name : string) : json :=
  JDict [("name", JStr name); ("level", JStr "Proficient"); ("percent", JInt 70)].

Definition add_key (ks : list string) (k : string) : list string :=
  if str_in k ks then ks else ks ++ [k].

(** The fields that hold a list of plain texts. *)
Definition text_fields : list string :=
  ["certifications"; "interests"; "additional_info"].

(** The texts made of the value of such a field. *)
Definition texts_of (v : json) : list json :=
  match v with
  | JList l => map (fun i => JStr (py_str i)) l
  | _ => if truthy v then [JStr (py_str v)] else []
  end.

(** *** The repair step, further *)

(** No character of [s] is [c]. *)
Definition lacks (c : ascii) (s : string) : bool :=
  negb (str_existsb (Ascii.eqb c) s).

Definition backtick : ascii := "`"%char.

(** The continuation of [.*] in the brace pattern: the [}] that closes
    the span, then [k]. *)
Definition close_then (R : Type) (k : string -> option string -> option R)
  : string -> option string -> option R :=
  fun s' cap' => rmatch (RChar "}") s' cap' k.

Definition fence : string := "```".

(** The parts of [fence_re] after the opening fence and the tag. *)
Definition fence_tail_re : regex := RSeq (ROpt (RChar nl_char)) (RLit "```").
Definition fence_group_re : regex := RSeq (RGroup (RLazyStar any_char)) fence_tail_re.
Definition fence_body_re : regex :=
  RSeq (RStar (RSet is_space)) (RSeq (ROpt (RChar nl_char)) fence_group_re).

(** The characters [}] and []]. *)
Definition is_closer (c : ascii) : bool := Ascii.eqb c "}" || Ascii.eqb c "]".

(** [s] starts with white space, possibly none, followed by [}] or []]. *)
Fixpoint closes (s : string) : bool :=
  match s with
  | EmptyString => false
  | String c s' => is_closer c || (is_space c && closes s')
  end.

(** The text that the last attempt of the repair hands to [json.loads]. *)
Definition cleaned (text : string) : string :=
  re_sub_group1 (String.length text) comma_re text.

(** *** The extractor, further *)

(** The words with their bands, [(round(top / 5) * 5, text)]. *)
Definition banded_texts (ws : list word) : result (list (Z * string)) :=
  mapM (fun w => b <- band (w_top w) ;; Ok (b, w_text w)) ws.

(** The runs of equal bands: [cur] is the run being read, of band [cy]. *)
Fixpoint runs_from (cy : Z) (cur : list string) (l : list (Z * string))
  : list (list string) :=
  match l with
  | [] => [cur]
  | (y, t) :: rest =>
      if y =? cy then runs_from cy (cur ++ [t]) rest
      else cur :: runs_from y [t] rest
  end.

Definition band_runs (l : list (Z * string)) : list (list string) :=
  match l with
  | [] => []
  | (y, t) :: rest => runs_from y [t] rest
  end.

(** Each band differs from the next. *)
Fixpoint bands_change (l : list (Z * string)) : bool :=
  match l with
  | (y, _) :: (((y', _) :: _) as rest) => negb (y =? y') && bands_change rest
  | _ => true
  end.

(** A text without white space that is not empty. *)
Definition wordlike (s : string) : bool :=
  nonempty s && str_forallb (fun c => negb (is_space c)) s.

(** The lines of a state, the unfinished one included. *)
Definition flushed (st : line_state) : list string :=
  match current_line st with
  | [] => lines st
  | _ => lines st ++ [join " " (current_line st)]
  end.

(** The word that [str.split] has read so far, if any. *)
Definition flush_run (cur : list ascii) : list string :=
  match cur with
  | [] => []
  | _ => [rev_string cur]
  end.

(** The words of the page left of the boundary, and the others. *)
Definition left_of (p : page) : list word :=
  filter (fun x => float_lt (w_x0 x) (mid_of p)) (p_words p).

Definition right_of (p : page) : list word :=
  filter (fun x => float_ge (w_x0 x) (mid_of p)) (p_words p).

(** The page has no word and no fallback text. *)
Definition blank_page (p : page) : bool :=
  match p_words p, p_plain p with
  | [], None => true
  | [], Some text => String.eqb text ""
  | _, _ => false
  end.

(* ================================================================== *)
(** * Properties *)

(* ================================================================== *)
(** ** Floats: rounding a small number that is not negative *)

(** *** The number of binary digits *)

Lemma digits2_pos_size p : digits2_pos p = Pos.size p.
Proof. induction p; simpl; congruence. Qed.

Lemma Zdigits2_nonneg n : 0 <= Zdigits2 n.
Proof. destruct n; simpl; lia. Qed.

Lemma Zdigits2_gt n : 0 <= n -> n < 2 ^ Zdigits2 n.
Proof.
  destruct n as [|p|p]; simpl; intros H; try lia.
  rewrite digits2_pos_size.
  pose proof (Pos.size_gt p) as G.
  apply Pos2Z.pos_lt_pos in G. rewrite Pos2Z.inj_pow in G. exact G.
Qed.

Lemma Zdigits2_le n : 0 < n -> 2 ^ (Zdigits2 n - 1) <= n.
Proof.
  destruct n as [|p|p]; intros H; try lia.
  unfold Zdigits2. rewrite digits2_pos_size.
  pose proof (Pos.size_le p) as G.
  apply Pos2Z.pos_le_pos in G. rewrite Pos2Z.inj_pow in G.
  replace (Z.pos (Pos.size p)) with (Z.succ (Z.pos (Pos.size p) - 1)) in G by lia.
  rewrite Z.pow_succ_r in G by lia. lia.
Qed.

Lemma Zdigits2_bound n k : 0 <= n -> 0 <= k -> n < 2 ^ k -> Zdigits2 n <= k.
Proof.
  intros Hn Hk Hlt.
  destruct (Z.eq_dec n 0) as [->|Hz]; [simpl; lia|].
  destruct (Z_le_gt_dec (Zdigits2 n) k) as [|Hgt]; [assumption|exfalso].
  pose proof (Zdigits2_le n ltac:(lia)) as L.
  assert (2 ^ k <= 2 ^ (Zdigits2 n - 1)) by (apply Z.pow_le_mono_r; lia).
  lia.
Qed.

Lemma shr_1_digits s :
  Zdigits2 (shr_m (shr_1 s)) = Z.max 0 (Zdigits2 (shr_m s) - 1).
Proof.
  destruct s as [m r t]; destruct m as [|p|p];
    try destruct p; cbn [shr_1 shr_m Zdigits2 digits2_pos]; lia.
Qed.

Lemma shr_1_nonneg s : 0 <= shr_m s -> 0 <= shr_m (shr_1 s).
Proof.
  destruct s as [m r t]; destruct m as [|p|p]; simpl;
    try destruct p; simpl; lia.
Qed.

Lemma iter_shr_digits p : forall s,
  Zdigits2 (shr_m (iter_pos shr_1 p s)) = Z.max 0 (Zdigits2 (shr_m s) - Z.pos p).
Proof.
  induction p as [p IH|p IH|]; intros s; simpl.
  - rewrite !IH, shr_1_digits. lia.
  - rewrite !IH. lia.
  - apply shr_1_digits.
Qed.

Lemma iter_shr_nonneg p : forall s,
  0 <= shr_m s -> 0 <= shr_m (iter_pos shr_1 p s).
Proof.
  induction p as [p IH|p IH|]; intros s H; simpl.
  - apply IH, IH, shr_1_nonneg, H.
  - apply IH, IH, H.
  - apply shr_1_nonneg, H.
Qed.

Lemma shr_record_of_loc_m m l : shr_m (shr_record_of_loc m l) = m.
Proof. destruct l as [|[]]; reflexivity. Qed.

Lemma round_nearest_even_bounds m l :
  m <= round_nearest_even m l <= m + 1.
Proof.
  unfold round_nearest_even. destruct l as [|[]]; try lia.
  destruct (Z.even m); lia.
Qed.

Lemma Zdigits2_succ_le m n : 0 <= m -> m <= n <= m + 1 -> Zdigits2 n <= Zdigits2 m + 1.
Proof.
  intros Hm Hn.
  apply Zdigits2_bound; try lia.
  - pose proof (Zdigits2_nonneg m). lia.
  - pose proof (Zdigits2_gt m Hm) as G.
    pose proof (Zdigits2_nonneg m) as N.
    rewrite Z.pow_add_r by lia. lia.
Qed.

(** [shr_fexp] on a non-negative mantissa: the mantissa stays non-negative,
    the exponent is the larger of the old one and [fexp], and magnitude
    (digits plus exponent) does not grow. *)
Lemma shr_fexp_spec m e l B :
  0 <= m -> Zdigits2 m + e <= B -> -1074 <= B ->
  let '(mrs, e') := shr_fexp prec emax m e l in
  0 <= shr_m mrs /\
  e' = Z.max e (fexp prec emax (Zdigits2 m + e)) /\
  (0 < shr_m mrs -> Zdigits2 (shr_m mrs) + e' <= B) /\
  e' <= Z.max e (Z.max (B - 53) (-1074)).
Proof.
  intros Hm Hd HB.
  unfold shr_fexp, shr.
  pose proof (Zdigits2_nonneg m) as Hn.
  assert (Hf : fexp prec emax (Zdigits2 m + e) = Z.max (Zdigits2 m + e - 53) (-1074))
    by reflexivity.
  destruct (fexp prec emax (Zdigits2 m + e) - e) as [|p|p] eqn:E.
  - rewrite shr_record_of_loc_m. split; [|split; [|split]]; lia.
  - pose proof (iter_shr_digits p (shr_record_of_loc m l)) as D.
    pose proof (iter_shr_nonneg p (shr_record_of_loc m l)) as N.
    rewrite shr_record_of_loc_m in D, N.
    split; [|split; [|split]]; lia.
  - rewrite shr_record_of_loc_m. split; [|split; [|split]]; lia.
Qed.

Lemma binary_round_aux_nonneg mx ex lx B :
  0 <= mx -> ex <= 971 -> Zdigits2 mx + ex <= B -> -1074 <= B <= 1022 ->
  match binary_round_aux prec emax false mx ex lx with
  | S754_zero s => s = false
  | S754_finite s m e =>
      s = false /\ Z.pos (digits2_pos m) + e <= B + 1 /\ e <= 971
  | _ => False
  end.
Proof.
  intros Hm He Hd HB.
  unfold binary_round_aux.
  pose proof (shr_fexp_spec mx ex lx B Hm Hd ltac:(lia)) as S1.
  destruct (shr_fexp prec emax mx ex lx) as [mrs1 e1].
  destruct S1 as (N1 & E1 & D1 & L1).
  set (m1 := round_nearest_even (shr_m mrs1) (loc_of_shr_record mrs1)).
  pose proof (round_nearest_even_bounds (shr_m mrs1) (loc_of_shr_record mrs1)) as R.
  fold m1 in R.
  assert (Hm1 : 0 <= m1) by lia.
  assert (Hd1 : Zdigits2 m1 + e1 <= B + 1).
  { destruct (Z.eq_dec (shr_m mrs1) 0) as [Z0|NZ].
    - rewrite Z0 in R.
      assert (Zdigits2 m1 <= 1) by (apply Zdigits2_bound; simpl; lia).
      assert (e1 <= B).
      { rewrite E1. unfold fexp, emin, prec, emax.
        pose proof (Zdigits2_nonneg mx). lia. }
      lia.
    - pose proof (Zdigits2_succ_le (shr_m mrs1) m1 N1 R). 
      specialize (D1 ltac:(lia)). lia. }
  pose proof (shr_fexp_spec m1 e1 loc_Exact (B + 1) Hm1 Hd1 ltac:(lia)) as S2.
  destruct (shr_fexp prec emax m1 e1 loc_Exact) as [mrs2 e2].
  destruct S2 as (N2 & E2 & D2 & L2).
  destruct (shr_m mrs2) as [|p|p] eqn:Em2.
  - reflexivity.
  - assert (e2 <= 971) by lia.
    replace (e2 <=? emax - prec) with true
      by (symmetry; apply Z.leb_le; unfold emax, prec; lia).
    split; [reflexivity|split; [|lia]].
    specialize (D2 ltac:(lia)). cbn [Zdigits2] in D2. lia.
  - lia.
Qed.

Lemma binary_round_aux_small mx ex lx B :
  0 <= mx -> ex <= 971 -> Zdigits2 mx + ex <= B -> -1074 <= B <= 1022 ->
  small_nonneg (B + 1) (binary_round_aux prec emax false mx ex lx).
Proof.
  intros. pose proof (binary_round_aux_nonneg mx ex lx B H H0 H1 H2) as P.
  unfold small_nonneg. destruct (binary_round_aux prec emax false mx ex lx); auto.
Qed.

Lemma int_truediv_small a b :
  0 <= a <= b -> 0 < b ->
  exists f, int_truediv a b = Ok f /\ small_nonneg 2 f.
Proof.
  intros Ha Hb. unfold int_truediv.
  replace (b =? 0) with false by (symmetry; apply Z.eqb_neq; lia).
  destruct b as [|pb|pb]; try lia.
  destruct a as [|pa|pa]; try lia.
  - exists (S754_zero false). split; reflexivity.
  - cbn [Z2SF SFdiv xorb].
    unfold SFdiv_core_binary.
    set (d1 := Zdigits2 (Z.pos pa)). set (d2 := Zdigits2 (Z.pos pb)).
    set (e' := Z.min (fexp prec emax (d1 + 0 - (d2 + 0))) (0 - 0)).
    assert (He' : e' <= 0) by (unfold e'; lia).
    set (m' := match 0 - 0 - e' with
               | 0 => Z.pos pa
               | Z.pos _ => Z.shiftl (Z.pos pa) (0 - 0 - e')
               | Z.neg _ => 0
               end).
    assert (Hm' : m' = Z.pos pa * 2 ^ (- e')).
    { unfold m'. destruct (0 - 0 - e') as [|s|s] eqn:Es; try lia.
      - replace (- e') with 0 by lia. lia.
      - rewrite Z.shiftl_mul_pow2 by lia. f_equal. f_equal. lia. }
    pose proof (Z.div_eucl_eq m' (Z.pos pb) ltac:(lia)) as Hq.
    pose proof (Z.mod_pos_bound m' (Z.pos pb) ltac:(lia)) as Hr.
    unfold Z.modulo in Hr.
    destruct (Z.div_eucl m' (Z.pos pb)) as [q r].
    assert (P2 : 0 < 2 ^ (- e')) by (apply Z.pow_pos_nonneg; lia).
    assert (Hq0 : 0 <= q) by nia.
    assert (Hq1 : q <= 2 ^ (- e')) by nia.
    assert (Hd : Zdigits2 q + e' <= 1).
    { assert (Zdigits2 q <= - e' + 1); [|lia].
      apply Zdigits2_bound; try lia.
      rewrite Z.pow_add_r by lia. lia. }
    pose proof (binary_round_aux_small q e' (new_location (Z.pos pb) r) 1
                  Hq0 ltac:(lia) Hd ltac:(lia)) as S.
    change (1 + 1) with 2 in S.
    destruct (binary_round_aux prec emax false q e' (new_location (Z.pos pb) r)) eqn:F;
      try contradiction; eexists; split; try reflexivity; exact S.
Qed.

Lemma float_lit_100 : float_lit 100 = S754_finite false 7036874417766400 (-46).
Proof. reflexivity. Qed.

Lemma float_mul_100_small B f :
  small_nonneg B f -> -1081 <= B <= 1015 ->
  small_nonneg (B + 8) (float_mul f (float_lit 100)).
Proof.
  intros Hf HB. rewrite float_lit_100. unfold float_mul.
  destruct f as [s|s| |s m e]; cbn [small_nonneg] in Hf; try contradiction.
  - subst s. reflexivity.
  - destruct Hf as (-> & Hd & He). cbn [SFmul xorb].
    replace (B + 8) with (B + 7 + 1) by lia.
    apply binary_round_aux_small; try lia.
    assert (Zdigits2 (Z.pos (m * 7036874417766400)) <= Z.pos (digits2_pos m) + 53); [|lia].
    apply Zdigits2_bound; try lia.
    pose proof (Zdigits2_gt (Z.pos m) ltac:(lia)) as G. cbn [Zdigits2] in G.
    rewrite Z.pow_add_r by lia.
    rewrite Pos2Z.inj_mul.
    assert (7036874417766400 < 2 ^ 53) by reflexivity.
    nia.
Qed.

Lemma int_of_float_small B f :
  small_nonneg B f -> exists z, int_of_float f = Ok z /\ 0 <= z.
Proof.
  destruct f as [s|s| |s m e]; cbn [small_nonneg]; intros Hf; try contradiction.
  - exists 0. split; [reflexivity|lia].
  - destruct Hf as (-> & _ & _). cbn [int_of_float apply_sign].
    eexists; split; [reflexivity|].
    destruct (0 <=? e) eqn:E.
    + apply Z.leb_le in E. apply Z.mul_nonneg_nonneg; [lia|]. apply Z.pow_nonneg; lia.
    + apply Z.leb_gt in E. apply Z.div_pos; [lia|]. apply Z.pow_pos_nonneg; lia.
Qed.

(** The percentage of the scorer is always computed, and is not negative. *)
Lemma percentage_ok s t :
  0 <= s <= t -> 0 < t ->
  exists z,
    (q <- int_truediv s t ;; int_of_float (float_mul q (float_lit 100))) = Ok z
    /\ 0 <= z.
Proof.
  intros Hs Ht.
  destruct (int_truediv_small s t Hs Ht) as (f & -> & Hf). cbn [bind].
  apply (int_of_float_small 10).
  apply (float_mul_100_small 2); [assumption|lia].
Qed.

(* ================================================================== *)
(** ** The keyword scorer *)

(** *** Dictionaries *)

Lemma dict_get_In V (d : dict V) k v :
  dict_get d k = Some v -> In (k, v) d.
Proof.
  induction d as [|[k' v'] d IH]; cbn [dict_get]; [discriminate|].
  destruct (String.eqb k k') eqn:E.
  - apply String.eqb_eq in E. intros [= ->]. subst. now left.
  - intros H. right. auto.
Qed.

Lemma dict_set_Forall V (P : string * V -> Prop) (d : dict V) k v :
  Forall P d -> P (k, v) -> Forall P (dict_set d k v).
Proof.
  intros Hd Hk. induction Hd as [|[k' v'] d Hx Hd IH]; cbn [dict_set].
  - constructor; [assumption|constructor].
  - destruct (String.eqb k k') eqn:E.
    + apply String.eqb_eq in E. subst. constructor; assumption.
    + constructor; assumption.
Qed.

(** *** Keyword counts are positive *)

Lemma count_word_positive freq w :
  positive_counts freq -> positive_counts (count_word freq w).
Proof.
  intros H. unfold count_word. apply dict_set_Forall; [assumption|].
  cbn [snd]. unfold dict_get_default.
  destruct (dict_get freq w) as [v|] eqn:G; [|lia].
  apply dict_get_In in G.
  unfold positive_counts in H. rewrite Forall_forall in H.
  specialize (H _ G). cbn [snd] in H. lia.
Qed.

Lemma fold_count_positive ws : forall freq,
  positive_counts freq -> positive_counts (fold_left count_word ws freq).
Proof.
  induction ws as [|w ws IH]; intros freq H; cbn [fold_left]; [assumption|].
  apply IH, count_word_positive, H.
Qed.

Lemma extract_keywords_positive text : positive_counts (extract_keywords text).
Proof. unfold extract_keywords. apply fold_count_positive. constructor. Qed.

(** *** The stable descending sort *)

Lemma insert_desc_perm x l : Permutation (x :: l) (insert_desc x l).
Proof.
  induction l as [|y l IH]; cbn [insert_desc]; [reflexivity|].
  destruct (snd x <? snd y); [|reflexivity].
  rewrite perm_swap. now apply perm_skip.
Qed.

Lemma sorted_desc_perm l : Permutation l (sorted_desc l).
Proof.
  induction l as [|x l IH]; cbn [sorted_desc fold_right]; [reflexivity|].
  rewrite <- insert_desc_perm. now apply perm_skip.
Qed.

Lemma insert_desc_sorted x l :
  StronglySorted by_count_desc l -> StronglySorted by_count_desc (insert_desc x l).
Proof.
  induction 1 as [|y l Hs IH Hy]; cbn [insert_desc].
  - repeat constructor.
  - destruct (snd x <? snd y) eqn:E.
    + apply Z.ltb_lt in E. constructor; [assumption|].
      apply (Permutation_Forall (insert_desc_perm x l)).
      constructor; [unfold by_count_desc; lia|assumption].
    + apply Z.ltb_ge in E. constructor.
      * now constructor.
      * constructor; [unfold by_count_desc; lia|].
        revert Hy. apply Forall_impl. unfold by_count_desc. intros; lia.
Qed.

Lemma sorted_desc_sorted l : StronglySorted by_count_desc (sorted_desc l).
Proof.
  induction l as [|x l IH]; cbn [sorted_desc fold_right]; [constructor|].
  now apply insert_desc_sorted.
Qed.

Lemma insert_desc_stable n x l :
  filter (has_count n) (insert_desc x l) = filter (has_count n) (x :: l).
Proof.
  induction l as [|y l IH]; cbn [insert_desc]; [reflexivity|].
  destruct (snd x <? snd y) eqn:E; [|reflexivity].
  apply Z.ltb_lt in E.
  cbn [filter] in *. rewrite IH. unfold has_count.
  destruct (snd x =? n) eqn:Ex, (snd y =? n) eqn:Ey; try reflexivity.
  apply Z.eqb_eq in Ex, Ey. lia.
Qed.

Lemma sorted_desc_stable n l :
  filter (has_count n) (sorted_desc l) = filter (has_count n) l.
Proof.
  induction l as [|x l IH]; cbn [sorted_desc fold_right]; [reflexivity|].
  fold (sorted_desc l). rewrite insert_desc_stable. cbn [filter]. now rewrite IH.
Qed.

Lemma sorted_desc_nonempty l : l <> [] -> sorted_desc l <> [].
Proof.
  intros H E. apply H. apply Permutation_nil. rewrite <- E.
  symmetry. apply sorted_desc_perm.
Qed.

(** *** The loop over the top keywords *)

Lemma tally_fold cvk l : forall t,
  let t' := fold_left (tally_step cvk) l t in
  t_matched t' = t_matched t ++ map fst (filter (in_cv cvk) l) /\
  t_missing t' = t_missing t ++ map fst (filter (fun kv => negb (in_cv cvk kv)) l) /\
  t_total t' = t_total t + sum_counts l.
Proof.
  induction l as [|[w n] l IH]; intros t; cbn [fold_left filter map sum_counts fold_right].
  - rewrite !app_nil_r. split; [|split]; [reflexivity|reflexivity|lia].
  - specialize (IH (tally_step cvk t (w, n))). cbn zeta in IH.
    destruct IH as (M & S & T). fold (sum_counts l).
    rewrite M, S, T. clear M S T.
    change (in_cv cvk (w, n))
      with (match dict_get cvk w with Some _ => true | None => false end).
    unfold tally_step. cbn [snd].
    destruct (dict_get cvk w) as [c|];
      cbn [negb map t_matched t_missing t_total fst];
      rewrite <- ?app_assoc; cbn [app];
      (split; [|split]; [reflexivity|reflexivity|lia]).
Qed.

Lemma tally_bounds cvk l : positive_counts cvk -> positive_counts l -> forall t,
  0 <= t_score t <= t_total t ->
  0 <= t_score (fold_left (tally_step cvk) l t)
    <= t_total (fold_left (tally_step cvk) l t).
Proof.
  intros Hcv Hl. induction Hl as [|[w n] l Hn Hl IH]; intros t Ht; cbn [fold_left].
  - assumption.
  - apply IH. unfold tally_step. cbn [snd] in Hn.
    destruct (dict_get cvk w) as [c|] eqn:G; cbn [t_score t_total]; [|lia].
    apply dict_get_In in G. unfold positive_counts in Hcv.
    rewrite Forall_forall in Hcv. specialize (Hcv _ G). cbn [snd] in Hcv. lia.
Qed.

Lemma sum_counts_positive l : positive_counts l -> l <> [] -> 0 < sum_counts l.
Proof.
  intros H. induction H as [|x l Hx Hl IH]; intros N; [congruence|].
  cbn [sum_counts fold_right]. fold (sum_counts l).
  destruct l as [|y l]; [cbn; lia|].
  specialize (IH ltac:(discriminate)). lia.
Qed.

Lemma firstn_positive n l : positive_counts l -> positive_counts (firstn n l).
Proof.
  intros H. revert n.
  induction H as [|x l Hx Hl IH]; intros [|n]; cbn [firstn]; constructor; auto.
  apply IH.
Qed.

(** The scorer returns on every input, and what it returns. *)
Lemma compute_ats_score_spec cv jd :
  let cvk := extract_keywords cv in
  let top := firstn 20 (sorted_desc (extract_keywords jd)) in
  exists z,
    0 <= z /\
    compute_ats_score cv jd =
      Ok {| score := boosted z;
            matched := firstn 10 (map fst (filter (in_cv cvk) top));
            missing := firstn 10 (map fst (filter (fun kv => negb (in_cv cvk kv)) top)) |}.
Proof.
  intros cvk top. unfold compute_ats_score.
  fold cvk. subst top.
  pose proof (extract_keywords_positive jd) as Pjd.
  destruct (extract_keywords jd) as [|kv0 rest] eqn:Ejd.
  - exists 0. split; [lia|reflexivity].
  - set (jdk := kv0 :: rest) in *.
    set (top := firstn 20 (sorted_desc jdk)).
    assert (Ptop : positive_counts top).
    { apply firstn_positive.
      apply (Permutation_Forall (sorted_desc_perm jdk)). exact Pjd. }
    assert (Ntop : top <> []).
    { unfold top. pose proof (sorted_desc_nonempty jdk ltac:(discriminate)) as N.
      destruct (sorted_desc jdk); [congruence|discriminate]. }
    fold tally0.
    pose proof (tally_fold cvk top tally0) as (M & S & T). cbn zeta in M, S, T.
    pose proof (tally_bounds cvk top (extract_keywords_positive cv) Ptop tally0
                  ltac:(cbn; lia)) as Bd.
    pose proof (sum_counts_positive top Ptop Ntop) as Pos.
    set (t := fold_left (tally_step cvk) top tally0) in *.
    cbn [tally0 t_total t_matched t_missing app] in M, S, T.
    replace (0 <? t_total t) with true by (symmetry; apply Z.ltb_lt; lia).
    destruct (percentage_ok (t_score t) (t_total t) Bd ltac:(lia)) as (z & -> & Hz).
    cbn [bind]. exists z. split; [assumption|].
    rewrite M, S. reflexivity.
Qed.

(** *** The keys of the map, in the order of the text *)

Lemma dict_mem_keys V (d : dict V) k : dict_mem d k = str_in k (map fst d).
Proof.
  unfold dict_mem, str_in.
  induction d as [|[k' v] d IH]; cbn [dict_get map fst existsb]; [reflexivity|].
  destruct (String.eqb k k'); [reflexivity|exact IH].
Qed.

Lemma keys_dict_set V (d : dict V) k v :
  map fst (dict_set d k v) = if dict_mem d k then map fst d else map fst d ++ [k].
Proof.
  unfold dict_mem.
  induction d as [|[k' v'] d IH]; cbn [dict_set dict_get map fst app]; [reflexivity|].
  destruct (String.eqb k k') eqn:E; cbn [map fst]; [reflexivity|].
  rewrite IH. destruct (dict_get d k); reflexivity.
Qed.

Lemma keys_fold_count ws : forall freq,
  map fst (fold_left count_word ws freq)
  = fold_left (fun acc w => if str_in w acc then acc else acc ++ [w]) ws (map fst freq).
Proof.
  induction ws as [|w ws IH]; intros freq; cbn [fold_left]; [reflexivity|].
  rewrite IH. unfold count_word. now rewrite keys_dict_set, dict_mem_keys.
Qed.

Lemma extract_keywords_order text :
  map fst (extract_keywords text) = first_occurrences (keyword_list text).
Proof. unfold extract_keywords. apply keys_fold_count. Qed.

(** *** The claims on the scorer *)

(** C7, the code at an input where it leaves the claim.  With the
    keyword fifty times in the job description and twenty-nine times in
    the resume, [score] is 29 and [total_weight] is 50.  The double
    nearest to 29/50 times 100 is the double just below 58, [int] of it is
    57, and the scorer returns 57 + 10 = 67, where the floor of
    100 * 29 / 50 is 58 and the score of the claim is 68. *)
Theorem score_misses_floor_by_float_rounding :
  let job_description := repeat_str "python " 50 in
  let cv_text := repeat_str "python " 29 in
  fold_left (tally_step (extract_keywords cv_text))
    (firstn 20 (sorted_desc (extract_keywords job_description))) tally0
  = {| t_score := 29; t_total := 50;
       t_matched := ["python"]; t_missing := [] |}
  /\ int_truediv 29 50 = Ok (S754_finite false 5224175567749775 (-53))
  /\ float_mul (S754_finite false 5224175567749775 (-53)) (float_lit 100)
     = S754_finite false 8162774324609023 (-47)
  /\ int_of_float (S754_finite false 8162774324609023 (-47)) = Ok 57
  /\ compute_ats_score cv_text job_description
     = Ok {| score := 67; matched := ["python"]; missing := [] |}
  /\ spec_final_score 29 50 = 68.
Proof. vm_compute. repeat split. Qed.

(** C8: when the keyword map of the job description is empty, the scorer
    returns the report with score 0 and no matched or missing keyword,
    whatever the resume text. *)
Theorem empty_job_description_zero_report cv_text job_description :
  extract_keywords job_description = [] ->
  compute_ats_score cv_text job_description
  = Ok {| score := 0; matched := []; missing := [] |}.
Proof.
  intros H. unfold compute_ats_score. rewrite H. reflexivity.
Qed.

(** The empty job description. *)
Lemma empty_job_description_witness :
  extract_keywords "" = [] /\
  compute_ats_score "anything" ""
  = Ok {| score := 0; matched := []; missing := [] |}.
Proof.
  split; [reflexivity|].
  apply (empty_job_description_zero_report "anything" ""). reflexivity.
Defined.

(** C9: the ranking [sorted_jd] holds the keywords of the job
    description (listed in the order of their first occurrence in the
    text), by descending count, and the keywords of one count keep the
    order they had in the map; the scorer reads its first 20 entries, and
    reports as [matched] the first 10 of them that the resume has and as
    [missing] the first 10 that it lacks, both in the order of the
    ranking. *)
Theorem ranking_is_stable_top20 cv_text job_description :
  let jd_keywords := extract_keywords job_description in
  let cv_keywords := extract_keywords cv_text in
  let sorted_jd := sorted_desc jd_keywords in
  let top_keywords := firstn 20 sorted_jd in
  map fst jd_keywords = first_occurrences (keyword_list job_description) /\
  Permutation jd_keywords sorted_jd /\
  StronglySorted by_count_desc sorted_jd /\
  (forall n, filter (has_count n) sorted_jd = filter (has_count n) jd_keywords) /\
  exists r,
    compute_ats_score cv_text job_description = Ok r /\
    matched r = firstn 10 (map fst (filter (in_cv cv_keywords) top_keywords)) /\
    missing r = firstn 10 (map fst (filter (fun kv => negb (in_cv cv_keywords kv))
                                          top_keywords)).
Proof.
  cbn zeta. split; [apply extract_keywords_order|].
  split; [apply sorted_desc_perm|].
  split; [apply sorted_desc_sorted|].
  split; [intros n; apply sorted_desc_stable|].
  destruct (compute_ats_score_spec cv_text job_description) as (z & _ & E).
  eexists. split; [exact E|]. split; reflexivity.
Qed.

(** C10: on every pair of texts the scorer returns, and its score is 0
    or lies between 11 and 100. *)
Theorem score_is_zero_or_at_least_11 cv_text job_description :
  exists r,
    compute_ats_score cv_text job_description = Ok r /\
    (score r = 0 \/ 11 <= score r <= 100).
Proof.
  destruct (compute_ats_score_spec cv_text job_description) as (z & Hz & E).
  eexists. split; [exact E|]. cbn [score]. unfold boosted.
  destruct (0 <? z) eqn:P.
  - apply Z.ltb_lt in P. right. lia.
  - apply Z.ltb_ge in P. left. lia.
Qed.

(* ================================================================== *)
(** ** The schema normaliser and the repair step *)

Section DictFacts.
Variable V : Type.
Implicit Types (d : dict V) (k : string) (v : V).

Lemma dict_get_set d k k' v :
  dict_get (dict_set d k v) k' = if String.eqb k' k then Some v else dict_get d k'.
Proof.
  induction d as [|[k0 v0] d IH]; cbn [dict_set dict_get].
  - reflexivity.
  - destruct (String.eqb k k0) eqn:E; cbn [dict_get].
    + apply String.eqb_eq in E. subst k0.
      destruct (String.eqb k' k); reflexivity.
    + rewrite IH. destruct (String.eqb k' k0) eqn:E0; [|reflexivity].
      apply String.eqb_eq in E0. subst k0.
      rewrite String.eqb_sym, E. reflexivity.
Qed.

Lemma dict_get_setdefault d k k' v :
  dict_get (dict_setdefault d k v) k'
  = if String.eqb k' k then Some (dict_get_default d k v) else dict_get d k'.
Proof.
  unfold dict_setdefault, dict_get_default.
  destruct (dict_get d k) as [v0|] eqn:G.
  - destruct (String.eqb k' k) eqn:E; [|reflexivity].
    apply String.eqb_eq in E. now subst.
  - apply dict_get_set.
Qed.

Lemma dict_set_same d k v : dict_get d k = Some v -> dict_set d k v = d.
Proof.
  induction d as [|[k0 v0] d IH]; cbn [dict_set dict_get]; [discriminate|].
  destruct (String.eqb k k0) eqn:E.
  - now intros [= ->].
  - intros H. now rewrite IH.
Qed.

Lemma dict_setdefault_same d k v v0 :
  dict_get d k = Some v0 -> dict_setdefault d k v = d.
Proof. unfold dict_setdefault. now intros ->. Qed.
End DictFacts.

Lemma field_is_get p d k : field_is p d k = true ->
  exists v, dict_get d k = Some v /\ p v = true.
Proof.
  unfold field_is. destruct (dict_get d k) as [v|]; [|discriminate].
  intros H. now exists v.
Qed.

Lemma forallb_is_str_map l : forallb is_str (map (fun i => JStr (py_str i)) l) = true.
Proof. induction l; cbn; auto. Qed.

Lemma str_list_strings x : forallb is_str (str_list x) = true.
Proof. unfold str_list. apply forallb_is_str_map. Qed.

Lemma map_str_fixed l :
  forallb is_str l = true -> map (fun i => JStr (py_str i)) l = l.
Proof.
  induction l as [|[] l IH]; cbn [forallb is_str map andb]; try discriminate; auto.
  intros H. cbn [py_str]. now rewrite IH.
Qed.

Lemma str_list_fixed l : forallb is_str l = true -> str_list (JList l) = l.
Proof. apply map_str_fixed. Qed.

Lemma forallb_flat_map A B (p : B -> bool) (f : A -> list B) l :
  (forall a, forallb p (f a) = true) -> forallb p (flat_map f l) = true.
Proof.
  intros H. induction l as [|a l IH]; cbn [flat_map]; [reflexivity|].
  rewrite forallb_app, H, IH. reflexivity.
Qed.

Lemma flat_map_fixed A (p : A -> bool) (f : A -> list A) l :
  (forall a, p a = true -> f a = [a]) -> forallb p l = true -> flat_map f l = l.
Proof.
  intros H. induction l as [|a l IH]; cbn [flat_map forallb]; [reflexivity|].
  intros E. apply andb_prop in E as [Ea El]. now rewrite (H a Ea), IH.
Qed.

(** *** [int] raises one of three errors *)

Lemma int_of_string_raises s e : int_of_string s = Raise e -> e = ValueError.
Proof.
  unfold int_of_string.
  destruct (match rstrip_by is_int_space (lstrip_by is_int_space s) with
            | String "-" s' => (true, s')
            | String "+" s' => (false, s')
            | _ => (false, rstrip_by is_int_space (lstrip_by is_int_space s))
            end) as [neg body].
  destruct (int_max_str_digits <? count_digits body); [now intros [= <-]|].
  destruct (digits_value 0 false body); [discriminate|now intros [= <-]].
Qed.

Lemma py_int_raises j e :
  py_int j = Raise e -> e = ValueError \/ e = TypeError \/ e = OverflowError.
Proof.
  destruct j as [|b|z|f|s|l|d]; cbn [py_int]; try discriminate;
    try (intros [= <-]; auto).
  - destruct f; cbn [int_of_float]; try discriminate; intros [= <-]; auto.
  - intros H. apply int_of_string_raises in H. auto.
Qed.

Ltac dict_simpl :=
  repeat (rewrite ?dict_get_set, ?dict_get_setdefault; cbn [String.eqb Ascii.eqb Bool.eqb]).

(** *** The entries *)

Lemma normalize_lang_spec lang :
  match normalize_lang lang with
  | Ok l => repaired_lang l = true
  | Raise e => e = OverflowError
  end.
Proof.
  unfold normalize_lang.
  set (l3 := dict_setdefault _ "percent" _).
  assert (G : exists v, dict_get l3 "percent" = Some v).
  { unfold l3. rewrite dict_get_setdefault. cbn. eauto. }
  destruct G as (v & G). unfold dict_getitem. rewrite G. cbn [bind].
  assert (R : forall p, repaired_lang (JDict (dict_set l3 "percent" (JInt p))) = true).
  { intros p. unfold repaired_lang, object_with, field_is, l3. dict_simpl.
    reflexivity. }
  destruct (py_int v) as [z|e] eqn:E; cbn [percent_or_50 bind].
  - apply R.
  - apply py_int_raises in E as [->|[->| ->]]; cbn [bind]; auto.
Qed.

Lemma normalize_langs_spec langs :
  match normalize_langs langs with
  | Ok r => forallb repaired_lang r = true
  | Raise e => e = OverflowError
  end.
Proof.
  induction langs as [|lang rest IH]; cbn [normalize_langs]; [reflexivity|].
  destruct lang as [|b|z|f|s|l|d]; try exact IH.
  - destruct (normalize_langs rest) as [r|e]; cbn [bind]; [|exact IH].
    cbn [forallb]. rewrite IH. reflexivity.
  - pose proof (normalize_lang_spec d) as L.
    destruct (normalize_lang d) as [l'|e]; cbn [bind]; [|exact L].
    destruct (normalize_langs rest) as [r|e]; cbn [bind]; [|exact IH].
    cbn [forallb]. now rewrite L, IH.
Qed.

Lemma normalize_lang_fixed lang :
  repaired_lang (JDict lang) = true -> normalize_lang lang = Ok (JDict lang).
Proof.
  cbn [repaired_lang object_with]. intros H.
  apply andb_prop in H as [H Hp]. apply andb_prop in H as [Hn Hl].
  apply field_is_get in Hn as (vn & Gn & _).
  apply field_is_get in Hl as (vl & Gl & _).
  apply field_is_get in Hp as (vp & Gp & Ip).
  destruct vp as [| |z| | | |]; try discriminate.
  unfold normalize_lang.
  rewrite (dict_setdefault_same _ _ _ _ _ Gn), (dict_setdefault_same _ _ _ _ _ Gl),
    (dict_setdefault_same _ _ _ _ _ Gp).
  unfold dict_getitem. rewrite Gp. cbn [bind py_int percent_or_50].
  now rewrite (dict_set_same _ _ _ _ Gp).
Qed.

Lemma normalize_langs_fixed langs :
  forallb repaired_lang langs = true -> normalize_langs langs = Ok langs.
Proof.
  induction langs as [|lang rest IH]; cbn [forallb normalize_langs]; [reflexivity|].
  intros H. apply andb_prop in H as [Hl Hr].
  destruct lang as [| | | | | |d]; try discriminate.
  rewrite (normalize_lang_fixed d Hl), (IH Hr). reflexivity.
Qed.

Lemma normalize_skill_spec skill : forallb repaired_skill (normalize_skill skill) = true.
Proof.
  destruct skill as [|b|z|f|s|l|d]; try reflexivity.
  cbn [normalize_skill forallb repaired_skill String.eqb Ascii.eqb Bool.eqb andb].
  now rewrite str_list_strings.
Qed.

Lemma normalize_skill_fixed skill :
  repaired_skill skill = true -> normalize_skill skill = [skill].
Proof.
  destruct skill as [| | | | | |d]; try discriminate.
  destruct d as [|[c [| | | |cat| |]] [|[i [| | | | |items|]] [|]]]; try discriminate.
  cbn [repaired_skill]. intros H.
  apply andb_prop in H as [H Hi]. apply andb_prop in H as [Hc Hk].
  apply String.eqb_eq in Hc, Hk. subst c i.
  cbn. unfold str_list. now rewrite (map_str_fixed _ Hi).
Qed.

Lemma normalize_job_spec job : forallb repaired_job (normalize_job job) = true.
Proof.
  destruct job as [|b|z|f|s|l|d]; try reflexivity.
  cbn [normalize_job forallb repaired_job object_with]. unfold field_is.
  dict_simpl. cbn [any_value list_of andb]. now rewrite str_list_strings.
Qed.

Lemma normalize_job_fixed job :
  repaired_job job = true -> normalize_job job = [job].
Proof.
  destruct job as [| | | | | |d]; try discriminate.
  cbn [repaired_job object_with]. intros H.
  apply andb_prop in H as [H Hb]. apply andb_prop in H as [H H4].
  apply andb_prop in H as [H H3]. apply andb_prop in H as [H1 H2].
  apply field_is_get in H1 as (v1 & G1 & _).
  apply field_is_get in H2 as (v2 & G2 & _).
  apply field_is_get in H3 as (v3 & G3 & _).
  apply field_is_get in H4 as (v4 & G4 & _).
  apply field_is_get in Hb as (vb & Gb & Ib).
  destruct vb as [| | | | |bl|]; try discriminate. cbn [list_of] in Ib.
  cbn [normalize_job].
  rewrite (dict_setdefault_same _ _ _ _ _ G1), (dict_setdefault_same _ _ _ _ _ G2),
    (dict_setdefault_same _ _ _ _ _ G3), (dict_setdefault_same _ _ _ _ _ G4).
  unfold dict_get_default. rewrite Gb, (str_list_fixed _ Ib).
  now rewrite (dict_set_same _ _ _ _ Gb).
Qed.

Lemma normalize_edu_spec item : forallb repaired_edu (normalize_edu item) = true.
Proof.
  destruct item as [|b|z|f|s|l|d]; try reflexivity.
  cbn [normalize_edu forallb repaired_edu object_with]. unfold field_is.
  dict_simpl. reflexivity.
Qed.

Lemma normalize_edu_fixed item :
  repaired_edu item = true -> normalize_edu item = [item].
Proof.
  destruct item as [| | | | | |d]; try discriminate.
  cbn [repaired_edu object_with]. intros H.
  apply andb_prop in H as [H H5]. apply andb_prop in H as [H H4].
  apply andb_prop in H as [H H3]. apply andb_prop in H as [H1 H2].
  apply field_is_get in H1 as (v1 & G1 & _).
  apply field_is_get in H2 as (v2 & G2 & _).
  apply field_is_get in H3 as (v3 & G3 & _).
  apply field_is_get in H4 as (v4 & G4 & _).
  apply field_is_get in H5 as (v5 & G5 & _).
  cbn [normalize_edu].
  now rewrite (dict_setdefault_same _ _ _ _ _ G1), (dict_setdefault_same _ _ _ _ _ G2),
    (dict_setdefault_same _ _ _ _ _ G3), (dict_setdefault_same _ _ _ _ _ G4),
    (dict_setdefault_same _ _ _ _ _ G5).
Qed.

(** *** The blocks *)

Lemma get_set_contact d k :
  dict_get (set_contact d) k
  = if String.eqb k "contact"
    then Some (JDict
      (dict_setdefault
        (dict_setdefault
          (dict_setdefault
            (dict_setdefault (as_dict (dict_get_default d "contact" (JDict [])))
               "email" (JStr "")) "phone" (JStr "")) "location" (JStr ""))
        "age" (JStr "")))
    else dict_get d k.
Proof. apply dict_get_set. Qed.

Lemma get_set_certifications d k :
  dict_get (set_certifications d) k
  = if String.eqb k "certifications"
    then Some (JList (str_list (dict_get_default d "certifications" (JList []))))
    else dict_get d k.
Proof. apply dict_get_set. Qed.

Lemma get_set_skills d k :
  dict_get (set_skills d) k
  = if String.eqb k "skills"
    then Some (JList (flat_map normalize_skill
                 match dict_get_default d "skills" (JList []) with
                 | JList l => l
                 | JDict sd => skills_of_dict sd
                 | _ => []
                 end))
    else dict_get d k.
Proof. apply dict_get_set. Qed.

Lemma get_set_experience d k :
  dict_get (set_experience d) k
  = if String.eqb k "experience"
    then Some (JList (flat_map normalize_job
                 (as_list (dict_get_default d "experience" (JList [])))))
    else dict_get d k.
Proof. apply dict_get_set. Qed.

Lemma get_set_education d k :
  dict_get (set_education d) k
  = if String.eqb k "education"
    then Some (JList (flat_map normalize_edu
                 (as_list (dict_get_default d "education" (JList [])))))
    else dict_get d k.
Proof. apply dict_get_set. Qed.

Lemma get_set_interests d k :
  dict_get (set_interests d) k
  = if String.eqb k "interests"
    then Some (JList (str_list (dict_get_default d "interests" (JList []))))
    else dict_get d k.
Proof. apply dict_get_set. Qed.

Lemma get_set_additional_info d k :
  dict_get (set_additional_info d) k
  = if String.eqb k "additional_info"
    then Some (JList (str_list (dict_get_default d "additional_info" (JList []))))
    else dict_get d k.
Proof. apply dict_get_set. Qed.

Ltac fields_simpl :=
  repeat (rewrite ?get_set_additional_info, ?get_set_interests, ?get_set_education,
            ?get_set_experience, ?get_set_skills, ?get_set_certifications,
            ?get_set_contact, ?dict_get_set, ?dict_get_setdefault;
          cbn [String.eqb Ascii.eqb Bool.eqb]).

Lemma set_languages_spec d :
  match set_languages d with
  | Ok d' =>
      exists langs, forallb repaired_lang langs = true /\
                    d' = dict_set d "languages" (JList langs)
  | Raise e => e = OverflowError
  end.
Proof.
  unfold set_languages. cbv zeta.
  match goal with |- context [normalize_langs ?l] =>
    pose proof (normalize_langs_spec l) as L;
    destruct (normalize_langs l) as [langs|e] end; cbn [bind]; [|exact L].
  now exists langs.
Qed.

(** *** The whole record *)

Lemma normalize_resume_data_spec data :
  match normalize_resume_data data with
  | Ok y => is_repaired_record y = true
  | Raise e => e = OverflowError
  end.
Proof.
  unfold normalize_resume_data. cbv zeta.
  generalize (as_dict data) as d0. intros d0.
  pose proof (set_languages_spec (set_contact (set_name_title d0))) as L.
  destruct (set_languages (set_contact (set_name_title d0))) as [d'|e];
    cbn [bind]; [|exact L].
  destruct L as (langs & L & ->).
  cbn [is_repaired_record object_with]. unfold field_is.
  fields_simpl. unfold set_name_title. fields_simpl.
  cbn [any_value repaired_contact object_with list_of andb].
  unfold field_is. fields_simpl. cbn [any_value andb].
  rewrite L, !str_list_strings.
  rewrite !forallb_flat_map by
    (first [apply normalize_skill_spec|apply normalize_job_spec|apply normalize_edu_spec]).
  reflexivity.
Qed.

Lemma set_fixed d k v f :
  dict_get d k = Some v -> f v = v ->
  dict_set d k (f (dict_get_default d k (JList []))) = d.
Proof.
  intros G F. unfold dict_get_default. rewrite G, F. now apply dict_set_same.
Qed.

Lemma repaired_record_fixed y :
  is_repaired_record y = true -> normalize_resume_data y = Ok y.
Proof.
  destruct y as [| | | | | |d]; try discriminate.
  cbn [is_repaired_record object_with]. intros H.
  repeat match type of H with
         | (_ && _) = true => let H' := fresh "F" in apply andb_prop in H as [H H']
         end.
  apply field_is_get in H as (v1 & G1 & _).
  apply field_is_get in F8 as (v2 & G2 & _).
  apply field_is_get in F7 as (v3 & G3 & _).
  apply field_is_get in F6 as (vc & Gc & Ic).
  apply field_is_get in F5 as (vl & Gl & Il).
  apply field_is_get in F4 as (vce & Gce & Ice).
  apply field_is_get in F3 as (vs & Gs & Is).
  apply field_is_get in F2 as (vx & Gx & Ix).
  apply field_is_get in F1 as (ve & Ge & Ie).
  apply field_is_get in F0 as (vi & Gi & Ii).
  apply field_is_get in F as (va & Ga & Ia).
  unfold normalize_resume_data. cbv zeta. cbn [as_dict].
  assert (E1 : set_name_title d = d).
  { unfold set_name_title. cbv zeta.
    now rewrite (dict_setdefault_same _ _ _ _ _ G1), (dict_setdefault_same _ _ _ _ _ G2),
      (dict_setdefault_same _ _ _ _ _ G3). }
  rewrite E1.
  assert (E2 : set_contact d = d).
  { unfold set_contact, dict_get_default. cbv zeta. rewrite Gc.
    destruct vc as [| | | | | |c]; try discriminate.
    cbn [repaired_contact object_with as_dict] in Ic |- *.
    repeat match type of Ic with
           | (_ && _) = true => let H' := fresh "C" in apply andb_prop in Ic as [Ic H']
           end.
    apply field_is_get in Ic as (c1 & K1 & _).
    apply field_is_get in C1 as (c2 & K2 & _).
    apply field_is_get in C0 as (c3 & K3 & _).
    apply field_is_get in C as (c4 & K4 & _).
    rewrite (dict_setdefault_same _ _ _ _ _ K1), (dict_setdefault_same _ _ _ _ _ K2),
      (dict_setdefault_same _ _ _ _ _ K3), (dict_setdefault_same _ _ _ _ _ K4).
    now apply dict_set_same. }
  rewrite E2.
  assert (E3 : set_languages d = Ok d).
  { unfold set_languages, dict_get_default. cbv zeta. rewrite Gl.
    destruct vl as [| | | | |l|]; try discriminate.
    cbn [list_of as_list] in Il |- *.
    rewrite (normalize_langs_fixed _ Il). cbn [bind].
    now rewrite (dict_set_same _ _ _ _ Gl). }
  rewrite E3. cbn [bind].
  assert (E4 : set_certifications d = d).
  { destruct vce as [| | | | |l|]; try discriminate.
    apply (set_fixed d "certifications" (JList l) (fun x => JList (str_list x))); auto.
    cbn [list_of] in Ice. now rewrite (str_list_fixed _ Ice). }
  rewrite E4.
  assert (E5 : set_skills d = d).
  { unfold set_skills, dict_get_default. cbv zeta. rewrite Gs.
    destruct vs as [| | | | |l|]; try discriminate. cbn [list_of] in Is.
    rewrite (flat_map_fixed _ repaired_skill normalize_skill l normalize_skill_fixed Is).
    now apply dict_set_same. }
  rewrite E5.
  assert (E6 : set_experience d = d).
  { unfold set_experience, dict_get_default. cbv zeta. rewrite Gx.
    destruct vx as [| | | | |l|]; try discriminate. cbn [list_of as_list] in Ix |- *.
    rewrite (flat_map_fixed _ repaired_job normalize_job l normalize_job_fixed Ix).
    now apply dict_set_same. }
  rewrite E6.
  assert (E7 : set_education d = d).
  { unfold set_education, dict_get_default. cbv zeta. rewrite Ge.
    destruct ve as [| | | | |l|]; try discriminate. cbn [list_of as_list] in Ie |- *.
    rewrite (flat_map_fixed _ repaired_edu normalize_edu l normalize_edu_fixed Ie).
    now apply dict_set_same. }
  rewrite E7.
  assert (E8 : set_interests d = d).
  { destruct vi as [| | | | |l|]; try discriminate.
    apply (set_fixed d "interests" (JList l) (fun x => JList (str_list x))); auto.
    cbn [list_of] in Ii. now rewrite (str_list_fixed _ Ii). }
  rewrite E8.
  assert (E9 : set_additional_info d = d).
  { destruct va as [| | | | |l|]; try discriminate.
    apply (set_fixed d "additional_info" (JList l) (fun x => JList (str_list x))); auto.
    cbn [list_of] in Ia. now rewrite (str_list_fixed _ Ia). }
  rewrite E9. reflexivity.
Qed.

(** *** The claims on the normaliser and on the repair step *)

(** C1, the code at an input where it leaves the claim.  The response
    text is valid JSON; its number [1e999] is read as the float infinity,
    [int] of it raises [OverflowError], which the handler for
    [ValueError] and [TypeError] lets through, and the normaliser raises. *)
Theorem normalize_raises_on_infinite_percent room slack :
  let response_text := dq "{'languages': [{'percent': 1e999}]}" in
  let data :=
    JDict [("languages",
            JList [JDict [("percent", JFloat (S754_infinity false))]])] in
  parse_llm_response (3 + room) slack response_text = Some (Ok data) /\
  py_int (JFloat (S754_infinity false)) = Raise OverflowError /\
  normalize_resume_data data = Raise OverflowError.
Proof. vm_compute. repeat split. Qed.

(** C2 as stated fails: a name that is a number stays a number, a percent
    of 150 stays 150, and an [in_progress] that is a string stays a
    string. *)
Lemma declared_types_counterexample :
  let data :=
    JDict [("name", JInt 5);
           ("languages", JList [JDict [("percent", JInt 150)]]);
           ("education", JList [JDict [("in_progress", JStr "yes")]])] in
  exists out,
    normalize_resume_data data = Ok (JDict out) /\
    dict_get out "name" = Some (JInt 5) /\
    dict_get out "languages"
    = Some (JList [JDict [("percent", JInt 150); ("name", JStr "Unknown");
                          ("level", JStr "Basic")]]) /\
    dict_get out "education"
    = Some (JList [JDict [("in_progress", JStr "yes"); ("degree", JStr "");
                          ("school", JStr ""); ("year", JStr "");
                          ("details", JStr "")]]) /\
    is_resume_record (JDict out) = false.
Proof. eexists. vm_compute. repeat split. Qed.

Ltac defaults_simpl :=
  dict_simpl; repeat (unfold dict_get_default; dict_simpl); reflexivity.

(** The fields that are only defaulted, entry by entry. *)
Lemma normalize_lang_made_of lang out :
  normalize_lang lang = Ok out -> lang_made_of (JDict lang) out.
Proof.
  unfold normalize_lang.
  set (l3 := dict_setdefault _ "percent" _).
  destruct (percent_or_50 (v <- dict_getitem l3 "percent" ;; py_int v)) as [p|e];
    cbn [bind]; [|discriminate].
  intros [= <-]. cbn [lang_made_of entry_defaulted]. unfold l3.
  intros k dflt [[= <- <-]|[[= <- <-]|[]]]; defaults_simpl.
Qed.

Lemma normalize_langs_made_of langs out :
  normalize_langs langs = Ok out ->
  Forall2 lang_made_of (filter is_object_or_str langs) out.
Proof.
  revert out. induction langs as [|lang rest IH]; intros out;
    cbn [normalize_langs filter].
  - intros [= <-]. constructor.
  - destruct lang as [|b|z|f|s|l|d]; cbn [is_object_or_str]; try apply IH.
    + destruct (normalize_langs rest) as [r|e]; cbn [bind]; [|discriminate].
      intros [= <-]. constructor; [reflexivity|now apply IH].
    + destruct (normalize_lang d) as [l'|e] eqn:L; cbn [bind]; [|discriminate].
      destruct (normalize_langs rest) as [r|e]; cbn [bind]; [|discriminate].
      intros [= <-]. constructor; [now apply normalize_lang_made_of|now apply IH].
Qed.

Lemma normalize_jobs_made_of jobs :
  Forall2 (entry_defaulted job_defaults) (filter is_object jobs)
          (flat_map normalize_job jobs).
Proof.
  induction jobs as [|job rest IH]; cbn [filter flat_map]; [constructor|].
  destruct job as [|b|z|f|s|l|d]; cbn [is_object normalize_job app]; try exact IH.
  constructor; [|exact IH]. cbn [entry_defaulted].
  intros k dflt [[= <- <-]|[[= <- <-]|[[= <- <-]|[[= <- <-]|[]]]]];
    defaults_simpl.
Qed.

Lemma normalize_edus_made_of items :
  Forall2 (entry_defaulted edu_defaults) (filter is_object items)
          (flat_map normalize_edu items).
Proof.
  induction items as [|item rest IH]; cbn [filter flat_map]; [constructor|].
  destruct item as [|b|z|f|s|l|d]; cbn [is_object normalize_edu app]; try exact IH.
  constructor; [|exact IH]. cbn [entry_defaulted].
  intros k dflt [[= <- <-]|[[= <- <-]|[[= <- <-]|[[= <- <-]|[[= <- <-]|[]]]]]];
    defaults_simpl.
Qed.

(** C2, amended: when the normaliser returns, every field of the record
    is there; the fields it rebuilds have their type (contact is an
    object, languages, skills, experience and education are lists of
    objects, [percent] is an integer, certifications, interests,
    additional_info, skill items and bullets are lists of strings, a
    skill category is a string); a field it only defaults (name, title
    and summary, the fields of contact, the name and level of a language,
    the text fields of an experience and of an education, and
    [in_progress]) is the value of the input when the input has one, of
    whatever type, and the default otherwise, the entries of the lists
    being those of the input that are objects (or, for a language, a
    name), in their order.  It raises nothing but [OverflowError]. *)
Theorem normalized_record_is_repaired data :
  match normalize_resume_data data with
  | Ok y =>
      is_repaired_record y = true /\
      defaulted record_defaults (as_dict data) (as_dict y) /\
      defaulted contact_defaults (object_at data "contact") (object_at y "contact") /\
      Forall2 lang_made_of
        (filter is_object_or_str (entries_at data "languages"))
        (entries_at y "languages") /\
      Forall2 (entry_defaulted job_defaults)
        (filter is_object (entries_at data "experience"))
        (entries_at y "experience") /\
      Forall2 (entry_defaulted edu_defaults)
        (filter is_object (entries_at data "education"))
        (entries_at y "education")
  | Raise e => e = OverflowError
  end.
Proof.
  pose proof (normalize_resume_data_spec data) as S.
  destruct (normalize_resume_data data) as [y|e] eqn:E; [|exact S].
  split; [exact S|].
  revert E. unfold normalize_resume_data, object_at, entries_at. cbv zeta.
  generalize (as_dict data) as d0. intros d0.
  unfold set_languages. cbv zeta.
  destruct (normalize_langs
              (as_list (dict_get_default (set_contact (set_name_title d0))
                          "languages" (JList [])))) as [langs|e'] eqn:L;
    cbn [bind]; [|discriminate].
  intros [= <-]. cbn [as_dict].
  assert (G : forall k, str_in k ["name"; "title"; "summary"; "contact"] = false ->
                        dict_get_default (set_contact (set_name_title d0)) k (JList [])
                        = dict_get_default d0 k (JList [])).
  { intros k Hk. unfold dict_get_default. rewrite get_set_contact.
    cbn [str_in existsb] in Hk. apply orb_false_elim in Hk as [H1 Hk].
    apply orb_false_elim in Hk as [H2 Hk]. apply orb_false_elim in Hk as [H3 Hk].
    apply orb_false_elim in Hk as [H4 _].
    rewrite H4. unfold set_name_title. rewrite !dict_get_setdefault.
    now rewrite H3, H2, H1. }
  split; [|split; [|split; [|split]]].
  - intros k dflt [[= <- <-]|[[= <- <-]|[[= <- <-]|[]]]];
      fields_simpl; unfold set_name_title; fields_simpl; unfold dict_get_default;
      fields_simpl; reflexivity.
  - unfold dict_get_default at 2. fields_simpl. cbn [as_dict].
    replace (dict_get_default (set_name_title d0) "contact" (JDict []))
      with (dict_get_default d0 "contact" (JDict []))
      by (unfold dict_get_default, set_name_title; now rewrite !dict_get_setdefault).
    intros k dflt [[= <- <-]|[[= <- <-]|[[= <- <-]|[[= <- <-]|[]]]]];
      defaults_simpl.
  - unfold dict_get_default at 2. fields_simpl. cbn [as_list].
    rewrite (G "languages" eq_refl) in L. now apply normalize_langs_made_of.
  - unfold dict_get_default at 2. fields_simpl. cbn [as_list].
    match goal with
    | |- Forall2 _ _ (flat_map _ (as_list ?x)) =>
        replace x with (dict_get_default d0 "experience" (JList []))
    end; [apply normalize_jobs_made_of|].
    rewrite <- (G "experience" eq_refl). unfold dict_get_default. fields_simpl.
    reflexivity.
  - unfold dict_get_default at 2. fields_simpl. cbn [as_list].
    match goal with
    | |- Forall2 _ _ (flat_map _ (as_list ?x)) =>
        replace x with (dict_get_default d0 "education" (JList []))
    end; [apply normalize_edus_made_of|].
    rewrite <- (G "education" eq_refl). unfold dict_get_default. fields_simpl.
    reflexivity.
Qed.

(** C4: normalising the result of the normaliser gives that result
    again; on an input where the first call raises, so does the
    composition. *)
Theorem normalize_idempotent data :
  (y <- normalize_resume_data data ;; normalize_resume_data y)
  = normalize_resume_data data.
Proof.
  pose proof (normalize_resume_data_spec data) as S.
  destruct (normalize_resume_data data) as [y|e]; cbn [bind]; [|reflexivity].
  now apply repaired_record_fixed.
Qed.

(* ================================================================== *)
(** ** The extractor *)

(** *** Comparing floats *)

Lemma SFcompare_antisym x y :
  SFcompare y x = match SFcompare x y with
                  | Some c => Some (CompOpp c)
                  | None => None
                  end.
Proof.
  destruct x as [sx|sx| |sx mx ex], y as [sy|sy| |sy my ey]; cbn [SFcompare];
    try reflexivity;
    try (destruct sx; reflexivity); try (destruct sy; reflexivity);
    try (destruct sx, sy; reflexivity).
  assert (P : Pos.compare_cont Eq my mx = CompOpp (Pos.compare_cont Eq mx my))
    by (symmetry; apply (Pos.compare_cont_antisym mx my Eq)).
  rewrite (Z.compare_antisym ex ey), P.
  destruct sx, sy; try reflexivity;
    destruct (ex ?= ey); cbn [CompOpp]; try reflexivity;
    now rewrite ?CompOpp_involutive.
Qed.

Lemma float_lt_not_ge x y : float_lt x y = true -> float_ge x y = false.
Proof.
  unfold float_lt, float_ge, SFltb, SFleb. rewrite (SFcompare_antisym x y).
  destruct (SFcompare x y) as [[]|]; cbn [CompOpp]; congruence.
Qed.

Lemma float_ge_not_lt x y : float_ge x y = true -> float_lt x y = false.
Proof.
  intros H. destruct (float_lt x y) eqn:E; [|reflexivity].
  apply float_lt_not_ge in E. congruence.
Qed.

Lemma has_ink_app a b : has_ink (a ++ b) = has_ink a || has_ink b.
Proof.
  unfold has_ink. induction a as [|c a IH]; cbn [append str_existsb]; [reflexivity|].
  now rewrite IH, orb_assoc.
Qed.

Lemma has_ink_join sep l :
  has_ink sep = false -> has_ink (join sep l) = existsb has_ink l.
Proof.
  intros Hs. induction l as [|s l IH]; [reflexivity|].
  destruct l as [|s' l].
  - cbn [join existsb]. now rewrite orb_false_r.
  - change (join sep (s :: s' :: l)) with (s ++ sep ++ join sep (s' :: l))%string.
    rewrite !has_ink_app, Hs, IH. reflexivity.
Qed.

Lemma lstrip_ink s : has_ink s = true -> has_ink (lstrip s) = true.
Proof.
  unfold has_ink. induction s as [|c s IH]; cbn [lstrip str_existsb]; [discriminate|].
  destruct (is_space c) eqn:E; cbn [negb orb]; [exact IH|].
  intros _. cbn [str_existsb]. now rewrite E.
Qed.

Lemma rstrip_ink s : has_ink s = true -> rstrip s <> "".
Proof.
  unfold has_ink. induction s as [|c s IH]; cbn [rstrip str_existsb]; [discriminate|].
  intros H. destruct (rstrip s) eqn:R.
  - destruct (is_space c); [|discriminate].
    cbn [negb orb] in H. now apply IH in H.
  - discriminate.
Qed.

Lemma strip_ink s : has_ink s = true -> nonempty (strip s) = true.
Proof.
  intros H. unfold nonempty, strip.
  apply lstrip_ink, rstrip_ink in H.
  destruct (rstrip (lstrip s)); [congruence|reflexivity].
Qed.

Lemma filter_all A (p : A -> bool) l :
  Forall (fun a => p a = true) l -> filter p l = l.
Proof.
  induction 1 as [|a l Ha Hl IH]; cbn [filter]; [reflexivity|].
  now rewrite Ha, IH.
Qed.

Lemma filter_none A (p : A -> bool) l :
  Forall (fun a => p a = false) l -> filter p l = [].
Proof.
  induction 1 as [|a l Ha Hl IH]; cbn [filter]; [reflexivity|].
  now rewrite Ha.
Qed.

(** *** Sorting the words of a column *)

Lemma keyed_words_defined ws :
  Forall band_defined ws ->
  exists keyed, mapM keyed_word ws = Ok keyed /\ map snd keyed = ws.
Proof.
  induction 1 as [|x ws [b Hb] Hws (keyed & E & M)]; cbn [mapM].
  - exists []. split; reflexivity.
  - unfold keyed_word at 1. rewrite Hb. cbn [bind]. rewrite E. cbn [bind].
    eexists. split; [reflexivity|]. cbn [map snd]. now rewrite M.
Qed.

Lemma insert_by_key_perm x l : Permutation (x :: l) (insert_by_key x l).
Proof.
  induction l as [|y l IH]; cbn [insert_by_key]; [reflexivity|].
  destruct (key_lt (fst y) (fst x)); [|reflexivity].
  rewrite perm_swap. now apply perm_skip.
Qed.

Lemma sort_by_key_perm l : Permutation l (fold_right insert_by_key [] l).
Proof.
  induction l as [|x l IH]; cbn [fold_right]; [reflexivity|].
  rewrite <- insert_by_key_perm. now apply perm_skip.
Qed.

Lemma sorted_words_defined ws :
  Forall band_defined ws ->
  exists ws', sorted_words ws = Ok ws' /\ Permutation ws ws'.
Proof.
  intros H. destruct (keyed_words_defined ws H) as (keyed & E & M).
  unfold sorted_words. fold keyed_word. rewrite E. cbn [bind].
  eexists. split; [reflexivity|].
  rewrite <- M at 1. apply Permutation_map, sort_by_key_perm.
Qed.

(** *** Reassembling the lines *)

Lemma has_ink_space : has_ink " " = false.
Proof. reflexivity. Qed.

Lemma has_ink_nl : has_ink nl = false.
Proof. reflexivity. Qed.

Lemma line_step_ink st w :
  band_defined w ->
  exists st', line_step st w = Ok st' /\
              state_ink st' = state_ink st || has_ink (w_text w).
Proof.
  intros [y Hy]. unfold line_step. rewrite Hy. cbn [bind].
  eexists. split; [reflexivity|].
  unfold state_ink. cbn [lines current_line].
  destruct (current_y st) as [cy|]; [destruct (negb (y =? cy))|];
    cbn [lines current_line];
    rewrite ?existsb_app; cbn [existsb];
    rewrite ?(has_ink_join " " _ has_ink_space);
    destruct (existsb has_ink (lines st)), (existsb has_ink (current_line st)),
      (has_ink (w_text w)); reflexivity.
Qed.

Lemma fold_line_step_ink ws : forall st,
  Forall band_defined ws ->
  exists st', fold_result line_step ws st = Ok st' /\
              state_ink st' = state_ink st || existsb (fun w => has_ink (w_text w)) ws.
Proof.
  induction ws as [|w ws IH]; intros st H; cbn [fold_result existsb].
  - exists st. now rewrite orb_false_r.
  - inversion H as [|? ? Hw Hws]; subst.
    destruct (line_step_ink st w Hw) as (st1 & E1 & I1). rewrite E1. cbn [bind].
    destruct (IH st1 Hws) as (st' & E' & I'). exists st'. split; [exact E'|].
    now rewrite I', I1, orb_assoc.
Qed.

Lemma words_to_text_ink ws :
  ws <> [] ->
  Forall band_defined ws ->
  Forall (fun w => has_ink (w_text w) = true) ws ->
  exists text, words_to_text ws = Ok text /\ has_ink text = true.
Proof.
  intros N B I. unfold words_to_text.
  destruct ws as [|w ws]; [congruence|].
  destruct (fold_line_step_ink (w :: ws)
              {| lines := []; current_y := None; current_line := [] |} B)
    as (st & E & S).
  rewrite E. cbn [bind]. eexists. split; [reflexivity|].
  rewrite (has_ink_join nl _ has_ink_nl).
  assert (K : state_ink st = true).
  { rewrite S. cbn [existsb]. inversion I as [|? ? Iw _]; subst.
    now rewrite Iw, orb_true_r. }
  unfold state_ink in K.
  destruct (current_line st) as [|c cl] eqn:C.
  - now rewrite orb_false_r in K.
  - rewrite existsb_app. cbn [existsb].
    now rewrite (has_ink_join " " _ has_ink_space), orb_false_r.
Qed.

Lemma empty_column :
  sorted_words [] = Ok [] /\ words_to_text [] = Ok "".
Proof. split; reflexivity. Qed.

(** C6: on a page whose words all lie left of the boundary, the page
    text is the SIDEBAR marker, the text of the column and a blank line,
    and nothing else; on a page whose words all lie at or right of it,
    the page text is the MAIN CONTENT marker and the text of the column;
    on a page without words, a fallback text that is not empty is the
    page text, unchanged.  The words have a visible character and a band
    that is computed. *)
Theorem page_sections p :
  (p_words p <> [] ->
   Forall band_defined (p_words p) ->
   Forall (fun w => has_ink (w_text w) = true) (p_words p) ->
   Forall (fun w => float_lt (w_x0 w) (mid_of p) = true) (p_words p) ->
   exists left_words left_text,
     sorted_words (p_words p) = Ok left_words /\
     words_to_text left_words = Ok left_text /\
     extract_page p = Ok (Some (sidebar_marker ++ left_text ++ nl ++ nl)%string)) /\
  (p_words p <> [] ->
   Forall band_defined (p_words p) ->
   Forall (fun w => has_ink (w_text w) = true) (p_words p) ->
   Forall (fun w => float_ge (w_x0 w) (mid_of p) = true) (p_words p) ->
   exists right_words right_text,
     sorted_words (p_words p) = Ok right_words /\
     words_to_text right_words = Ok right_text /\
     extract_page p = Ok (Some (main_marker ++ right_text)%string)) /\
  (forall text,
     p_words p = [] -> p_plain p = Some text -> text <> "" ->
     extract_page p = Ok (Some text) /\ extract_text_from_pdf [p] = Ok text).
Proof.
  split; [|split].
  - intros N B I L.
    destruct (sorted_words_defined _ B) as (lw & Es & P).
    assert (Nl : lw <> []).
    { intros ->. apply Permutation_sym, Permutation_nil in P. contradiction. }
    destruct (words_to_text_ink lw Nl (Permutation_Forall P B) (Permutation_Forall P I))
      as (lt & Et & It).
    exists lw, lt. split; [exact Es|]. split; [exact Et|].
    unfold extract_page. fold (mid_of p).
    destruct (p_words p) as [|w ws] eqn:W; [congruence|].
    rewrite (filter_all _ _ _ L).
    rewrite (filter_none _ (fun x => float_ge (w_x0 x) (mid_of p))) by
      (revert L; apply Forall_impl; intros a; apply float_lt_not_ge).
    rewrite Es. cbn [bind]. rewrite (proj1 empty_column). cbn [bind].
    rewrite Et. cbn [bind]. rewrite (proj2 empty_column). cbn [bind].
    rewrite (strip_ink _ It). reflexivity.
  - intros N B I R.
    destruct (sorted_words_defined _ B) as (rw & Es & P).
    assert (Nr : rw <> []).
    { intros ->. apply Permutation_sym, Permutation_nil in P. contradiction. }
    destruct (words_to_text_ink rw Nr (Permutation_Forall P B) (Permutation_Forall P I))
      as (rt & Et & It).
    exists rw, rt. split; [exact Es|]. split; [exact Et|].
    unfold extract_page. fold (mid_of p).
    destruct (p_words p) as [|w ws] eqn:W; [congruence|].
    rewrite (filter_all _ _ _ R).
    rewrite (filter_none _ (fun x => float_lt (w_x0 x) (mid_of p))) by
      (revert R; apply Forall_impl; intros a; apply float_ge_not_lt).
    rewrite (proj1 empty_column). cbn [bind]. rewrite Es. cbn [bind].
    rewrite (proj2 empty_column). cbn [bind]. rewrite Et. cbn [bind].
    rewrite (strip_ink _ It). reflexivity.
  - intros text W Pl Nt.
    assert (E : extract_page p = Ok (Some text)).
    { unfold extract_page. rewrite W, Pl. unfold nonempty.
      destruct (String.eqb text "") eqn:Q; [|reflexivity].
      apply String.eqb_eq in Q. contradiction. }
    split; [exact E|].
    unfold extract_text_from_pdf. cbn [mapM]. rewrite E. reflexivity.
Qed.

(** A page with a sidebar only, one with a main column only, and one
    with a fallback text only. *)
Lemma page_sections_witness :
  let left_page :=
    {| p_width := float_lit 100;
       p_words := [tok "Python" 20 101; tok "Skills" 10 50; tok "SQL" 10 101];
       p_plain := None |} in
  let right_page :=
    {| p_width := float_lit 100;
       p_words := [tok "Engineer" 60 12; tok "Senior" 40 11];
       p_plain := None |} in
  let plain_page :=
    {| p_width := float_lit 100; p_words := [];
       p_plain := Some "plain text of the page" |} in
  (Forall (fun w => float_lt (w_x0 w) (mid_of left_page) = true) (p_words left_page) /\
   extract_page left_page
   = Ok (Some (sidebar_marker ++ "Skills" ++ nl ++ "SQL Python" ++ nl ++ nl)%string)) /\
  (Forall (fun w => float_ge (w_x0 w) (mid_of right_page) = true) (p_words right_page) /\
   extract_page right_page = Ok (Some (main_marker ++ "Senior Engineer")%string)) /\
  extract_page plain_page = Ok (Some "plain text of the page").
Proof.
  cbv zeta. split; [|split].
  - split; [repeat constructor|].
    destruct (proj1 (page_sections
        {| p_width := float_lit 100;
           p_words := [tok "Python" 20 101; tok "Skills" 10 50; tok "SQL" 10 101];
           p_plain := None |})) as (lw & lt & Es & Et & E).
    + discriminate.
    + repeat constructor; eexists; vm_compute; reflexivity.
    + repeat constructor.
    + repeat constructor.
    + vm_compute in Es. injection Es as <-. vm_compute in Et. injection Et as <-.
      exact E.
  - split; [repeat constructor|].
    destruct (proj1 (proj2 (page_sections
        {| p_width := float_lit 100;
           p_words := [tok "Engineer" 60 12; tok "Senior" 40 11];
           p_plain := None |}))) as (rw & rt & Es & Et & E).
    + discriminate.
    + repeat constructor; eexists; vm_compute; reflexivity.
    + repeat constructor.
    + repeat constructor.
    + vm_compute in Es. injection Es as <-. vm_compute in Et. injection Et as <-.
      exact E.
  - apply (proj2 (proj2 (page_sections
        {| p_width := float_lit 100; p_words := [];
           p_plain := Some "plain text of the page" |})));
      [reflexivity|reflexivity|discriminate].
Defined.
(** *** The bands *)

(** C5 as stated fails: the tops 101 and 103 are in the bands 100 and
    105, and the two words are put on two lines. *)
Lemma tops_101_103_counterexample :
  band (float_lit 101) = Ok 100 /\
  band (float_lit 103) = Ok 105 /\
  words_to_text [tok "a" 10 101; tok "b" 20 103] = Ok ("a" ++ nl ++ "b")%string /\
  words_to_text [tok "a" 10 101; tok "b" 20 103] <> Ok "a b".
Proof. vm_compute. repeat split. discriminate. Qed.

(** C5, amended: the band of a top is the multiple of 5 nearest to it.
    The tops 101 and 102 are in one band, 100, and their words are
    joined with a space; the tops 101 and 103 are in the bands 100 and
    105, as are 101 and 106, and their words are put on two lines. *)
Theorem bands_are_nearest_multiples_of_5 (a b : string) (xa xb : float) :
  band (float_lit 101) = Ok 100 /\
  band (float_lit 102) = Ok 100 /\
  band (float_lit 103) = Ok 105 /\
  band (float_lit 106) = Ok 105 /\
  words_to_text [word_at a xa 101; word_at b xb 102] = Ok (a ++ " " ++ b)%string /\
  words_to_text [word_at a xa 101; word_at b xb 103] = Ok (a ++ nl ++ b)%string /\
  words_to_text [word_at a xa 101; word_at b xb 106] = Ok (a ++ nl ++ b)%string.
Proof.
  assert (B1 : band (float_lit 101) = Ok 100) by (vm_compute; reflexivity).
  assert (B2 : band (float_lit 102) = Ok 100) by (vm_compute; reflexivity).
  assert (B3 : band (float_lit 103) = Ok 105) by (vm_compute; reflexivity).
  assert (B6 : band (float_lit 106) = Ok 105) by (vm_compute; reflexivity).
  repeat split; try assumption;
    unfold words_to_text, word_at; cbn [fold_result line_step w_top w_text];
    rewrite ?B1, ?B2, ?B3, ?B6; cbn [bind current_y lines current_line];
    rewrite ?B1, ?B2, ?B3, ?B6; cbn; reflexivity.
Qed.

(* ================================================================== *)
(** ** The keyword scorer: the keyword map and the report *)

Lemma get_count_word freq w w' :
  dict_get_default (count_word freq w) w' 0
  = dict_get_default freq w' 0 + (if String.eqb w' w then 1 else 0).
Proof.
  unfold count_word, dict_get_default at 1. rewrite dict_get_set.
  destruct (String.eqb w' w) eqn:E.
  - apply String.eqb_eq in E. now subst.
  - fold (dict_get_default freq w' 0). lia.
Qed.

Lemma get_fold_count ws : forall freq w,
  dict_get_default (fold_left count_word ws freq) w 0
  = dict_get_default freq w 0 + occurrences ws w.
Proof.
  unfold occurrences.
  induction ws as [|x ws IH]; intros freq w; cbn [fold_left count_occ]; [lia|].
  rewrite IH, get_count_word.
  destruct (string_dec x w) as [->|N].
  - rewrite String.eqb_refl. lia.
  - replace (String.eqb w x) with false
      by (symmetry; apply String.eqb_neq; congruence). lia.
Qed.

Lemma str_in_In w l : str_in w l = true <-> In w l.
Proof.
  unfold str_in. rewrite existsb_exists. split.
  - intros (x & Hx & E). apply String.eqb_eq in E. now subst.
  - intros H. exists w. split; [assumption|apply String.eqb_refl].
Qed.

Lemma first_occurrences_NoDup ws : NoDup (first_occurrences ws).
Proof.
  unfold first_occurrences.
  assert (G : forall acc, NoDup acc ->
            NoDup (fold_left (fun acc w => if str_in w acc then acc else acc ++ [w]) ws acc)).
  { induction ws as [|w ws IH]; intros acc H; cbn [fold_left]; [assumption|].
    apply IH. destruct (str_in w acc) eqn:E; [assumption|].
    apply NoDup_app; [assumption|repeat constructor; intros []|].
    intros x Hx [<-|[]]. apply str_in_In in Hx. congruence. }
  apply G. constructor.
Qed.

Lemma get_extract_keywords text w :
  dict_get (extract_keywords text) w
  = (if occurrences (keyword_list text) w =? 0 then None
     else Some (occurrences (keyword_list text) w)).
Proof.
  pose proof (get_fold_count (keyword_list text) [] w) as G.
  fold (extract_keywords text) in G. unfold dict_get_default in G.
  cbn [dict_get] in G.
  pose proof (extract_keywords_positive text) as P.
  destruct (dict_get (extract_keywords text) w) as [n|] eqn:E.
  - apply dict_get_In in E. unfold positive_counts in P.
    rewrite Forall_forall in P. specialize (P _ E). cbn [snd] in P.
    replace (occurrences (keyword_list text) w =? 0) with false
      by (symmetry; apply Z.eqb_neq; lia).
    f_equal. lia.
  - replace (occurrences (keyword_list text) w) with 0 by lia. reflexivity.
Qed.

Lemma get_extract_keywords_In text w n :
  dict_get (extract_keywords text) w = Some n ->
  In w (keyword_list text) /\ 1 <= n.
Proof.
  rewrite get_extract_keywords. unfold occurrences.
  destruct (Z.of_nat (count_occ string_dec (keyword_list text) w) =? 0) eqn:E;
    [discriminate|].
  apply Z.eqb_neq in E. intros [= <-]. split; [|lia].
  apply (count_occ_In string_dec). lia.
Qed.

(** X1: the keyword map of a text gives each kept word the number of its
    occurrences in the word list of the text, holds no word that does not
    occur, and holds no key twice. *)
Theorem keyword_count_is_occurrences text w :
  dict_get (extract_keywords text) w
  = (if occurrences (keyword_list text) w =? 0 then None
     else Some (occurrences (keyword_list text) w))
  /\ NoDup (map fst (extract_keywords text)).
Proof.
  split; [apply get_extract_keywords|].
  rewrite extract_keywords_order. apply first_occurrences_NoDup.
Qed.

(** *** The shape of a keyword *)

Lemma rev_string_forallb q cur : forall acc,
  forallb q cur = true -> str_forallb q acc = true ->
  str_forallb q (fold_left (fun a c => String c a) cur acc) = true.
Proof.
  induction cur as [|c cur IH]; intros acc Hc Ha; cbn [fold_left]; [assumption|].
  cbn [forallb] in Hc. apply andb_prop in Hc as [Hq Hc].
  apply IH; [assumption|]. cbn [str_forallb]. now rewrite Hq, Ha.
Qed.

Lemma split_ws_aux_forallb q s : forall cur,
  forallb q cur = true ->
  str_forallb (fun c => q c || is_space c) s = true ->
  Forall (fun w => str_forallb q w = true) (split_ws_aux cur s).
Proof.
  induction s as [|c s IH]; intros cur Hc Hs; cbn [split_ws_aux].
  - destruct cur; [constructor|]. constructor; [|constructor].
    unfold rev_string. now apply rev_string_forallb.
  - cbn [str_forallb] in Hs. apply andb_prop in Hs as [Hq Hs].
    destruct (is_space c) eqn:E.
    + destruct cur as [|c0 cur].
      * apply IH; [reflexivity|assumption].
      * constructor; [unfold rev_string; now apply rev_string_forallb|].
        apply IH; [reflexivity|assumption].
    + apply IH; [|assumption]. cbn [forallb]. rewrite orb_false_r in Hq.
      now rewrite Hq, Hc.
Qed.

Lemma clean_text_chars s :
  str_forallb (fun c => is_keyword_char c || is_space c) (str_map clean_char s) = true.
Proof.
  induction s as [|c s IH]; cbn [str_map str_forallb]; [reflexivity|].
  rewrite IH, andb_true_r. unfold clean_char, is_keyword_char.
  destruct (is_lower_az c || is_digit c || is_space c) eqn:E; [exact E|reflexivity].
Qed.

Lemma keyword_list_shape text w :
  In w (keyword_list text) ->
  2 < len w /\ str_forallb is_keyword_char w = true /\ str_in w stop_words = false.
Proof.
  unfold keyword_list. cbv zeta. rewrite filter_In. intros [Hin Hf].
  apply andb_prop in Hf as [Hs Hl]. apply Z.ltb_lt in Hl.
  apply negb_true_iff in Hs. split; [assumption|]. split; [|assumption].
  pose proof (split_ws_aux_forallb is_keyword_char
                (str_map clean_char (lower text)) [] eq_refl
                (clean_text_chars (lower text))) as F.
  rewrite Forall_forall in F. now apply F.
Qed.

(** X2: every key of the keyword map has at least three characters, all of
    them lower-case letters or digits, and is no stop word. *)
Theorem keywords_are_long_plain_and_not_stop_words text w n :
  dict_get (extract_keywords text) w = Some n ->
  3 <= len w /\
  str_forallb is_keyword_char w = true /\
  str_in w stop_words = false.
Proof.
  intros G. apply get_extract_keywords_In in G as [Hin _].
  apply keyword_list_shape in Hin as (L & C & S).
  split; [lia|]. split; assumption.
Qed.

Lemma keywords_are_long_plain_witness :
  dict_get (extract_keywords "The Quick-Brown fox, the fox!") "fox" = Some 2 /\
  3 <= len "fox" /\
  str_forallb is_keyword_char "fox" = true /\
  str_in "fox" stop_words = false.
Proof.
  split; [reflexivity|].
  apply (keywords_are_long_plain_and_not_stop_words
           "The Quick-Brown fox, the fox!" "fox" 2).
  reflexivity.
Defined.

(** *** Upper and lower case *)

Lemma lower_char_idem c : lower_char (lower_char c) = lower_char c.
Proof.
  destruct c as [[] [] [] [] [] [] [] []]; vm_compute; reflexivity.
Qed.

Lemma lower_idem s : lower (lower s) = lower s.
Proof.
  unfold lower. induction s as [|c s IH]; cbn [str_map]; [reflexivity|].
  now rewrite lower_char_idem, IH.
Qed.

Lemma extract_keywords_lower text :
  extract_keywords (lower text) = extract_keywords text.
Proof.
  unfold extract_keywords, keyword_list. cbv zeta. now rewrite lower_idem.
Qed.

(** X3: the report does not depend on the case of the letters: lowering the
    resume text, the job description or both changes nothing. *)
Theorem score_ignores_case cv_text job_description :
  compute_ats_score (lower cv_text) (lower job_description)
  = compute_ats_score cv_text job_description
  /\ compute_ats_score (lower cv_text) job_description
     = compute_ats_score cv_text job_description
  /\ compute_ats_score cv_text (lower job_description)
     = compute_ats_score cv_text job_description.
Proof.
  unfold compute_ats_score. now rewrite !extract_keywords_lower.
Qed.

Lemma tally_score_fold cvk l : forall t,
  t_score (fold_left (tally_step cvk) l t) = t_score t + matched_weight cvk l.
Proof.
  induction l as [|[w n] l IH]; intros t; cbn [fold_left matched_weight fold_right].
  - lia.
  - rewrite IH. fold (matched_weight cvk l). unfold tally_step. cbn [fst snd].
    destruct (dict_get cvk w); cbn [t_score]; lia.
Qed.

Lemma In_firstn A n : forall (l : list A) x, In x (firstn n l) -> In x l.
Proof.
  induction n as [|n IH]; intros [|a l] x; cbn [firstn]; try contradiction.
  intros [->|H]; [now left|right; now apply IH].
Qed.

Lemma NoDup_firstn A n : forall (l : list A), NoDup l -> NoDup (firstn n l).
Proof.
  induction n as [|n IH]; intros [|a l] H; cbn [firstn]; try constructor.
  - inversion H; subst. intros Hin. apply In_firstn in Hin. contradiction.
  - inversion H; subst. now apply IH.
Qed.

Lemma NoDup_keys_filter A B (p : A * B -> bool) l :
  NoDup (map fst l) -> NoDup (map fst (filter p l)).
Proof.
  induction l as [|a l IH]; cbn [map filter]; [constructor|].
  intros H. inversion H as [|? ? Hn Hl]; subst.
  destruct (p a); [|now apply IH]. cbn [map]. constructor; [|now apply IH].
  intros Hin. apply Hn. apply in_map_iff in Hin as (x & E & Hx).
  apply filter_In in Hx as [Hx _]. apply in_map_iff. now exists x.
Qed.

Lemma In_dict_get V (d : dict V) k v :
  NoDup (map fst d) -> In (k, v) d -> dict_get d k = Some v.
Proof.
  induction d as [|[k' v'] d IH]; cbn [map fst In dict_get]; [contradiction|].
  intros H Hin. inversion H as [|? ? Hn Hd]; subst.
  destruct Hin as [[= -> ->]|Hin].
  - now rewrite String.eqb_refl.
  - destruct (String.eqb k k') eqn:E; [|now apply IH].
    apply String.eqb_eq in E. subst. exfalso. apply Hn.
    apply in_map_iff. now exists (k', v).
Qed.

Lemma dict_mem_In V (d : dict V) k : dict_mem d k = true <-> In k (map fst d).
Proof. rewrite dict_mem_keys. apply str_in_In. Qed.

Lemma top_keywords_sub jd kv :
  In kv (firstn 20 (sorted_desc (extract_keywords jd))) -> In kv (extract_keywords jd).
Proof.
  intros H. apply In_firstn in H.
  apply (Permutation_in _ (Permutation_sym (sorted_desc_perm _))) in H. exact H.
Qed.

Lemma top_keywords_NoDup jd :
  NoDup (map fst (firstn 20 (sorted_desc (extract_keywords jd)))).
Proof.
  rewrite <- firstn_map. apply NoDup_firstn.
  apply (Permutation_NoDup (Permutation_map fst (sorted_desc_perm _))).
  rewrite extract_keywords_order. apply first_occurrences_NoDup.
Qed.

(** X4: the scorer returns on every input; [matched] and [missing] have at
    most 10 words each, all of them keywords of the job description, those
    of [matched] present in the resume and those of [missing] absent from
    it, and no word is listed twice or in both lists. *)
Theorem report_lists_are_disjoint_and_short cv_text job_description :
  exists r,
    compute_ats_score cv_text job_description = Ok r /\
    (Datatypes.length (matched r) <= 10)%nat /\
    (Datatypes.length (missing r) <= 10)%nat /\
    (forall w, In w (matched r) ->
       dict_mem (extract_keywords job_description) w = true /\
       dict_mem (extract_keywords cv_text) w = true) /\
    (forall w, In w (missing r) ->
       dict_mem (extract_keywords job_description) w = true /\
       dict_mem (extract_keywords cv_text) w = false) /\
    NoDup (matched r ++ missing r).
Proof.
  destruct (compute_ats_score_spec cv_text job_description) as (z & _ & E).
  cbv zeta in E. eexists. split; [exact E|]. cbn [matched missing].
  set (cvk := extract_keywords cv_text) in *.
  set (top := firstn 20 (sorted_desc (extract_keywords job_description))) in *.
  assert (M : forall p w, In w (firstn 10 (map fst (filter p top))) ->
              exists kv, fst kv = w /\ In kv top /\ p kv = true).
  { intros p w H. apply In_firstn in H. apply in_map_iff in H as (kv & F & H).
    apply filter_In in H as [H1 H2]. now exists kv. }
  assert (J : forall kv, In kv top ->
              dict_mem (extract_keywords job_description) (fst kv) = true).
  { intros kv H. apply top_keywords_sub in H. apply dict_mem_In.
    apply in_map_iff. now exists kv. }
  split; [apply firstn_le_length|]. split; [apply firstn_le_length|].
  split; [|split].
  - intros w H. apply M in H as (kv & <- & Hin & P). split; [now apply J|exact P].
  - intros w H. apply M in H as (kv & <- & Hin & P). split; [now apply J|].
    now apply negb_true_iff in P.
  - apply NoDup_app.
    + apply NoDup_firstn, NoDup_keys_filter, top_keywords_NoDup.
    + apply NoDup_firstn, NoDup_keys_filter, top_keywords_NoDup.
    + intros w H1 H2.
      apply M in H1 as (kv1 & <- & _ & P1). apply M in H2 as (kv2 & F & _ & P2).
      apply negb_true_iff in P2. unfold in_cv in P1, P2. congruence.
Qed.

(** The scorer on a job description that has keywords: the percentage is
    taken of the matched weight in the total weight of the top keywords. *)
Lemma compute_ats_score_weights cv jd :
  extract_keywords jd <> [] ->
  let cvk := extract_keywords cv in
  let top := firstn 20 (sorted_desc (extract_keywords jd)) in
  0 < sum_counts top /\
  compute_ats_score cv jd
  = (z <- (q <- int_truediv (matched_weight cvk top) (sum_counts top) ;;
           int_of_float (float_mul q (float_lit 100))) ;;
     Ok {| score := boosted z;
           matched := firstn 10 (map fst (filter (in_cv cvk) top));
           missing := firstn 10 (map fst (filter (fun kv => negb (in_cv cvk kv)) top)) |}).
Proof.
  intros N cvk top. unfold compute_ats_score. fold cvk.
  pose proof (extract_keywords_positive jd) as Pjd. subst top.
  destruct (extract_keywords jd) as [|kv0 rest] eqn:Ejd; [congruence|].
  set (jdk := kv0 :: rest) in *.
  set (top := firstn 20 (sorted_desc jdk)).
  assert (Ptop : positive_counts top).
  { apply firstn_positive.
    apply (Permutation_Forall (sorted_desc_perm jdk)). exact Pjd. }
  assert (Ntop : top <> []).
  { unfold top. pose proof (sorted_desc_nonempty jdk N) as N'.
    destruct (sorted_desc jdk); [congruence|discriminate]. }
  pose proof (tally_fold cvk top tally0) as (M & S & T). cbn zeta in M, S, T.
  pose proof (tally_score_fold cvk top tally0) as Sc.
  pose proof (sum_counts_positive top Ptop Ntop) as Pos.
  set (t := fold_left (tally_step cvk) top tally0) in *.
  cbn [tally0 t_total t_matched t_missing t_score app] in M, S, T, Sc.
  split; [assumption|].
  replace (0 <? t_total t) with true by (symmetry; apply Z.ltb_lt; lia).
  rewrite M, S, T, Sc. cbn [Z.add]. 
  destruct (int_truediv (matched_weight cvk top) (sum_counts top)) as [q|e];
    cbn [bind]; [|reflexivity].
  destruct (int_of_float (float_mul q (float_lit 100))); reflexivity.
Qed.

Lemma int_truediv_zero t : 0 < t -> int_truediv 0 t = Ok (S754_zero false).
Proof.
  intros H. unfold int_truediv.
  replace (t =? 0) with false by (symmetry; apply Z.eqb_neq; lia).
  destruct t; try lia. reflexivity.
Qed.

Lemma new_location_exact n : new_location n 0 = loc_Exact.
Proof. unfold new_location. destruct (Z.even n); reflexivity. Qed.

Lemma int_truediv_same a :
  0 < a -> int_truediv a a = Ok (S754_finite false 4503599627370496 (-52)).
Proof.
  intros H. unfold int_truediv.
  replace (a =? 0) with false by (symmetry; apply Z.eqb_neq; lia).
  destruct a as [|p|p]; try lia.
  cbn [Z2SF SFdiv xorb]. unfold SFdiv_core_binary.
  replace (Zdigits2 (Z.pos p) + 0 - (Zdigits2 (Z.pos p) + 0)) with 0 by lia.
  change (Z.min (fexp prec emax 0) (0 - 0)) with (-53).
  change (0 - 0 - -53) with 53. cbv iota.
  assert (E : Z.div_eucl (Z.shiftl (Z.pos p) 53) (Z.pos p) = (2 ^ 53, 0)).
  { rewrite Z.shiftl_mul_pow2 by lia.
    replace (Z.pos p * 2 ^ 53) with (2 ^ 53 * Z.pos p) by lia.
    pose proof (Z.div_mul (2 ^ 53) (Z.pos p) ltac:(lia)) as D.
    pose proof (Z.mod_mul (2 ^ 53) (Z.pos p) ltac:(lia)) as R.
    unfold Z.div in D. unfold Z.modulo in R.
    destruct (Z.div_eucl (2 ^ 53 * Z.pos p) (Z.pos p)) as [q r].
    now subst. }
  rewrite E, new_location_exact. reflexivity.
Qed.

Lemma matched_weight_none cvk l :
  (forall kv, In kv l -> dict_mem cvk (fst kv) = false) ->
  matched_weight cvk l = 0 /\ filter (in_cv cvk) l = [] /\
  filter (fun kv => negb (in_cv cvk kv)) l = l.
Proof.
  induction l as [|kv l IH]; intros H; cbn [matched_weight fold_right filter];
    [repeat split|].
  fold (matched_weight cvk l).
  destruct (IH (fun x Hx => H x (or_intror Hx))) as (W & F & G).
  pose proof (H kv (or_introl eq_refl)) as K.
  change (in_cv cvk kv) with (dict_mem cvk (fst kv)).
  rewrite K. cbn [negb]. rewrite F, G, W.
  unfold dict_mem in K. destruct (dict_get cvk (fst kv)); [discriminate|].
  split; [reflexivity|split; reflexivity].
Qed.

Lemma matched_weight_all cvk l :
  (forall kv, In kv l -> exists c, dict_get cvk (fst kv) = Some c /\ snd kv <= c) ->
  matched_weight cvk l = sum_counts l /\ filter (in_cv cvk) l = l /\
  filter (fun kv => negb (in_cv cvk kv)) l = [].
Proof.
  induction l as [|kv l IH]; intros H; cbn [matched_weight sum_counts fold_right filter];
    [repeat split|].
  fold (matched_weight cvk l). fold (sum_counts l).
  destruct (IH (fun x Hx => H x (or_intror Hx))) as (W & F & G).
  destruct (H kv (or_introl eq_refl)) as (c & K & L).
  change (in_cv cvk kv) with (dict_mem cvk (fst kv)).
  unfold dict_mem. rewrite K. cbn [negb]. rewrite F, G, W.
  split; [lia|]. split; reflexivity.
Qed.

(** X5: when the resume has none of the keywords of the job description the
    score is 0, [matched] is empty and [missing] lists the first 10 of the
    ranking. *)
Theorem no_common_keyword_scores_zero cv_text job_description :
  (forall w, dict_mem (extract_keywords job_description) w = true ->
             dict_mem (extract_keywords cv_text) w = false) ->
  compute_ats_score cv_text job_description
  = Ok {| score := 0;
          matched := [];
          missing := firstn 10 (map fst (firstn 20
                       (sorted_desc (extract_keywords job_description)))) |}.
Proof.
  intros H.
  destruct (extract_keywords job_description) as [|kv0 rest] eqn:E.
  - unfold compute_ats_score. rewrite E. reflexivity.
  - rewrite <- E in *.
    assert (N : extract_keywords job_description <> []) by (rewrite E; discriminate).
    destruct (compute_ats_score_weights cv_text job_description N) as (P & ->).
    destruct (matched_weight_none (extract_keywords cv_text)
                (firstn 20 (sorted_desc (extract_keywords job_description))))
      as (W & F & G).
    { intros kv Hin. apply H. apply dict_mem_In. apply top_keywords_sub in Hin.
      apply in_map_iff. now exists kv. }
    rewrite W, F, G, (int_truediv_zero _ P). reflexivity.
Qed.

Lemma no_common_keyword_witness :
  compute_ats_score "I bake bread and cakes" "python java python"
  = Ok {| score := 0; matched := []; missing := ["python"; "java"] |}.
Proof.
  apply (no_common_keyword_scores_zero "I bake bread and cakes" "python java python").
  assert (J : extract_keywords "python java python" = [("python", 2); ("java", 1)])
    by reflexivity.
  intros w. rewrite J. unfold dict_mem at 1. cbn [dict_get].
  destruct (String.eqb_spec w "python") as [->|_]; [reflexivity|].
  destruct (String.eqb_spec w "java") as [->|_]; [reflexivity|discriminate].
Defined.

(** X6: when the job description has a keyword and the resume has every
    keyword of the job description at least as often, the score is 100,
    [missing] is empty and [matched] lists the first 10 of the ranking. *)
Theorem full_coverage_scores_100 cv_text job_description :
  extract_keywords job_description <> [] ->
  (forall w n, dict_get (extract_keywords job_description) w = Some n ->
               exists c, dict_get (extract_keywords cv_text) w = Some c /\ n <= c) ->
  compute_ats_score cv_text job_description
  = Ok {| score := 100;
          matched := firstn 10 (map fst (firstn 20
                       (sorted_desc (extract_keywords job_description))));
          missing := [] |}.
Proof.
  intros N H.
  destruct (compute_ats_score_weights cv_text job_description N) as (P & ->).
  destruct (matched_weight_all (extract_keywords cv_text)
              (firstn 20 (sorted_desc (extract_keywords job_description))))
    as (W & F & G).
  { intros [w n] Hin. cbn [fst snd]. apply H. apply top_keywords_sub in Hin.
    apply In_dict_get; [|assumption].
    rewrite extract_keywords_order. apply first_occurrences_NoDup. }
  rewrite W, F, G, (int_truediv_same _ P). reflexivity.
Qed.

Lemma full_coverage_witness :
  compute_ats_score "Python, SQL and more Python: python!" "python sql python"
  = Ok {| score := 100; matched := ["python"; "sql"]; missing := [] |}.
Proof.
  apply (full_coverage_scores_100 "Python, SQL and more Python: python!"
           "python sql python").
  - discriminate.
  - assert (J : extract_keywords "python sql python" = [("python", 2); ("sql", 1)])
      by reflexivity.
    intros w n. rewrite J. cbn [dict_get].
    destruct (String.eqb_spec w "python") as [->|_].
    + intros [= <-]. exists 3. split; [reflexivity|discriminate].
    + destruct (String.eqb_spec w "sql") as [->|_]; [|discriminate].
      intros [= <-]. exists 1. split; [reflexivity|discriminate].
Defined.

(* ================================================================== *)
(** ** The schema normaliser: errors, keys and coercions *)

Lemma py_int_overflow v :
  py_int v = Raise OverflowError ->
  exists s, v = JFloat (S754_infinity s).
Proof.
  destruct v as [|b|z|f|s|l|d]; cbn [py_int]; try discriminate.
  - destruct f; cbn [int_of_float]; try discriminate. intros _. eauto.
  - intros H. apply int_of_string_raises in H. discriminate.
Qed.

Lemma normalize_lang_raises lang :
  match normalize_lang lang with
  | Ok _ => inf_percent (JDict lang) = false
  | Raise e => e = OverflowError /\ inf_percent (JDict lang) = true
  end.
Proof.
  unfold normalize_lang, dict_getitem. rewrite !dict_get_setdefault.
  cbn [String.eqb Ascii.eqb Bool.eqb bind]. unfold dict_get_default at 1.
  rewrite !dict_get_setdefault. cbn [String.eqb Ascii.eqb Bool.eqb].
  cbn [inf_percent].
  destruct (dict_get lang "percent") as [v|]; [|reflexivity].
  destruct (py_int v) as [z|e] eqn:E; cbn [percent_or_50 bind].
  - destruct v as [| | |[]| | |]; try reflexivity. discriminate.
  - pose proof (py_int_raises v e E) as [->|[->| ->]]; cbn [bind].
    + destruct v as [| | |[]| | |]; try reflexivity; discriminate.
    + destruct v as [| | |[]| | |]; try reflexivity; discriminate.
    + apply py_int_overflow in E as [s ->]. split; reflexivity.
Qed.

Lemma normalize_langs_raises langs :
  match normalize_langs langs with
  | Ok _ => existsb inf_percent langs = false
  | Raise e => e = OverflowError /\ existsb inf_percent langs = true
  end.
Proof.
  induction langs as [|lang rest IH]; cbn [normalize_langs existsb]; [reflexivity|].
  destruct lang as [|b|z|f|s|l|d]; try exact IH.
  - cbn [inf_percent orb]. destruct (normalize_langs rest); cbn [bind]; exact IH.
  - pose proof (normalize_lang_raises d) as L.
    destruct (normalize_lang d) as [l'|e]; cbn [bind].
    + rewrite L. cbn [orb]. destruct (normalize_langs rest); cbn [bind]; exact IH.
    + destruct L as [-> ->]. split; reflexivity.
Qed.

Lemma get_set_name_title d k :
  dict_get (set_name_title d) k
  = if String.eqb k "summary" then Some (dict_get_default
         (dict_setdefault (dict_setdefault d "name" (JStr "Candidate"))
            "title" (JStr "Professional")) "summary" (JStr ""))
    else if String.eqb k "title" then Some (dict_get_default
         (dict_setdefault d "name" (JStr "Candidate")) "title" (JStr "Professional"))
    else if String.eqb k "name" then Some (dict_get_default d "name" (JStr "Candidate"))
    else dict_get d k.
Proof. unfold set_name_title. cbv zeta. now rewrite !dict_get_setdefault. Qed.

Lemma languages_before_set d :
  dict_get_default (set_contact (set_name_title d)) "languages" (JList [])
  = dict_get_default d "languages" (JList []).
Proof.
  unfold dict_get_default. now rewrite get_set_contact, get_set_name_title.
Qed.

(** The only error that the normaliser lets through, and when. *)
Lemma normalize_outcome data :
  match normalize_resume_data data with
  | Ok _ => existsb inf_percent (languages_of data) = false
  | Raise e => e = OverflowError /\ existsb inf_percent (languages_of data) = true
  end.
Proof.
  unfold normalize_resume_data, languages_of. cbv zeta.
  generalize (as_dict data) as d0. intros d0.
  unfold set_languages. cbv zeta. rewrite languages_before_set.
  pose proof (normalize_langs_raises
                (as_list (dict_get_default d0 "languages" (JList [])))) as L.
  destruct (normalize_langs (as_list (dict_get_default d0 "languages" (JList []))));
    cbn [bind]; exact L.
Qed.

Lemma normalize_returns data :
  existsb inf_percent (languages_of data) = false ->
  exists y, normalize_resume_data data = Ok y.
Proof.
  intros H. pose proof (normalize_outcome data) as O.
  destruct (normalize_resume_data data) as [y|e]; [now exists y|].
  destruct O as [_ O]. congruence.
Qed.

(** X7: the normaliser raises exactly when the input is an object whose
    [languages] list has an object entry with an infinite float as
    [percent], and the error is then [OverflowError]; on every other input
    it returns a record. *)
Theorem normalize_raises_exactly_on_infinite_percent data :
  (normalize_resume_data data = Raise OverflowError
   <-> existsb inf_percent (languages_of data) = true) /\
  ((exists y, normalize_resume_data data = Ok y)
   <-> existsb inf_percent (languages_of data) = false).
Proof.
  pose proof (normalize_outcome data) as O.
  destruct (normalize_resume_data data) as [y|e].
  - split; split; intros H; try congruence. now exists y.
  - destruct O as [-> O]. split; split; intros H; try congruence.
    destruct H as [y H]. discriminate.
Qed.

(** *** The keys of the result *)

Lemma keys_set V (d : dict V) k v : map fst (dict_set d k v) = add_key (map fst d) k.
Proof. unfold add_key. now rewrite keys_dict_set, dict_mem_keys. Qed.

Lemma keys_setdefault V (d : dict V) k v :
  map fst (dict_setdefault d k v) = add_key (map fst d) k.
Proof.
  unfold dict_setdefault. destruct (dict_get d k) eqn:G; [|apply keys_set].
  unfold add_key. rewrite <- dict_mem_keys. unfold dict_mem. now rewrite G.
Qed.

Lemma str_in_app k l l' : str_in k (l ++ l') = str_in k l || str_in k l'.
Proof. unfold str_in. apply existsb_app. Qed.

Lemma fold_add_key ks : forall l,
  NoDup ks ->
  fold_left add_key ks l = l ++ filter (fun k => negb (str_in k l)) ks.
Proof.
  induction ks as [|k ks IH]; intros l N; cbn [fold_left filter].
  - now rewrite app_nil_r.
  - inversion N as [|? ? Hk Hks]; subst. rewrite (IH _ Hks). unfold add_key.
    destruct (str_in k l) eqn:E; cbn [negb]; [reflexivity|].
    rewrite <- app_assoc. cbn [app]. do 2 f_equal.
    apply filter_ext_in. intros k' Hin. rewrite str_in_app. cbn [str_in existsb].
    replace (String.eqb k' k) with false; [now rewrite !orb_false_r|].
    symmetry. apply String.eqb_neq. intros ->. contradiction.
Qed.

Lemma field_names_NoDup : NoDup field_names.
Proof.
  unfold field_names.
  repeat (constructor; [cbn [In]; intros H;
    repeat (destruct H as [H|H]; [discriminate H|]); exact H|]).
  constructor.
Qed.

Lemma keys_of_record d0 :
  match normalize_resume_data (JDict d0) with
  | Ok y => map fst (as_dict y) = fold_left add_key field_names (map fst d0)
  | Raise _ => True
  end.
Proof.
  unfold normalize_resume_data. cbv zeta. cbn [as_dict].
  pose proof (set_languages_spec (set_contact (set_name_title d0))) as L.
  destruct (set_languages (set_contact (set_name_title d0))) as [d'|e];
    cbn [bind]; [|exact I].
  destruct L as (langs & _ & ->). cbn [as_dict].
  unfold set_additional_info, set_interests, set_education, set_experience,
    set_skills, set_certifications, set_contact, set_name_title. cbv zeta.
  rewrite !keys_set, !keys_setdefault. reflexivity.
Qed.

Lemma foreign_key_kept d0 k :
  str_in k field_names = false ->
  match normalize_resume_data (JDict d0) with
  | Ok y => dict_get (as_dict y) k = dict_get d0 k
  | Raise _ => True
  end.
Proof.
  intros F. unfold normalize_resume_data. cbv zeta. cbn [as_dict].
  pose proof (set_languages_spec (set_contact (set_name_title d0))) as L.
  destruct (set_languages (set_contact (set_name_title d0))) as [d'|e];
    cbn [bind]; [|exact I].
  destruct L as (langs & _ & ->). cbn [as_dict].
  unfold str_in, field_names in F. cbn [existsb] in F.
  repeat (apply orb_false_elim in F as [? F]).
  rewrite get_set_additional_info, get_set_interests, get_set_education,
    get_set_experience, get_set_skills, get_set_certifications, dict_get_set,
    get_set_contact, get_set_name_title.
  repeat match goal with
         | H : String.eqb k _ = false |- _ => rewrite H; clear H
         end.
  reflexivity.
Qed.

Lemma normalize_is_object data :
  match normalize_resume_data data with
  | Ok y => exists d, y = JDict d
  | Raise _ => True
  end.
Proof.
  unfold normalize_resume_data. cbv zeta.
  destruct (set_languages (set_contact (set_name_title (as_dict data))));
    cbn [bind]; [|exact I].
  eexists. reflexivity.
Qed.

(** X8: when no language entry has an infinite percent, the normaliser
    returns a record that has the keys of the input object in their order,
    followed by the missing fields of the resume record in the order of the
    code; a key that is no field of the resume record keeps its value. *)
Theorem normalize_keeps_keys_and_appends_missing data :
  existsb inf_percent (languages_of data) = false ->
  exists y,
    normalize_resume_data data = Ok (JDict y) /\
    map fst y
    = map fst (as_dict data)
      ++ filter (fun k => negb (dict_mem (as_dict data) k)) field_names /\
    (forall k, str_in k field_names = false ->
               dict_get y k = dict_get (as_dict data) k).
Proof.
  intros H. destruct (normalize_returns data H) as [y E].
  assert (E' : normalize_resume_data data = normalize_resume_data (JDict (as_dict data)))
    by reflexivity.
  pose proof (keys_of_record (as_dict data)) as K.
  pose proof (foreign_key_kept (as_dict data)) as F.
  pose proof (normalize_is_object data) as D.
  rewrite <- E' in K, F. rewrite E in K, F, D. destruct D as [d ->].
  exists d. split; [exact E|]. cbn [as_dict] in K, F. split.
  - rewrite K, (fold_add_key _ _ field_names_NoDup).
    f_equal. apply filter_ext. intros k. now rewrite dict_mem_keys.
  - exact F.
Qed.

Lemma normalize_keeps_keys_witness :
  exists y,
    normalize_resume_data (JDict [("title", JInt 7); ("cover_letter", JStr "Dear")])
    = Ok (JDict y) /\
    map fst y
    = ["title"; "cover_letter"; "name"; "summary"; "contact"; "languages";
       "certifications"; "skills"; "experience"; "education"; "interests";
       "additional_info"] /\
    dict_get y "cover_letter" = Some (JStr "Dear").
Proof.
  destruct (normalize_keeps_keys_and_appends_missing
              (JDict [("title", JInt 7); ("cover_letter", JStr "Dear")]))
    as (y & E & K & F); [reflexivity|].
  exists y. split; [exact E|]. split; [exact K|].
  now rewrite (F "cover_letter").
Defined.

(** X9: an input that is not an object, or the empty object, gives the
    record of the defaults. *)
Theorem non_object_gives_default_record data :
  as_dict data = [] -> normalize_resume_data data = Ok default_record.
Proof.
  intros H. unfold normalize_resume_data. cbv zeta. rewrite H. reflexivity.
Qed.

Lemma non_object_gives_default_record_witness :
  normalize_resume_data (JList [JStr "not"; JStr "an"; JStr "object"])
  = Ok default_record
  /\ normalize_resume_data JNull = Ok default_record
  /\ normalize_resume_data (JStr "text") = Ok default_record.
Proof.
  split; [|split]; apply non_object_gives_default_record; reflexivity.
Defined.

(** *** Skills given as a mapping, languages given as names *)

Lemma normalize_skills_of_dict m :
  flat_map normalize_skill (skills_of_dict m) = map skill_group_of m.
Proof.
  induction m as [|[k v] m IH]; cbn [skills_of_dict map flat_map]; [reflexivity|].
  fold (skills_of_dict m). rewrite IH. cbn [app]. f_equal.
  unfold normalize_skill, skill_group_of, dict_get_default.
  cbn [dict_get String.eqb Ascii.eqb Bool.eqb py_str].
  destruct v; reflexivity.
Qed.

Lemma skills_before_set d :
  dict_get_default
    (set_certifications (dict_set (set_contact (set_name_title d)) "languages"
                          (JList [])))
    "skills" (JList [])
  = dict_get_default d "skills" (JList []).
Proof.
  unfold dict_get_default.
  now rewrite get_set_certifications, dict_get_set, get_set_contact, get_set_name_title.
Qed.

(** X10: when no language entry has an infinite percent, a [skills] value
    that is a mapping becomes the list of one group per pair, in the order
    of the mapping: the key is the category, the value gives the items, each
    turned into its string, a value that is no list counting as one item. *)
Theorem skills_mapping_becomes_groups data m :
  dict_get (as_dict data) "skills" = Some (JDict m) ->
  existsb inf_percent (languages_of data) = false ->
  exists y,
    normalize_resume_data data = Ok y /\
    dict_get (as_dict y) "skills" = Some (JList (map skill_group_of m)).
Proof.
  intros G H. destruct (normalize_returns data H) as [y E].
  exists y. split; [exact E|]. revert E.
  unfold normalize_resume_data. cbv zeta.
  revert G. generalize (as_dict data) as d0. intros d0 G.
  pose proof (set_languages_spec (set_contact (set_name_title d0))) as L.
  destruct (set_languages (set_contact (set_name_title d0))) as [d'|e];
    cbn [bind]; [|discriminate].
  destruct L as (langs & _ & ->). intros [= <-]. cbn [as_dict].
  rewrite get_set_additional_info, get_set_interests, get_set_education,
    get_set_experience, get_set_skills.
  cbn [String.eqb Ascii.eqb Bool.eqb].
  unfold dict_get_default.
  rewrite get_set_certifications, dict_get_set, get_set_contact, get_set_name_title.
  cbn [String.eqb Ascii.eqb Bool.eqb]. rewrite G.
  now rewrite normalize_skills_of_dict.
Qed.

Lemma skills_mapping_witness :
  exists y,
    normalize_resume_data
      (JDict [("skills", JDict [("Tech", JList [JStr "Go"; JStr "Rust"]);
                                ("Years", JInt 5)])]) = Ok y /\
    dict_get (as_dict y) "skills"
    = Some (JList [JDict [("category", JStr "Tech");
                          ("items", JList [JStr "Go"; JStr "Rust"])];
                   JDict [("category", JStr "Years");
                          ("items", JList [JStr "5"])]]).
Proof.
  apply (skills_mapping_becomes_groups
           (JDict [("skills", JDict [("Tech", JList [JStr "Go"; JStr "Rust"]);
                                     ("Years", JInt 5)])])
           [("Tech", JList [JStr "Go"; JStr "Rust"]); ("Years", JInt 5)]);
    reflexivity.
Defined.

Lemma normalize_langs_names names :
  normalize_langs (map JStr names) = Ok (map language_of_name names).
Proof.
  induction names as [|n names IH]; cbn [map normalize_langs]; [reflexivity|].
  now rewrite IH.
Qed.

(** X11: a [languages] list of plain names becomes the list of one entry per
    name, with level Proficient and percent 70. *)
Theorem language_names_become_entries data names :
  dict_get (as_dict data) "languages" = Some (JList (map JStr names)) ->
  exists y,
    normalize_resume_data data = Ok y /\
    dict_get (as_dict y) "languages" = Some (JList (map language_of_name names)).
Proof.
  intros G. unfold normalize_resume_data. cbv zeta.
  revert G. generalize (as_dict data) as d0. intros d0 G.
  unfold set_languages. cbv zeta. rewrite languages_before_set.
  unfold dict_get_default at 1. rewrite G. cbn [as_list].
  rewrite normalize_langs_names. cbn [bind]. eexists. split; [reflexivity|].
  cbn [as_dict].
  rewrite get_set_additional_info, get_set_interests, get_set_education,
    get_set_experience, get_set_skills, get_set_certifications, dict_get_set.
  reflexivity.
Qed.

Lemma language_names_witness :
  exists y,
    normalize_resume_data (JDict [("languages", JList [JStr "French"; JStr "Arabic"])])
    = Ok y /\
    dict_get (as_dict y) "languages"
    = Some (JList [language_of_name "French"; language_of_name "Arabic"]).
Proof.
  apply (language_names_become_entries
           (JDict [("languages", JList [JStr "French"; JStr "Arabic"])])
           ["French"; "Arabic"]).
  reflexivity.
Defined.

Lemma str_list_texts v : str_list v = texts_of v.
Proof.
  unfold str_list, texts_of.
  destruct v; try reflexivity; cbv zeta;
    match goal with |- context [truthy ?x] => destruct (truthy x) end; reflexivity.
Qed.

Lemma text_field_of_record d0 langs f :
  In f text_fields ->
  dict_get
    (set_additional_info (set_interests (set_education (set_experience
       (set_skills (set_certifications
          (dict_set (set_contact (set_name_title d0)) "languages" (JList langs))))))))
    f
  = Some (JList (texts_of (dict_get_default d0 f (JList [])))).
Proof.
  intros [<-|[<-|[<-|[]]]];
    rewrite get_set_additional_info; cbn [String.eqb Ascii.eqb Bool.eqb];
    unfold dict_get_default;
    rewrite ?get_set_interests; cbn [String.eqb Ascii.eqb Bool.eqb];
    unfold dict_get_default;
    rewrite ?get_set_education, ?get_set_experience, ?get_set_skills,
      ?get_set_certifications; cbn [String.eqb Ascii.eqb Bool.eqb];
    unfold dict_get_default;
    rewrite ?get_set_education, ?get_set_experience, ?get_set_skills,
      ?get_set_certifications, ?dict_get_set, ?get_set_contact, ?get_set_name_title;
    cbn [String.eqb Ascii.eqb Bool.eqb];
    rewrite ?dict_get_set, ?get_set_contact, ?get_set_name_title;
    cbn [String.eqb Ascii.eqb Bool.eqb];
    now rewrite str_list_texts.
Qed.

(** X12: when no language entry has an infinite percent, the normaliser
    returns a record whose [certifications], [interests] and
    [additional_info] depend on the input field of the same name only: a
    list gives the strings of its entries, any other value its string as the
    one entry when it is truthy, and no entry when it is falsy or absent. *)
Theorem text_fields_become_lists_of_texts data f :
  In f text_fields ->
  existsb inf_percent (languages_of data) = false ->
  exists y,
    normalize_resume_data data = Ok y /\
    dict_get (as_dict y) f
    = Some (JList (texts_of (dict_get_default (as_dict data) f (JList [])))).
Proof.
  intros Hf H. destruct (normalize_returns data H) as [y E].
  exists y. split; [exact E|]. revert E.
  unfold normalize_resume_data. cbv zeta.
  generalize (as_dict data) as d0. intros d0.
  pose proof (set_languages_spec (set_contact (set_name_title d0))) as L.
  destruct (set_languages (set_contact (set_name_title d0))) as [d'|e];
    cbn [bind]; [|discriminate].
  destruct L as (langs & _ & ->). intros [= <-]. cbn [as_dict].
  now apply text_field_of_record.
Qed.

Lemma text_fields_witness :
  exists y,
    normalize_resume_data
      (JDict [("certifications", JStr "AWS"); ("interests", JInt 0);
              ("additional_info", JList [JInt 7; JBool true; JNull])]) = Ok y /\
    dict_get (as_dict y) "certifications" = Some (JList [JStr "AWS"]) /\
    dict_get (as_dict y) "interests" = Some (JList []) /\
    dict_get (as_dict y) "additional_info"
    = Some (JList [JStr "7"; JStr "True"; JStr "None"]).
Proof.
  destruct (text_fields_become_lists_of_texts
              (JDict [("certifications", JStr "AWS"); ("interests", JInt 0);
                      ("additional_info", JList [JInt 7; JBool true; JNull])])
              "certifications") as (y & E & C); [now left|reflexivity|].
  exists y. split; [exact E|]. split; [exact C|].
  vm_compute in E. injection E as <-. split; reflexivity.
Defined.

(* ================================================================== *)
(** ** The repair step: what each attempt decodes *)

Section Stars.
Variable R : Type.
Variable p : ascii -> bool.
Variable k : string -> option string -> option R.

Lemma rmatch_star_nil cap : rmatch (RStar (RSet p)) "" cap k = k "" cap.
Proof. reflexivity. Qed.

Lemma rmatch_star_cons c s cap :
  rmatch (RStar (RSet p)) (String c s) cap k
  = if p c then or_else (rmatch (RStar (RSet p)) s cap k) (k (String c s) cap)
    else k (String c s) cap.
Proof.
  cbn [rmatch String.length]. destruct (p c); [|reflexivity].
  replace (String.length s <? S (String.length s))%nat with true
    by (symmetry; apply Nat.ltb_lt; lia).
  reflexivity.
Qed.

Lemma rmatch_lazy_nil cap : rmatch (RLazyStar (RSet p)) "" cap k = k "" cap.
Proof. reflexivity. Qed.

Lemma rmatch_lazy_cons c s cap :
  rmatch (RLazyStar (RSet p)) (String c s) cap k
  = or_else (k (String c s) cap)
      (if p c then rmatch (RLazyStar (RSet p)) s cap k else None).
Proof.
  cbn [rmatch String.length]. destruct (p c); [|reflexivity].
  replace (String.length s <? S (String.length s))%nat with true
    by (symmetry; apply Nat.ltb_lt; lia).
  reflexivity.
Qed.
End Stars.

Lemma str_length_app a b : String.length (a ++ b) = (String.length a + String.length b)%nat.
Proof. induction a as [|c a IH]; cbn [append String.length]; [reflexivity|]. now rewrite IH. Qed.

Lemma str_app_assoc (a b c : string) : ((a ++ b) ++ c = a ++ (b ++ c))%string.
Proof. induction a as [|x a IH]; cbn [append]; [reflexivity|]. now rewrite IH. Qed.

Lemma str_app_nil_r (a : string) : (a ++ "")%string = a.
Proof. induction a as [|x a IH]; cbn [append]; [reflexivity|]. now rewrite IH. Qed.

Lemma prefix_of_app a b :
  prefix_of (a ++ b) (String.length (a ++ b) - String.length b) = a.
Proof.
  rewrite str_length_app. replace (String.length a + String.length b - String.length b)%nat
    with (String.length a) by lia.
  unfold prefix_of. induction a as [|c a IH]; cbn [append String.length substring].
  - destruct b; reflexivity.
  - now rewrite IH.
Qed.

Lemma lacks_cons c c' s :
  lacks c (String c' s) = negb (Ascii.eqb c c') && lacks c s.
Proof. unfold lacks. cbn [str_existsb]. now rewrite negb_orb. Qed.

Lemma lacks_app c a b : lacks c (a ++ b) = lacks c a && lacks c b.
Proof.
  induction a as [|c' a IH]; cbn [append]; [reflexivity|].
  now rewrite !lacks_cons, IH, andb_assoc.
Qed.

(** *** The brace span *)

Section Brace.
Variable R : Type.
Variable k : string -> option string -> option R.

Lemma star_finds_no_brace t cap :
  lacks "}" t = true -> rmatch (RStar any_char) t cap (close_then R k) = None.
Proof.
  unfold any_char. induction t as [|c t IH]; intros H.
  - reflexivity.
  - rewrite rmatch_star_cons. rewrite lacks_cons in H. apply andb_prop in H as [Hc Ht].
    rewrite (IH Ht). cbn [or_else close_then rmatch].
    apply negb_true_iff in Hc. now rewrite Hc.
Qed.

Lemma star_finds_last_brace body post cap x :
  lacks "}" post = true -> k post cap = Some x ->
  rmatch (RStar any_char) (body ++ String "}" post) cap (close_then R k) = Some x.
Proof.
  intros Hp Hk. unfold any_char. induction body as [|c body IH]; cbn [append].
  - rewrite rmatch_star_cons. fold any_char. rewrite (star_finds_no_brace _ _ Hp).
    cbn [or_else close_then rmatch Ascii.eqb Bool.eqb]. exact Hk.
  - rewrite rmatch_star_cons. rewrite IH. reflexivity.
Qed.
End Brace.

Lemma rmatch_brace_open R (k : string -> option string -> option R) s cap :
  rmatch brace_re (String "{" s) cap k
  = rmatch (RStar any_char) s cap (close_then R k).
Proof. reflexivity. Qed.

Lemma match_here_brace body post :
  lacks "}" post = true ->
  match_here brace_re (String "{" (body ++ String "}" post))
  = Some {| group0 := String "{" (body ++ "}"); group1 := None; after := post |}.
Proof.
  intros Hp. unfold match_here. rewrite rmatch_brace_open.
  erewrite (star_finds_last_brace _ _ body post None); [reflexivity|assumption|].
  f_equal. f_equal.
  replace (String "{" (body ++ String "}" post))
    with ((String "{" (body ++ "}")) ++ post)%string.
  - apply prefix_of_app.
  - cbn [append]. f_equal. rewrite str_app_assoc. reflexivity.
Qed.

Lemma match_here_brace_fails c s :
  Ascii.eqb "{" c = false -> match_here brace_re (String c s) = None.
Proof.
  intros H. unfold match_here, brace_re.
  change (rmatch (RSeq (RChar "{") ?r) (String c s) None ?k)
    with (if Ascii.eqb "{" c then rmatch r s None k else None).
  now rewrite H.
Qed.

Lemma re_search_brace pre body post :
  lacks "{" pre = true -> lacks "}" post = true ->
  re_search brace_re (pre ++ String "{" (body ++ String "}" post))
  = Some {| group0 := String "{" (body ++ "}"); group1 := None; after := post |}.
Proof.
  intros Hpre Hpost. induction pre as [|c pre IH]; cbn [append].
  - cbn [re_search]. now rewrite match_here_brace.
  - rewrite lacks_cons in Hpre. apply andb_prop in Hpre as [Hc Hpre].
    apply negb_true_iff in Hc. cbn [re_search].
    rewrite (match_here_brace_fails _ _ Hc). now apply IH.
Qed.

(** X15: for a reply whose first opening brace comes before its last closing
    brace, the third attempt decodes the span from that opening brace to
    that closing brace. *)
Theorem brace_span_is_first_open_to_last_close loads pre body post :
  lacks "{" pre = true -> lacks "}" post = true ->
  try_brace loads (pre ++ "{" ++ body ++ "}" ++ post)%string
  = loads ("{" ++ body ++ "}")%string.
Proof.
  intros Hpre Hpost. unfold try_brace. cbn [append].
  now rewrite re_search_brace.
Qed.

Lemma brace_span_witness :
  try_brace (json_loads 900 50)
    ("Here is the resume: " ++ "{" ++ dq "'a': {'b': 1}" ++ "}" ++ " Hope it helps.")%string
  = Some (Decoded (JDict [("a", JDict [("b", JInt 1)])])).
Proof.
  rewrite (brace_span_is_first_open_to_last_close (json_loads 900 50)
             "Here is the resume: " (dq "'a': {'b': 1}") " Hope it helps.");
    reflexivity.
Defined.

Lemma lstrip_split s :
  exists w, s = (w ++ lstrip s)%string /\ str_forallb is_space w = true.
Proof.
  induction s as [|c s (w & E & W)]; cbn [lstrip].
  - exists "". split; reflexivity.
  - destruct (is_space c) eqn:C.
    + exists (String c w). cbn [append str_forallb]. rewrite C, W. split; [|reflexivity].
      now rewrite <- E.
    + exists "". split; reflexivity.
Qed.

Lemma lstrip_head s :
  match lstrip s with
  | EmptyString => True
  | String c _ => is_space c = false
  end.
Proof.
  induction s as [|c s IH]; cbn [lstrip]; [exact I|].
  destruct (is_space c) eqn:C; [exact IH|exact C].
Qed.

Lemma lstrip_fixed c s : is_space c = false -> lstrip (String c s) = String c s.
Proof. intros H. cbn [lstrip]. now rewrite H. Qed.

Lemma str_forallb_app p a b :
  str_forallb p (a ++ b) = str_forallb p a && str_forallb p b.
Proof.
  induction a as [|c a IH]; cbn [append str_forallb]; [reflexivity|].
  now rewrite IH, andb_assoc.
Qed.

Section Fence.
Variable R : Type.
Variable k : string -> option string -> option R.

Lemma tail_at_newline_fence post cap x :
  k post cap = Some x ->
  rmatch fence_tail_re (String nl_char (fence ++ post)) cap k = Some x.
Proof.
  intros H. unfold fence_tail_re, fence. cbn [rmatch RLit append Ascii.eqb Bool.eqb].
  change (Ascii.eqb nl_char nl_char) with true. cbn [or_else Ascii.eqb Bool.eqb].
  now rewrite H.
Qed.

Lemma tail_at_fence post cap :
  rmatch fence_tail_re (fence ++ post) cap k = k post cap.
Proof. reflexivity. Qed.

Lemma tail_fails c s cap :
  Ascii.eqb backtick c = false ->
  match s with
  | EmptyString => True
  | String c' _ => Ascii.eqb backtick c' = false
  end ->
  rmatch fence_tail_re (String c s) cap k = None.
Proof.
  intros Hc Hs. unfold fence_tail_re. cbn [rmatch RLit].
  fold backtick. rewrite Hc.
  destruct (Ascii.eqb nl_char c); [|reflexivity].
  destruct s as [|c' s]; [reflexivity|]. now rewrite Hs.
Qed.
End Fence.

Section LazyScan.
Variable R : Type.
Variable K : string -> option string -> option R.

Lemma lazy_scan g rest cap :
  (forall g1 c g2, g = (g1 ++ String c g2)%string ->
                   K (String c g2 ++ rest)%string cap = None) ->
  rmatch (RLazyStar any_char) (g ++ rest) cap K
  = rmatch (RLazyStar any_char) rest cap K.
Proof.
  unfold any_char. revert cap. induction g as [|c g IH]; intros cap H; [reflexivity|].
  cbn [append]. rewrite rmatch_lazy_cons.
  pose proof (H "" c g eq_refl) as H0. cbn [append] in H0. rewrite H0.
  cbn [or_else]. apply IH.
  intros g1 c' g2 E. apply (H (String c g1) c' g2). cbn [append]. now rewrite E.
Qed.

Lemma lazy_stops s cap x :
  K s cap = Some x -> rmatch (RLazyStar any_char) s cap K = Some x.
Proof.
  intros H. unfold any_char. destruct s as [|c s].
  - now rewrite rmatch_lazy_nil.
  - rewrite rmatch_lazy_cons, H. reflexivity.
Qed.

Lemma star_space_stops ws rest cap x :
  str_forallb is_space ws = true ->
  match rest with
  | EmptyString => True
  | String c _ => is_space c = false
  end ->
  K rest cap = Some x ->
  rmatch (RStar (RSet is_space)) (ws ++ rest) cap K = Some x.
Proof.
  intros Hws Hrest HK. induction ws as [|c ws IH]; cbn [append].
  - destruct rest as [|c r]; [now rewrite rmatch_star_nil|].
    now rewrite rmatch_star_cons, Hrest.
  - cbn [str_forallb] in Hws. apply andb_prop in Hws as [Hc Hws].
    now rewrite rmatch_star_cons, Hc, (IH Hws).
Qed.
End LazyScan.

Lemma not_space_not_nl c : is_space c = false -> Ascii.eqb nl_char c = false.
Proof.
  intros H. destruct (Ascii.eqb nl_char c) eqn:E; [|reflexivity].
  apply Ascii.eqb_eq in E. subst. discriminate H.
Qed.

Lemma space_not_backtick c : is_space c = true -> Ascii.eqb backtick c = false.
Proof.
  intros H. destruct (Ascii.eqb backtick c) eqn:E; [|reflexivity].
  apply Ascii.eqb_eq in E. subst. discriminate H.
Qed.

Lemma head_after_lacks g2 rest :
  lacks backtick g2 = true ->
  match rest with
  | EmptyString => True
  | String c _ => Ascii.eqb backtick c = false
  end ->
  match (g2 ++ rest)%string with
  | EmptyString => True
  | String c _ => Ascii.eqb backtick c = false
  end.
Proof.
  intros H Hr. destruct g2 as [|c g2]; [exact Hr|]. cbn [append].
  rewrite lacks_cons in H. apply andb_prop in H as [H _].
  now apply negb_true_iff in H.
Qed.

Section FenceBody.
Variable R : Type.
Variable k : string -> option string -> option R.
Hypothesis k_total : forall s cap, exists x, k s cap = Some x.

(** The group and the closing fence, from a point where the body has no
    leading white space. *)
Lemma group_scan g post cap :
  lacks backtick g = true ->
  rmatch fence_group_re (g ++ String nl_char (fence ++ post)) cap k
  = k post (Some g).
Proof.
  intros L. unfold fence_group_re.
  change (rmatch (RSeq (RGroup (RLazyStar any_char)) fence_tail_re) ?s cap k)
    with (rmatch (RLazyStar any_char) s cap
            (fun s' _ => rmatch fence_tail_re s'
                           (Some (prefix_of s (String.length s - String.length s'))) k)).
  rewrite lazy_scan.
  - destruct (k_total post (Some g)) as [x Hx].
    rewrite Hx. apply lazy_stops.
    replace (String.length (String nl_char (fence ++ post)))
      with (String.length (String nl_char (fence ++ post))) by reflexivity.
    rewrite (prefix_of_app g (String nl_char (fence ++ post))).
    now apply tail_at_newline_fence.
  - intros g1 c g2 E. cbn [append]. apply tail_fails.
    + rewrite E, lacks_app, lacks_cons in L.
      apply andb_prop in L as [_ L]. apply andb_prop in L as [L _].
      now apply negb_true_iff in L.
    + apply head_after_lacks; [|reflexivity].
      rewrite E, lacks_app, lacks_cons in L.
      apply andb_prop in L as [_ L]. now apply andb_prop in L as [_ L].
Qed.

Lemma group_empty post cap :
  rmatch fence_group_re (fence ++ post) cap k = k post (Some "").
Proof.
  unfold fence_group_re.
  change (rmatch (RSeq (RGroup (RLazyStar any_char)) fence_tail_re) ?s cap k)
    with (rmatch (RLazyStar any_char) s cap
            (fun s' _ => rmatch fence_tail_re s'
                           (Some (prefix_of s (String.length s - String.length s'))) k)).
  destruct (k_total post (Some "")) as [x Hx]. rewrite Hx.
  apply lazy_stops. rewrite tail_at_fence.
  rewrite Nat.sub_diag. exact Hx.
Qed.

Lemma opt_nl_skipped r c s cap :
  Ascii.eqb nl_char c = false ->
  rmatch (RSeq (ROpt (RChar nl_char)) r) (String c s) cap k = rmatch r (String c s) cap k.
Proof. intros H. cbn [rmatch]. now rewrite H. Qed.

Lemma fence_body body post cap :
  lacks backtick body = true ->
  exists g, strip g = strip body /\
    rmatch fence_body_re (String nl_char (body ++ String nl_char (fence ++ post))) cap k
    = k post (Some g).
Proof.
  intros L. destruct (lstrip_split body) as (w & E & W).
  pose proof (lstrip_head body) as Hh.
  unfold fence_body_re.
  change (rmatch (RSeq (RStar (RSet is_space)) ?r) ?s cap k)
    with (rmatch (RStar (RSet is_space)) s cap (fun s' cap' => rmatch r s' cap' k)).
  destruct (lstrip body) as [|c b] eqn:B.
  - (* the body is white space only *)
    exists "". split.
    + unfold strip. now rewrite B.
    + destruct (k_total post (Some "")) as [x Hx]. rewrite Hx.
      replace (String nl_char (body ++ String nl_char (fence ++ post)))
        with ((String nl_char (body ++ nl)) ++ (fence ++ post))%string
        by (cbn [append]; f_equal; rewrite str_app_assoc; reflexivity).
      apply star_space_stops.
      * cbn [str_forallb]. rewrite str_forallb_app.
        rewrite str_app_nil_r in E. rewrite <- E in W. now rewrite W.
      * reflexivity.
      * unfold fence at 1. cbn [append].
        rewrite opt_nl_skipped by reflexivity.
        change (String "`" (String "`" (String "`" post))) with (fence ++ post)%string.
        now rewrite group_empty.
  - (* the body has a first visible character *)
    exists (String c b). split.
    + unfold strip. now rewrite B, (lstrip_fixed _ _ Hh).
    + destruct (k_total post (Some (String c b))) as [x Hx]. rewrite Hx.
      replace (String nl_char (body ++ String nl_char (fence ++ post)))
        with ((String nl_char w) ++ (String c b ++ String nl_char (fence ++ post)))%string
        by (cbn [append]; f_equal; rewrite E; rewrite str_app_assoc; reflexivity).
      apply star_space_stops.
      * cbn [str_forallb]. now rewrite W.
      * exact Hh.
      * cbn [append]. rewrite opt_nl_skipped by (now apply not_space_not_nl).
        change (String c (b ++ String nl_char (fence ++ post)))
          with (String c b ++ String nl_char (fence ++ post))%string.
        rewrite group_scan; [exact Hx|].
        rewrite E, lacks_app in L. now apply andb_prop in L as [_ L].
Qed.
End FenceBody.

Lemma fence_re_parts : fence_re = RSeq (RLit "```") (RSeq (ROpt (RLit "json")) fence_body_re).
Proof. reflexivity. Qed.

Lemma rmatch_fence_json R (k : string -> option string -> option R) s cap :
  rmatch fence_re (fence ++ "json" ++ s) cap k
  = or_else (rmatch fence_body_re s cap k)
            (rmatch fence_body_re ("json" ++ s) cap k).
Proof. reflexivity. Qed.

Lemma rmatch_fence_plain R (k : string -> option string -> option R) s cap :
  rmatch fence_re (fence ++ String nl_char s) cap k
  = rmatch fence_body_re (String nl_char s) cap k.
Proof. reflexivity. Qed.

Lemma match_here_fence (json_tag : bool) body post :
  lacks backtick body = true ->
  exists m,
    match_here fence_re
      (fence ++ (if json_tag then "json" else "")
         ++ String nl_char (body ++ String nl_char (fence ++ post)))
    = Some m /\
    (exists g, group1 m = Some g /\ strip g = strip body) /\
    after m = post.
Proof.
  intros L. unfold match_here.
  set (s := (fence ++ (if json_tag then "json" else "")
               ++ String nl_char (body ++ String nl_char (fence ++ post)))%string).
  set (k0 := fun (s' : string) (cap : option string) =>
               Some {| group0 := prefix_of s (String.length s - String.length s');
                       group1 := cap; after := s' |}).
  assert (T : forall s' cap, exists x, k0 s' cap = Some x) by (intros; eexists; reflexivity).
  destruct (fence_body _ k0 T body post None L) as (g & Sg & E).
  exists (Build_rmatch_result
            (prefix_of s (String.length s - String.length post)) (Some g) post).
  split; [|split; [exists g; split; [reflexivity|exact Sg]|reflexivity]].
  subst s. destruct json_tag.
  - rewrite rmatch_fence_json, E. reflexivity.
  - cbn [append]. change (String "`" (String "`" (String "`" ?x))) with (fence ++ x)%string.
    rewrite rmatch_fence_plain, E. reflexivity.
Qed.

Lemma match_here_fence_fails c s :
  Ascii.eqb backtick c = false -> match_here fence_re (String c s) = None.
Proof.
  intros H. unfold match_here. rewrite fence_re_parts. cbn [rmatch RLit].
  fold backtick. now rewrite H.
Qed.

Lemma re_search_skips pre s :
  lacks backtick pre = true ->
  re_search fence_re (pre ++ String backtick s) = re_search fence_re (String backtick s).
Proof.
  intros L. induction pre as [|c pre IH]; [reflexivity|].
  rewrite lacks_cons in L. apply andb_prop in L as [Lc L].
  apply negb_true_iff in Lc. cbn [append re_search].
  rewrite (match_here_fence_fails _ _ Lc). now apply IH.
Qed.

(** X14: for a reply with a fenced block, opened by three backticks, an
    optional [json] tag and a newline and closed by a newline and three
    backticks, where neither the text before the block nor the body has a
    backtick, the second attempt decodes the body with the white space
    around it removed. *)
Theorem fenced_block_is_read (loads : string -> option loaded) (json_tag : bool)
        (pre body post : string) :
  lacks backtick pre = true -> lacks backtick body = true ->
  try_fence loads
    (pre ++ "```" ++ (if json_tag then "json" else "") ++ nl ++ body ++ nl
         ++ "```" ++ post)%string
  = loads (strip body).
Proof.
  intros Lp Lb. unfold try_fence.
  destruct (match_here_fence json_tag body post Lb) as (m & E & (g & G & S) & _).
  replace (pre ++ "```" ++ (if json_tag then "json" else "") ++ nl ++ body ++ nl
               ++ "```" ++ post)%string
    with (pre ++ String backtick
            (String backtick (String backtick
               ((if json_tag then "json" else "")
                  ++ String nl_char (body ++ String nl_char (fence ++ post))))))%string
    by reflexivity.
  rewrite (re_search_skips _ _ Lp). cbn [re_search].
  change (String backtick (String backtick (String backtick ?x)))
    with (fence ++ x)%string.
  rewrite E, G, S. reflexivity.
Qed.

Lemma fenced_block_witness :
  try_fence (json_loads 900 50)
    ("Sure! " ++ "```" ++ "json" ++ nl ++ dq "  {'a': [1, 2]}  " ++ nl ++ "```"
       ++ " Let me know.")%string
  = Some (Decoded (JDict [("a", JList [JInt 1; JInt 2])])).
Proof.
  rewrite (fenced_block_is_read (json_loads 900 50) true "Sure! " (dq "  {'a': [1, 2]}  ")
             " Let me know."); reflexivity.
Defined.

Lemma lstrip_spaces ws s : str_forallb is_space ws = true -> lstrip (ws ++ s) = lstrip s.
Proof.
  induction ws as [|c ws IH]; cbn [append str_forallb lstrip]; [reflexivity|].
  intros H. apply andb_prop in H as [Hc H]. now rewrite Hc, IH.
Qed.

Lemma rstrip_spaces ws : str_forallb is_space ws = true -> rstrip ws = "".
Proof.
  induction ws as [|c ws IH]; cbn [str_forallb rstrip]; [reflexivity|].
  intros H. apply andb_prop in H as [Hc H]. now rewrite (IH H), Hc.
Qed.

Lemma rstrip_app_spaces s ws :
  str_forallb is_space ws = true -> rstrip (s ++ ws) = rstrip s.
Proof.
  intros H. induction s as [|c s IH]; cbn [append rstrip].
  - now apply rstrip_spaces.
  - now rewrite IH.
Qed.

Lemma strip_app_spaces s ws :
  str_forallb is_space ws = true -> strip (s ++ ws) = strip s.
Proof.
  intros H. unfold strip. induction s as [|c s IH]; cbn [append lstrip].
  - rewrite <- (str_app_nil_r ws), (lstrip_spaces ws "" H). reflexivity.
  - destruct (is_space c); [exact IH|].
    change (String c (s ++ ws)) with (String c s ++ ws)%string.
    now apply rstrip_app_spaces.
Qed.

Lemma strip_padded ws1 s ws2 :
  str_forallb is_space ws1 = true -> str_forallb is_space ws2 = true ->
  strip (ws1 ++ s ++ ws2) = strip s.
Proof.
  intros H1 H2. unfold strip at 1. rewrite (lstrip_spaces _ _ H1).
  fold (strip (s ++ ws2)). now apply strip_app_spaces.
Qed.

(** X13: white space before and after the reply does not change the result
    of the repair step. *)
Theorem repair_ignores_surrounding_white_space
        (loads : string -> option loaded) (ws1 response_text ws2 : string) :
  str_forallb is_space ws1 = true -> str_forallb is_space ws2 = true ->
  parse_llm_response_with loads (ws1 ++ response_text ++ ws2)%string
  = parse_llm_response_with loads response_text.
Proof.
  intros H1 H2. unfold parse_llm_response_with. cbv zeta.
  now rewrite (strip_padded _ _ _ H1 H2).
Qed.

Lemma repair_ignores_white_space_witness :
  parse_llm_response 900 50 ((nl ++ "  ") ++ dq "{'a': 1,}" ++ (" " ++ nl))%string
  = Some (Ok (JDict [("a", JInt 1)])).
Proof.
  unfold parse_llm_response.
  rewrite (repair_ignores_surrounding_white_space (json_loads 900 50)
             (nl ++ "  ")%string (dq "{'a': 1,}") (" " ++ nl)%string);
    reflexivity.
Defined.

Lemma re_sub_fuel r : forall fuel1 fuel2 s,
  (String.length s <= fuel1)%nat -> (String.length s <= fuel2)%nat ->
  re_sub_group1 fuel1 r s = re_sub_group1 fuel2 r s.
Proof.
  induction fuel1 as [|f1 IH]; intros f2 s H1 H2.
  - destruct s; [|cbn in H1; lia]. destruct f2; reflexivity.
  - destruct f2 as [|f2]; [destruct s; [reflexivity|cbn in H2; lia]|].
    cbn [re_sub_group1]. destruct s as [|c s]; [reflexivity|].
    cbn [String.length] in H1, H2.
    destruct (match_here r (String c s)) as [m|].
    + destruct (String.length (after m) <? String.length (String c s))%nat eqn:L.
      * apply Nat.ltb_lt in L. cbn [String.length] in L.
        f_equal. apply IH; lia.
      * f_equal. apply IH; lia.
    + f_equal. apply IH; lia.
Qed.

Lemma cleaned_step c s :
  cleaned (String c s)
  = match match_here comma_re (String c s) with
    | Some m =>
        if (String.length (after m) <? String.length (String c s))%nat then
          (match group1 m with Some g => g | None => "" end
           ++ cleaned (after m))%string
        else String c (cleaned s)
    | None => String c (cleaned s)
    end.
Proof.
  unfold cleaned. cbn [String.length re_sub_group1].
  destruct (match_here comma_re (String c s)) as [m|]; [|reflexivity].
  destruct (String.length (after m) <? S (String.length s))%nat eqn:L; [|reflexivity].
  apply Nat.ltb_lt in L. f_equal. apply re_sub_fuel; lia.
Qed.

Lemma match_here_comma_other c s :
  Ascii.eqb "," c = false -> match_here comma_re (String c s) = None.
Proof. intros H. unfold match_here, comma_re. cbn [rmatch]. now rewrite H. Qed.

Lemma closer_not_space c : is_closer c = true -> is_space c = false.
Proof.
  unfold is_closer. intros H. apply orb_prop in H as [H|H];
    apply Ascii.eqb_eq in H; subst; reflexivity.
Qed.

Lemma match_here_comma_star s :
  match_here comma_re (String "," s)
  = rmatch (RStar (RSet is_space)) s None
      (fun s' cap' =>
         rmatch (RGroup (RSet is_closer)) s' cap'
           (fun s'' cap =>
              Some {| group0 := prefix_of (String "," s)
                                  (String.length (String "," s) - String.length s'');
                      group1 := cap;
                      after := s'' |})).
Proof. reflexivity. Qed.

Lemma match_here_comma ws c s :
  str_forallb is_space ws = true -> is_closer c = true ->
  exists g0,
    match_here comma_re (String "," (ws ++ String c s))
    = Some {| group0 := g0; group1 := Some (String c ""); after := s |}.
Proof.
  intros Hws Hc. eexists. rewrite match_here_comma_star.
  erewrite star_space_stops; [reflexivity|exact Hws|now apply closer_not_space|].
  cbn [rmatch]. rewrite Hc. do 3 f_equal.
  cbn [String.length]. replace (S (String.length s) - String.length s)%nat with 1%nat by lia.
  destruct s; reflexivity.
Qed.

Lemma star_no_closer R (K : string -> option string -> option R) s cap :
  closes s = false ->
  rmatch (RStar (RSet is_space)) s cap
    (fun s' cap' => rmatch (RGroup (RSet is_closer)) s' cap' K) = None.
Proof.
  induction s as [|c s IH]; intros H.
  - rewrite rmatch_star_nil. reflexivity.
  - cbn [closes] in H. apply orb_false_elim in H as [Hc H].
    rewrite rmatch_star_cons.
    assert (E : rmatch (RGroup (RSet is_closer)) (String c s) cap K = None)
      by (cbn [rmatch]; now rewrite Hc).
    rewrite E. destruct (is_space c); [|reflexivity].
    cbn [andb] in H. now rewrite (IH H).
Qed.

Lemma match_here_comma_open s :
  closes s = false -> match_here comma_re (String "," s) = None.
Proof.
  intros H. rewrite match_here_comma_star.
  exact (star_no_closer _ _ s None H).
Qed.

Lemma cleaned_other pre s :
  lacks "," pre = true -> cleaned (pre ++ s) = (pre ++ cleaned s)%string.
Proof.
  induction pre as [|c pre IH]; intros H; [reflexivity|].
  rewrite lacks_cons in H. apply andb_prop in H as [Hc H].
  cbn [append]. rewrite cleaned_step, match_here_comma_other.
  - now rewrite (IH H).
  - now destruct (Ascii.eqb "," c).
Qed.

Lemma cleaned_closed ws c s :
  str_forallb is_space ws = true -> is_closer c = true ->
  cleaned (String "," (ws ++ String c s)) = String c (cleaned s).
Proof.
  intros Hws Hc. rewrite cleaned_step.
  destruct (match_here_comma ws c s Hws Hc) as [g0 ->]. cbn [after group1].
  replace (String.length s <? String.length (String "," (ws ++ String c s)))%nat
    with true; [reflexivity|].
  symmetry. apply Nat.ltb_lt. cbn [String.length]. rewrite str_length_app.
  cbn [String.length]. lia.
Qed.

Lemma cleaned_open s :
  closes s = false -> cleaned (String "," s) = String "," (cleaned s).
Proof. intros H. now rewrite cleaned_step, (match_here_comma_open s H). Qed.

(** X16: the last attempt decodes the cleaned reply, in which a comma is
    dropped, with the white space after it, exactly when the next character
    that is no white space is a closing brace or bracket; every other
    character is kept. *)
Theorem commas_before_a_closer_are_dropped loads text :
  try_commas loads text = loads (cleaned text) /\
  (forall pre s, lacks "," pre = true ->
                 cleaned (pre ++ s) = (pre ++ cleaned s)%string) /\
  (forall ws c s, str_forallb is_space ws = true -> is_closer c = true ->
                  cleaned (String "," (ws ++ String c s)) = String c (cleaned s)) /\
  (forall s, closes s = false -> cleaned (String "," s) = String "," (cleaned s)).
Proof.
  split; [reflexivity|]. split; [exact cleaned_other|].
  split; [exact cleaned_closed|exact cleaned_open].
Qed.

Lemma commas_witness :
  cleaned ("[1, 2, ]")%string = "[1, 2]".
Proof.
  destruct (commas_before_a_closer_are_dropped (fun _ => None) "")
    as (_ & Hother & Hclosed & Hopen).
  transitivity ("[1" ++ cleaned ", 2, ]")%string;
    [exact (Hother "[1" ", 2, ]" eq_refl)|].
  transitivity ("[1," ++ cleaned " 2, ]")%string;
    [exact (f_equal (append "[1") (Hopen " 2, ]" eq_refl))|].
  transitivity ("[1, 2" ++ cleaned ", ]")%string;
    [exact (f_equal (append "[1,") (Hother " 2" ", ]" eq_refl))|].
  exact (f_equal (append "[1, 2") (Hclosed " " "]"%char "" eq_refl eq_refl)).
Defined.

(* ================================================================== *)
(** ** The repair step: the errors of [json.loads] that it lets through *)

(** Whatever [json.loads] is, the attempts are made in their order, and
    the first that does not end in a decode error decides. *)
Lemma parse_llm_response_with_spec loads response_text :
  parse_llm_response_with loads response_text
  = let text := strip response_text in
    outcome_of (first_decided [try_direct loads text; try_fence loads text;
                               try_brace loads text; try_commas loads text]).
Proof.
  unfold parse_llm_response_with. cbv zeta. cbn [first_decided].
  destruct (try_direct loads (strip response_text)) as [[v| |e]|]; try reflexivity.
  destruct (try_fence loads (strip response_text)) as [[v| |e]|]; try reflexivity.
  destruct (try_brace loads (strip response_text)) as [[v| |e]|]; try reflexivity.
  destruct (try_commas loads (strip response_text)) as [[v| |e]|]; reflexivity.
Qed.

(** The examples of the specification, whatever the room of the
    interpreter, as long as it can enter one object. *)
Example repair_examples room slack :
  parse_llm_response (S room) slack (with_newlines (dq "```json|{'a': 1}|```"))
  = Some (Ok (JDict [("a", JInt 1)])) /\
  parse_llm_response (S room) slack (dq "{'a': 1,}")
  = Some (Ok (JDict [("a", JInt 1)])) /\
  parse_llm_response (S room) slack "not json at all" = Some (Raise ParseFailure).
Proof. vm_compute. repeat split. Qed.

(** *** A text that nests too deep *)

Lemma length_repeat_open n : String.length (repeat_str "[" n) = n.
Proof. induction n as [|n IH]; cbn [repeat_str append String.length]; congruence. Qed.

Lemma lacks_repeat_open n : lacks "{" (repeat_str "[" n) = true.
Proof.
  induction n as [|n IH]; [reflexivity|].
  cbn [repeat_str append]. now rewrite lacks_cons, IH.
Qed.

Lemma parse_value_deep depth : forall fuel rest,
  (2 * depth + 1 <= fuel)%nat ->
  parse_value fuel depth (String "[" (repeat_str "[" depth ++ rest))
  = Stopped RecursionError.
Proof.
  induction depth as [|d IH]; intros fuel rest H.
  - destruct fuel as [|f]; [lia|]. reflexivity.
  - destruct fuel as [|[|f]]; try lia.
    cbn [repeat_str append].
    change (parse_value (S (S f)) (S d)
              (String "[" (String "[" (repeat_str "[" d ++ rest))))
      with (match parse_value f d (String "[" (repeat_str "[" d ++ rest)) with
            | Read (v, w) rest0 =>
                match skip_ws rest0 with
                | String "," rest' =>
                    parse_elements f d ([] ++ [v]) (false || w) (skip_ws rest')
                | String "]" rest' => Read (JList ([] ++ [v]), false || w) rest'
                | _ => Malformed
                end
            | Malformed => Malformed
            | Stopped e => Stopped e
            | Unread => Unread
            end).
    rewrite IH by lia. reflexivity.
Qed.

Lemma scan_text_deep depth rest :
  scan_text depth (repeat_str "[" (S depth) ++ rest) = Stopped RecursionError.
Proof.
  unfold scan_text. cbn [repeat_str append].
  change (skip_ws (String "[" (repeat_str "[" depth ++ rest)))
    with (String "[" (repeat_str "[" depth ++ rest)).
  rewrite parse_value_deep; [reflexivity|].
  cbn [String.length]. rewrite str_length_app, length_repeat_open. lia.
Qed.

Lemma json_loads_deep room slack rest :
  json_loads room slack (repeat_str "[" (S (room + slack)) ++ rest)
  = Some (LoadsError RecursionError).
Proof. unfold json_loads. now rewrite scan_text_deep. Qed.

Lemma rstrip_app_ink a b : has_ink b = true -> rstrip (a ++ b) = (a ++ rstrip b)%string.
Proof.
  intros H. induction a as [|c a IH]; [reflexivity|].
  cbn [append rstrip]. rewrite IH.
  pose proof (rstrip_ink b H) as N.
  destruct a as [|c' a']; cbn [append]; [|reflexivity].
  destruct (rstrip b); [contradiction|reflexivity].
Qed.

Lemma strip_deep_reply n : strip (deep_reply (S n)) = deep_reply (S n).
Proof.
  unfold strip, deep_reply. cbn [repeat_str append]. rewrite lstrip_fixed by reflexivity.
  change (String "[" (repeat_str "[" n ++ dq "{'a': 1}"))
    with (String "[" (repeat_str "[" n) ++ dq "{'a': 1}")%string.
  rewrite rstrip_app_ink by reflexivity. reflexivity.
Qed.

Lemma try_brace_deep loads n :
  try_brace loads (deep_reply n) = loads (dq "{'a': 1}").
Proof.
  unfold try_brace, deep_reply.
  change (dq "{'a': 1}") with (String "{" (dq "'a': 1" ++ String "}" "")).
  rewrite re_search_brace; [reflexivity|apply lacks_repeat_open|reflexivity].
Qed.

(** C3, the code at inputs where it leaves the claim.  The function
    catches [json.JSONDecodeError] only.  On a reply that starts with an
    integer of 4301 digits the first call of [json.loads] raises
    [ValueError], and on a reply that opens more arrays than the
    interpreter enters it raises [RecursionError]: the function raises
    that error at once, and makes no further attempt, although the
    third attempt, alone, decodes the object that the reply holds. *)
Theorem repair_lets_other_errors_escape room slack :
  (parse_llm_response (S room) slack long_int_reply = Some (Raise ValueError) /\
   try_brace (json_loads (S room) slack) (strip long_int_reply)
   = Some (Decoded (JDict [("a", JInt 1)]))) /\
  (let reply := deep_reply (S (S room + slack)) in
   parse_llm_response (S room) slack reply = Some (Raise RecursionError) /\
   try_brace (json_loads (S room) slack) (strip reply)
   = Some (Decoded (JDict [("a", JInt 1)]))).
Proof.
  split.
  - vm_compute. split; reflexivity.
  - cbv zeta. rewrite strip_deep_reply, try_brace_deep. split; [|reflexivity].
    unfold parse_llm_response, parse_llm_response_with. cbv zeta.
    rewrite strip_deep_reply. unfold try_direct, deep_reply.
    rewrite json_loads_deep. reflexivity.
Qed.

(* ================================================================== *)
(** ** The extractor: lines, columns and blank pages *)

Lemma runs_from_nonempty cy cur l : runs_from cy cur l <> [].
Proof.
  revert cy cur. induction l as [|[y t] l IH]; intros cy cur; cbn [runs_from].
  - discriminate.
  - destruct (y =? cy); [apply IH|discriminate].
Qed.

Lemma fold_line_step_runs ws : forall l L cy cur,
  banded_texts ws = Ok l -> cur <> [] ->
  exists st,
    fold_result line_step ws
      {| lines := L; current_y := Some cy; current_line := cur |} = Ok st /\
    flushed st = L ++ map (join " ") (runs_from cy cur l).
Proof.
  unfold banded_texts.
  induction ws as [|w ws IH]; intros l L cy cur E N; cbn [mapM fold_result] in *.
  - injection E as <-. eexists. split; [reflexivity|].
    unfold flushed. cbn [current_line lines runs_from map].
    destruct cur; [congruence|reflexivity].
  - unfold line_step at 1. destruct (band (w_top w)) as [y|e]; cbn [bind] in *;
      [|discriminate].
    destruct (mapM _ ws) as [l'|e] eqn:E'; cbn [bind] in E; [|discriminate].
    injection E as <-. cbn [current_y runs_from].
    destruct (y =? cy) eqn:Y; cbn [negb lines current_line current_y].
    + apply Z.eqb_eq in Y. subst y.
      destruct (IH l' L cy (cur ++ [w_text w]) eq_refl) as (st & F & G).
      { destruct cur; discriminate. }
      exists st. split; assumption.
    + destruct (IH l' (L ++ [join " " cur]) y [w_text w] eq_refl) as (st & F & G).
      { discriminate. }
      exists st. split; [exact F|]. rewrite G, <- app_assoc. reflexivity.
Qed.

(** The text of a column is its runs of equal bands, one per line. *)
Lemma words_to_text_runs ws l :
  banded_texts ws = Ok l ->
  words_to_text ws = Ok (join nl (map (join " ") (band_runs l))).
Proof.
  intros E. unfold words_to_text. destruct ws as [|w ws].
  - cbn in E. injection E as <-. reflexivity.
  - unfold banded_texts in E. cbn [mapM fold_result] in *.
    unfold line_step at 1. destruct (band (w_top w)) as [y|e]; cbn [bind] in *;
      [|discriminate].
    destruct (mapM _ ws) as [l'|e] eqn:E'; cbn [bind] in E; [|discriminate].
    injection E as <-. cbn [current_y lines current_line app band_runs].
    destruct (fold_line_step_runs ws l' [] y [w_text w] E') as (st & F & G);
      [discriminate|].
    rewrite F. cbn [bind]. fold (flushed st). rewrite G. reflexivity.
Qed.

Lemma banded_texts_same ws y :
  Forall (fun w => band (w_top w) = Ok y) ws ->
  banded_texts ws = Ok (map (fun w => (y, w_text w)) ws).
Proof.
  unfold banded_texts. induction 1 as [|w ws Hw _ IH]; cbn [mapM map]; [reflexivity|].
  now rewrite Hw, IH.
Qed.

Lemma runs_from_same y cur ts :
  runs_from y cur (map (fun t => (y, t)) ts) = [cur ++ ts].
Proof.
  revert cur. induction ts as [|t ts IH]; intros cur; cbn [map runs_from].
  - now rewrite app_nil_r.
  - rewrite Z.eqb_refl, IH, <- app_assoc. reflexivity.
Qed.

(** X17: words that all fall in one band are put on one line, separated by
    single spaces. *)
Theorem same_band_words_share_one_line ws y :
  Forall (fun w => band (w_top w) = Ok y) ws ->
  words_to_text ws = Ok (join " " (map w_text ws)).
Proof.
  intros H. rewrite (words_to_text_runs ws _ (banded_texts_same ws y H)).
  destruct ws as [|w ws]; [reflexivity|]. cbn [map band_runs].
  rewrite <- (map_map w_text (fun t => (y, t)) ws), runs_from_same. reflexivity.
Qed.

Lemma same_band_witness :
  words_to_text [tok "Senior" 40 98; tok "Software" 80 99; tok "Engineer" 130 102]
  = Ok "Senior Software Engineer".
Proof.
  apply (same_band_words_share_one_line
           [tok "Senior" 40 98; tok "Software" 80 99; tok "Engineer" 130 102] 100).
  repeat constructor.
Defined.

Lemma runs_from_change y t l :
  bands_change ((y, t) :: l) = true ->
  runs_from y [t] l = map (fun yt => [snd yt]) ((y, t) :: l).
Proof.
  revert y t. induction l as [|[y' t'] l IH]; intros y t H; cbn [runs_from map snd].
  - reflexivity.
  - cbn [bands_change] in H. apply andb_prop in H as [Hy H].
    apply negb_true_iff in Hy. rewrite Z.eqb_sym, Hy. f_equal.
    now apply IH.
Qed.

Lemma banded_texts_snd ws l : banded_texts ws = Ok l -> map snd l = map w_text ws.
Proof.
  unfold banded_texts. revert l.
  induction ws as [|w ws IH]; intros l E; cbn [mapM] in E.
  - now injection E as <-.
  - destruct (band (w_top w)); cbn [bind] in E; [|discriminate].
    destruct (mapM _ ws) as [l'|]; cbn [bind] in E; [|discriminate].
    injection E as <-. cbn [map snd]. now rewrite (IH l' eq_refl).
Qed.

(** X18: words whose band changes from each word to the next are put on one
    line each. *)
Theorem changing_bands_give_one_word_per_line ws l :
  banded_texts ws = Ok l -> bands_change l = true ->
  words_to_text ws = Ok (join nl (map w_text ws)).
Proof.
  intros E C. rewrite (words_to_text_runs ws l E), <- (banded_texts_snd ws l E).
  destruct l as [|[y t] l]; [reflexivity|]. cbn [band_runs].
  rewrite (runs_from_change y t l C), map_map.
  do 2 f_equal.
Qed.

Lemma changing_bands_witness :
  words_to_text [tok "Skills" 10 50; tok "Python" 10 70; tok "SQL" 10 90]
  = Ok ("Skills" ++ nl ++ "Python" ++ nl ++ "SQL")%string.
Proof.
  apply (changing_bands_give_one_word_per_line
           [tok "Skills" 10 50; tok "Python" 10 70; tok "SQL" 10 90]
           [(50, "Skills"); (70, "Python"); (90, "SQL")]); reflexivity.
Defined.

(** *** Splitting a text at white space *)

Lemma split_ws_aux_space cur c s :
  is_space c = true ->
  split_ws_aux cur (String c s) = flush_run cur ++ split_ws s.
Proof.
  intros H. cbn [split_ws_aux]. rewrite H. destruct cur; reflexivity.
Qed.

Lemma split_ws_aux_app cur a c b :
  is_space c = true ->
  split_ws_aux cur (a ++ String c b) = split_ws_aux cur a ++ split_ws b.
Proof.
  intros H. revert cur. induction a as [|x a IH]; intros cur; cbn [append].
  - rewrite (split_ws_aux_space _ _ _ H). destruct cur; reflexivity.
  - cbn [split_ws_aux]. destruct (is_space x).
    + destruct cur; cbn [app]; now rewrite IH.
    + apply IH.
Qed.

Lemma split_ws_app a c b :
  is_space c = true -> split_ws (a ++ String c b) = split_ws a ++ split_ws b.
Proof. apply split_ws_aux_app. Qed.

Lemma rev_string_acc l : forall acc,
  fold_left (fun a c => String c a) l acc
  = (string_of_list_ascii (rev l) ++ acc)%string.
Proof.
  induction l as [|c l IH]; intros acc; cbn [fold_left rev]; [reflexivity|].
  rewrite IH. clear IH. induction (rev l) as [|x r IHr]; cbn; [reflexivity|].
  now rewrite IHr.
Qed.

Lemma split_ws_aux_word w : forall cur,
  str_forallb (fun c => negb (is_space c)) w = true ->
  split_ws_aux cur w = flush_run (rev (list_ascii_of_string w) ++ cur).
Proof.
  induction w as [|c w IH]; intros cur H; cbn [split_ws_aux list_ascii_of_string rev].
  - destruct cur; reflexivity.
  - cbn [str_forallb] in H. apply andb_prop in H as [Hc H].
    apply negb_true_iff in Hc. rewrite Hc, (IH _ H), <- app_assoc. reflexivity.
Qed.

Lemma split_ws_word w : wordlike w = true -> split_ws w = [w].
Proof.
  unfold wordlike. intros H. apply andb_prop in H as [N H].
  unfold split_ws. rewrite (split_ws_aux_word w [] H), app_nil_r.
  destruct w as [|c w]; [discriminate|].
  cbn [list_ascii_of_string rev]. unfold flush_run.
  destruct (rev (list_ascii_of_string w) ++ [c]) eqn:E.
  - apply app_eq_nil in E as [_ E]. discriminate.
  - rewrite <- E. unfold rev_string. rewrite rev_string_acc, str_app_nil_r.
    rewrite rev_app_distr, rev_involutive. cbn [rev app string_of_list_ascii].
    now rewrite string_of_list_ascii_of_string.
Qed.

Lemma split_ws_join (c : ascii) l :
  is_space c = true ->
  split_ws (join (String c "") l) = flat_map split_ws l.
Proof.
  intros H. induction l as [|s l IH]; [reflexivity|].
  destruct l as [|s' l].
  - cbn [join flat_map]. now rewrite app_nil_r.
  - change (join (String c "") (s :: s' :: l))
      with (s ++ String c (join (String c "") (s' :: l)))%string.
    rewrite (split_ws_app _ _ _ H), IH. reflexivity.
Qed.

Lemma split_ws_line run :
  Forall (fun t => wordlike t = true) run -> split_ws (join " " run) = run.
Proof.
  intros H. rewrite (split_ws_join " "%char) by reflexivity.
  induction H as [|t run Ht _ IH]; cbn [flat_map]; [reflexivity|].
  now rewrite (split_ws_word t Ht), IH.
Qed.

Lemma concat_runs_from cy cur l : List.concat (runs_from cy cur l) = cur ++ map snd l.
Proof.
  revert cy cur. induction l as [|[y t] l IH]; intros cy cur; cbn [runs_from map snd].
  - cbn. now rewrite app_nil_r.
  - destruct (y =? cy).
    + rewrite IH, <- app_assoc. reflexivity.
    + cbn [List.concat]. rewrite IH. reflexivity.
Qed.

Lemma concat_band_runs l : List.concat (band_runs l) = map snd l.
Proof. destruct l as [|[y t] l]; [reflexivity|]. apply concat_runs_from. Qed.

Lemma split_ws_lines runs :
  Forall (fun t => wordlike t = true) (List.concat runs) ->
  split_ws (join nl (map (join " ") runs)) = List.concat runs.
Proof.
  intros H. unfold nl. rewrite (split_ws_join nl_char) by reflexivity.
  induction runs as [|r runs IH]; [reflexivity|].
  cbn [map flat_map List.concat] in *. apply Forall_app in H as [Hr H].
  now rewrite (split_ws_line r Hr), IH.
Qed.

(** X19: the text of a column, split at white space, gives back the texts of
    the words in their order, when every band is defined and every word is a
    non-empty text without white space. *)
Theorem column_text_splits_back_into_its_words ws :
  Forall band_defined ws ->
  Forall (fun w => wordlike (w_text w) = true) ws ->
  exists text, words_to_text ws = Ok text /\ split_ws text = map w_text ws.
Proof.
  intros B W.
  assert (E : exists l, banded_texts ws = Ok l).
  { unfold banded_texts. clear W. induction B as [|w ws [b Hb] _ [l IH]]; cbn [mapM].
    - now exists [].
    - rewrite Hb. cbn [bind]. rewrite IH. cbn [bind]. eauto. }
  destruct E as [l E]. eexists. split; [apply (words_to_text_runs ws l E)|].
  rewrite split_ws_lines; rewrite concat_band_runs, (banded_texts_snd ws l E).
  - reflexivity.
  - rewrite Forall_map. exact W.
Qed.

Lemma column_text_witness :
  exists text,
    words_to_text [tok "Senior" 40 98; tok "Engineer" 130 102; tok "Acme" 40 120]
    = Ok text /\
    split_ws text = ["Senior"; "Engineer"; "Acme"].
Proof.
  apply (column_text_splits_back_into_its_words
           [tok "Senior" 40 98; tok "Engineer" 130 102; tok "Acme" 40 120]).
  - repeat constructor; eexists; vm_compute; reflexivity.
  - repeat constructor.
Defined.

Lemma Forall_filter A (P : A -> Prop) (f : A -> bool) l :
  Forall P l -> Forall P (filter f l).
Proof.
  induction 1 as [|a l Ha _ IH]; cbn [filter]; [constructor|].
  destruct (f a); [now constructor|assumption].
Qed.

Lemma column_text ws :
  ws <> [] -> Forall band_defined ws ->
  Forall (fun w => has_ink (w_text w) = true) ws ->
  exists sorted text,
    sorted_words ws = Ok sorted /\ Permutation ws sorted /\
    words_to_text sorted = Ok text /\ has_ink text = true.
Proof.
  intros N B I.
  destruct (sorted_words_defined ws B) as (sw & Es & P).
  assert (Ns : sw <> []).
  { intros ->. apply Permutation_sym, Permutation_nil in P. contradiction. }
  destruct (words_to_text_ink sw Ns (Permutation_Forall P B) (Permutation_Forall P I))
    as (t & Et & It).
  now exists sw, t.
Qed.

(** X20: a page with words on both sides of the boundary, every band defined
    and every word with a character that is no white space, gives the
    sidebar marker, the text of the sorted left words, an empty line, the
    main marker and the text of the sorted right words. *)
Theorem two_column_page_is_sidebar_then_main p :
  left_of p <> [] -> right_of p <> [] ->
  Forall band_defined (p_words p) ->
  Forall (fun w => has_ink (w_text w) = true) (p_words p) ->
  exists left_words right_words left_text right_text,
    sorted_words (left_of p) = Ok left_words /\
    Permutation (left_of p) left_words /\
    words_to_text left_words = Ok left_text /\
    sorted_words (right_of p) = Ok right_words /\
    Permutation (right_of p) right_words /\
    words_to_text right_words = Ok right_text /\
    extract_page p
    = Ok (Some (sidebar_marker ++ left_text ++ nl ++ nl
                  ++ main_marker ++ right_text)%string).
Proof.
  intros NL NR B I.
  destruct (column_text (left_of p) NL (Forall_filter _ _ _ _ B) (Forall_filter _ _ _ _ I))
    as (lw & lt & El & Pl & Tl & Il).
  destruct (column_text (right_of p) NR (Forall_filter _ _ _ _ B) (Forall_filter _ _ _ _ I))
    as (rw & rt & Er & Pr & Tr & Ir).
  exists lw, rw, lt, rt. repeat (split; [assumption|]).
  unfold extract_page. fold (mid_of p).
  unfold left_of, right_of in *.
  destruct (p_words p) as [|w ws] eqn:W; [cbn in NL; congruence|].
  rewrite El. cbn [bind]. rewrite Er. cbn [bind]. rewrite Tl. cbn [bind].
  rewrite Tr. cbn [bind]. rewrite (strip_ink _ Il), (strip_ink _ Ir).
  cbn [append]. rewrite !str_app_assoc. reflexivity.
Qed.

Lemma two_column_page_witness :
  exists left_text right_text,
    extract_page
      {| p_width := float_lit 100;
         p_words := [tok "Engineer" 60 12; tok "Skills" 10 50; tok "Senior" 40 11;
                     tok "SQL" 10 70];
         p_plain := None |}
    = Ok (Some (sidebar_marker ++ left_text ++ nl ++ nl
                  ++ main_marker ++ right_text)%string)
    /\ left_text = ("Skills" ++ nl ++ "SQL")%string
    /\ right_text = "Senior Engineer".
Proof.
  destruct (two_column_page_is_sidebar_then_main
      {| p_width := float_lit 100;
         p_words := [tok "Engineer" 60 12; tok "Skills" 10 50; tok "Senior" 40 11;
                     tok "SQL" 10 70];
         p_plain := None |})
    as (lw & rw & lt & rt & El & _ & Tl & Er & _ & Tr & E).
  - discriminate.
  - discriminate.
  - repeat constructor; eexists; vm_compute; reflexivity.
  - repeat constructor.
  - exists lt, rt. split; [exact E|].
    vm_compute in El. injection El as <-. vm_compute in Tl. injection Tl as <-.
    vm_compute in Er. injection Er as <-. vm_compute in Tr. injection Tr as <-.
    split; reflexivity.
Defined.

Lemma blank_page_skipped p : blank_page p = true -> extract_page p = Ok None.
Proof.
  unfold blank_page, extract_page. destruct (p_words p); [|discriminate].
  destruct (p_plain p) as [text|]; [|reflexivity].
  intros H. unfold nonempty. now rewrite H.
Qed.

(** X21: a document whose pages all have no word and no fallback text, or no
    page at all, gives the empty text. *)
Theorem blank_pages_give_empty_text pages :
  forallb blank_page pages = true ->
  extract_text_from_pdf pages = Ok "".
Proof.
  intros H. unfold extract_text_from_pdf.
  assert (E : mapM extract_page pages = Ok (map (fun _ => None) pages)).
  { induction pages as [|p pages IH]; cbn [mapM map forallb] in *; [reflexivity|].
    apply andb_prop in H as [Hp H]. now rewrite (blank_page_skipped p Hp), (IH H). }
  rewrite E. cbn [bind]. f_equal.
  clear. induction pages as [|p pages IH]; cbn [map cat_options]; [reflexivity|exact IH].
Qed.

Lemma blank_pages_witness :
  extract_text_from_pdf
    [{| p_width := float_lit 595; p_words := []; p_plain := None |};
     {| p_width := float_lit 595; p_words := []; p_plain := Some "" |}] = Ok "".
Proof.
  apply (blank_pages_give_empty_text
    [{| p_width := float_lit 595; p_words := []; p_plain := None |};
     {| p_width := float_lit 595; p_words := []; p_plain := Some "" |}]).
  reflexivity.
Defined.

(* ================================================================== *)
(** ** The routes: input checks and the sections of the unified reply *)

Lemma safe_char_safe c : is_safe_char (safe_char c) = true.
Proof. unfold safe_char. destruct (is_safe_char c) eqn:E; [exact E|reflexivity]. Qed.

Lemma safe_char_keeps_lower c x :
  is_safe_char x = true -> x <> "_"%char ->
  Ascii.eqb (lower_char (safe_char c)) x = Ascii.eqb (lower_char c) x.
Proof.
  intros Hx Nx. unfold safe_char. destruct (is_safe_char c) eqn:E; [reflexivity|].
  destruct (Ascii.eqb_spec (lower_char c) x) as [<-|N].
  - exfalso. revert E Hx.
    destruct c as [[] [] [] [] [] [] [] []]; vm_compute; congruence.
  - destruct (Ascii.eqb_spec (lower_char "_"%char) x) as [<-|]; [|reflexivity].
    exfalso. now apply Nx.
Qed.

Lemma safe_name_length filename :
  String.length (safe_name filename) = String.length filename.
Proof.
  induction filename as [|c s IH]; [reflexivity|].
  cbn [safe_name str_map String.length]. f_equal. exact IH.
Qed.

Lemma safe_name_safe filename : str_forallb is_safe_char (safe_name filename) = true.
Proof.
  induction filename as [|c s IH]; [reflexivity|].
  cbn [safe_name str_map str_forallb]. rewrite safe_char_safe. exact IH.
Qed.

Lemma safe_name_fixed s : str_forallb is_safe_char s = true -> safe_name s = s.
Proof.
  induction s as [|c s IH]; [reflexivity|]. cbn [str_forallb safe_name str_map].
  intros H. apply andb_prop in H as [Hc Hs]. unfold safe_char. rewrite Hc.
  f_equal. exact (IH Hs).
Qed.

Lemma lower_safe_name_eqb s suffix :
  str_forallb (fun x => is_safe_char x && negb (Ascii.eqb x "_")) suffix = true ->
  String.eqb (lower (safe_name s)) suffix = String.eqb (lower s) suffix.
Proof.
  revert suffix. induction s as [|c s IH]; intros suffix H; [reflexivity|].
  cbn [safe_name lower str_map]. destruct suffix as [|x suffix]; [reflexivity|].
  cbn [str_forallb] in H. apply andb_prop in H as [Hx H].
  apply andb_prop in Hx as [Hx Nx].
  cbn [String.eqb]. rewrite (safe_char_keeps_lower c x Hx).
  - destruct (Ascii.eqb (lower_char c) x); [|reflexivity]. exact (IH suffix H).
  - intros ->. discriminate.
Qed.

Lemma endswith_safe_name s suffix :
  str_forallb (fun x => is_safe_char x && negb (Ascii.eqb x "_")) suffix = true ->
  endswith (lower (safe_name s)) suffix = endswith (lower s) suffix.
Proof.
  intros H. induction s as [|c s IH].
  - reflexivity.
  - change (lower (safe_name (String c s)))
      with (String (lower_char (safe_char c)) (lower (safe_name s))).
    change (lower (String c s)) with (String (lower_char c) (lower s)).
    cbn [endswith]. rewrite IH.
    change (String (lower_char (safe_char c)) (lower (safe_name s)))
      with (lower (safe_name (String c s))).
    change (String (lower_char c) (lower s)) with (lower (String c s)).
    now rewrite (lower_safe_name_eqb _ _ H).
Qed.

(** X22: the cleaned file name has the length of the file name and only
    characters of [a-zA-Z0-9_.-], so no path separator; cleaning a clean
    name changes nothing, so cleaning twice is cleaning once; and the
    cleaned name ends in [.pdf], whatever the case, exactly when the file
    name does. *)
Theorem safe_name_is_plain_and_keeps_the_extension filename :
  String.length (safe_name filename) = String.length filename /\
  str_forallb is_safe_char (safe_name filename) = true /\
  safe_name (safe_name filename) = safe_name filename /\
  (str_forallb is_safe_char filename = true -> safe_name filename = filename) /\
  endswith (lower (safe_name filename)) ".pdf" = endswith (lower filename) ".pdf".
Proof.
  split; [apply safe_name_length|].
  split; [apply safe_name_safe|].
  split; [apply safe_name_fixed, safe_name_safe|].
  split; [apply safe_name_fixed|].
  now apply endswith_safe_name.
Qed.

Lemma string_of_uint_safe d :
  str_forallb is_safe_char (NilEmpty.string_of_uint d) = true.
Proof. induction d; cbn [NilEmpty.string_of_uint str_forallb]; auto. Qed.

Lemma string_of_Z_safe z : str_forallb is_safe_char (string_of_Z z) = true.
Proof.
  unfold string_of_Z, NilZero.string_of_int, NilZero.string_of_uint.
  destruct (Z.to_int z) as [d|d]; destruct d; try reflexivity;
    cbn [str_forallb]; apply string_of_uint_safe.
Qed.

Lemma str_forallb_append p a b :
  str_forallb p (a ++ b) = str_forallb p a && str_forallb p b.
Proof.
  induction a as [|c a IH]; [reflexivity|]. cbn [append str_forallb].
  now rewrite IH, andb_assoc.
Qed.

Lemma lower_app a b : lower (a ++ b) = (lower a ++ lower b)%string.
Proof. induction a as [|c a IH]; cbn; [reflexivity|]. f_equal. exact IH. Qed.

Lemma endswith_app a s suffix :
  endswith s suffix = true -> endswith (a ++ s) suffix = true.
Proof.
  intros H. induction a as [|c a IH]; [exact H|].
  cbn [append endswith]. rewrite IH. apply orb_true_r.
Qed.

Lemma has_ink_lstrip s : has_ink (lstrip s) = has_ink s.
Proof.
  unfold has_ink. induction s as [|c s IH]; [reflexivity|].
  cbn [lstrip]. destruct (is_space c) eqn:E.
  - rewrite IH. cbn [str_existsb]. now rewrite E.
  - reflexivity.
Qed.

Lemma has_ink_rstrip s : has_ink (rstrip s) = has_ink s.
Proof.
  unfold has_ink. induction s as [|c s IH]; [reflexivity|].
  cbn [rstrip]. destruct (rstrip s) eqn:R.
  - cbn [str_existsb] in *. rewrite <- IH. destruct (is_space c) eqn:E.
    + reflexivity.
    + cbn [str_existsb]. now rewrite E.
  - cbn [str_existsb] in *. now rewrite IH.
Qed.

Lemma has_ink_strip s : has_ink (strip s) = has_ink s.
Proof. unfold strip. now rewrite has_ink_rstrip, has_ink_lstrip. Qed.

Lemma lstrip_no_ink s : has_ink s = false -> lstrip s = "".
Proof.
  unfold has_ink. induction s as [|c s IH]; [reflexivity|].
  cbn [str_existsb lstrip]. destruct (is_space c); [exact IH|discriminate].
Qed.

Lemma nonempty_strip s : nonempty (strip s) = has_ink s.
Proof.
  destruct (has_ink s) eqn:H; [now apply strip_ink|].
  unfold strip. now rewrite (lstrip_no_ink s H).
Qed.

(** X23: the input checks accept a request exactly when it has a [pdf]
    upload whose file name ends in [.pdf], whatever the case, and a job
    description with a character that is no white space; the upload is then
    stored under the time stamp, an underscore and the cleaned file name, a
    name of characters of [a-zA-Z0-9_.-] that ends in [.pdf], and the job
    description is used stripped; every rejection has status 400. *)
Theorem upload_is_accepted_under_a_plain_pdf_name files form timestamp :
  match check_upload files form timestamp with
  | Accepted name job_description =>
      exists filename,
        dict_get files "pdf" = Some filename /\
        endswith (lower filename) ".pdf" = true /\
        has_ink (dict_get_default form "job_description" "") = true /\
        name = (string_of_Z timestamp ++ "_" ++ safe_name filename)%string /\
        str_forallb is_safe_char name = true /\
        endswith (lower name) ".pdf" = true /\
        job_description = strip (dict_get_default form "job_description" "") /\
        has_ink job_description = true
  | Rejected status _ =>
      status = 400 /\
      (forall filename,
         dict_get files "pdf" = Some filename ->
         endswith (lower filename) ".pdf" = true ->
         has_ink (dict_get_default form "job_description" "") = false)
  end.
Proof.
  unfold check_upload.
  destruct (dict_get files "pdf") as [filename|]; [|split; [reflexivity|discriminate]].
  destruct (String.eqb_spec filename "") as [->|N].
  { split; [reflexivity|]. intros f [= <-]. discriminate. }
  destruct (endswith (lower filename) ".pdf") eqn:E; cbn [negb].
  2:{ split; [reflexivity|]. intros f [= <-]. congruence. }
  rewrite nonempty_strip.
  destruct (has_ink (dict_get_default form "job_description" "")) eqn:J; cbn [negb].
  2:{ split; [reflexivity|]. intros f _ _. reflexivity. }
  exists filename.
  split; [reflexivity|]. split; [exact E|]. split; [reflexivity|].
  split; [reflexivity|]. split; [|split; [|split; [reflexivity|]]].
  - rewrite !str_forallb_append, string_of_Z_safe, safe_name_safe. reflexivity.
  - rewrite !lower_app. apply endswith_app, endswith_app.
    rewrite endswith_safe_name by reflexivity. exact E.
  - now rewrite has_ink_strip.
Qed.

Example check_upload_examples :
  check_upload [("pdf", "My CV (final).PDF")]
               [("job_description", ("  Python developer" ++ nl)%string)] 1700000000
  = Accepted "1700000000_My_CV__final_.PDF" "Python developer"
  /\ check_upload [("pdf", "cv.pdf.exe")] [("job_description", "x")] 0
     = Rejected 400 "File must be a PDF"
  /\ check_upload [("pdf", "cv.pdf")] [("job_description", (" " ++ nl)%string)] 0
     = Rejected 400 "Job description is required".
Proof. repeat split; vm_compute; reflexivity. Qed.

Lemma In_filter_keys (k : string) l ks :
  str_in k ks = true -> In k (l ++ filter (fun k' => negb (str_in k' l)) ks).
Proof.
  intros H. apply in_or_app. destruct (str_in k l) eqn:E.
  - left. unfold str_in in E. apply existsb_exists in E as (k' & Hin & Hk).
    apply String.eqb_eq in Hk. now subst.
  - right. apply filter_In. split; [|now rewrite E].
    unfold str_in in H. apply existsb_exists in H as (k' & Hin & Hk).
    apply String.eqb_eq in Hk. now subst.
Qed.

Lemma str_in_In' k l : In k l -> str_in k l = true.
Proof.
  intros H. unfold str_in. apply existsb_exists. exists k. split; [exact H|].
  apply String.eqb_refl.
Qed.

(** X24: a unified reply that is an object without a [resume] key, and
    without a language entry of infinite percent, is normalised as a whole:
    the resume data has every key of the reply and every field of the resume
    record, a key that is no field keeps its value, and the cover letter and
    the gap analysis are the values of their keys, the empty object when
    absent. *)
Theorem flat_reply_is_taken_as_the_resume d :
  dict_get d "resume" = None ->
  existsb inf_percent (languages_of (JDict d)) = false ->
  exists r,
    jobkit_sections (JDict d)
    = Sections (JDict r) (dict_get_default d "cover_letter" (JDict []))
               (dict_get_default d "gap_analysis" (JDict [])) /\
    (forall k, dict_mem d k = true -> dict_mem r k = true) /\
    (forall k, str_in k field_names = true -> dict_mem r k = true) /\
    (forall k, str_in k field_names = false -> dict_get r k = dict_get d k).
Proof.
  intros N H. destruct (normalize_returns (JDict d) H) as [y E].
  pose proof (keys_of_record d) as K.
  pose proof (foreign_key_kept d) as F.
  pose proof (normalize_is_object (JDict d)) as D.
  rewrite E in K, F, D. destruct D as [r ->]. cbn [as_dict] in K, F.
  rewrite (fold_add_key _ _ field_names_NoDup) in K.
  exists r. split; [|split; [|split]].
  - unfold jobkit_sections. cbv zeta. unfold dict_get_default at 1. rewrite N, E.
    reflexivity.
  - intros k Hk. rewrite dict_mem_keys in *. rewrite K, str_in_app, Hk. reflexivity.
  - intros k Hk. rewrite dict_mem_keys, K. apply str_in_In', In_filter_keys, Hk.
  - exact F.
Qed.

Lemma flat_reply_witness :
  exists r,
    jobkit_sections (JDict [("name", JStr "Ada"); ("cover_letter", JStr "Dear team")])
    = Sections (JDict r) (JStr "Dear team") (JDict []) /\
    dict_get r "name" = Some (JStr "Ada") /\
    dict_get r "cover_letter" = Some (JStr "Dear team") /\
    dict_mem r "skills" = true.
Proof.
  destruct (flat_reply_is_taken_as_the_resume
              [("name", JStr "Ada"); ("cover_letter", JStr "Dear team")])
    as (r & E & Hd & Hf & Hk); [reflexivity|reflexivity|].
  exists r. split; [exact E|]. split; [|split].
  - vm_compute in E. injection E as <-. reflexivity.
  - now rewrite (Hk "cover_letter").
  - now apply Hf.
Defined.
